(** * RoseTTAFold fragment: device helpers, initial-structure network, build descriptor

    A shallow embedding of

    - [network/utils/utils_mps_fallback.py]  ([fallback_to_cpu_if_mps]),
    - [network/utils/utils_decorators.py]    ([cuda_amp_autocast]),
    - [network/InitStrGenerator.py]          ([get_seqsep], [make_graph],
                                              [UniMPBlock], [InitStr_Network]),
    - [lie_learn/setup.py]                   (the [extensions] list),

    together with the properties the specification states about them.

    Conventions.  A Python call that may raise is a function into [result];
    the only exceptions are the ones the tensor framework and the Python
    runtime raise.  A tensor is its shape, its device and its row-major data.
    Long tensors hold 64-bit integers, as the [Z] in their range, and the
    wrap-around of their subtraction and absolute value is written out.
    Float tensors hold [float]s: a real, an infinity or NaN; finite results
    are exact (no rounding and no overflow).  The numerical kernels of the
    framework layers are parameters of the development. *)

From Stdlib Require Import String Ascii.
From Stdlib Require Import ZArith List Bool Arith Lia Reals Lra.
Import ListNotations.

Local Open Scope string_scope.
Local Open Scope list_scope.
Local Open Scope nat_scope.

(** ** Python results

    A call either returns a value or raises.  The exception classes are the
    ones of the Python runtime and of the tensor framework; the repository
    declares none of its own. *)

Inductive exn : Type :=
| RuntimeError (msg : string)
| NotImplementedError (msg : string)
| IndexError (msg : string)
| ValueError (msg : string)
| TypeError (msg : string)
| AttributeError (msg : string)
| StopIteration.

Inductive result (A : Type) : Type :=
| Ok (a : A)
| Raise (e : exn).
Arguments Ok {A} a.
Arguments Raise {A} e.

Definition bind {A B : Type} (c : result A) (k : A -> result B) : result B :=
  match c with
  | Ok a => k a
  | Raise e => Raise e
  end.

Notation "x <- c ;; k" := (bind c (fun x => k))
  (at level 61, c at next level, right associativity).
Notation "' pat <- c ;; k" := (bind c (fun x => match x with pat => k end))
  (at level 61, pat pattern, c at next level, right associativity).

(** ** Torch devices and the MPS fallback *)

Module Device.

(** [torch.device]: a device-type string and an optional ordinal. *)
Record device := mk_device { type : string; index : option nat }.

(** The device types [torch.device] accepts. *)
Definition device_types : list string :=
  ["cpu"; "cuda"; "ipu"; "xpu"; "mkldnn"; "opengl"; "opencl"; "ideep"; "hip";
   "ve"; "fpga"; "maia"; "xla"; "lazy"; "vulkan"; "mps"; "meta"; "hpu";
   "mtia"; "privateuseone"].

(** [torch.device(s)] for a bare device-type string [s]: the constructor
    raises [RuntimeError] on a string that names no device type. *)
Definition torch_device (s : string) : result device :=
  if existsb (String.eqb s) device_types
  then Ok (mk_device s None)
  else Raise (RuntimeError "Expected one of cpu, cuda, ... device type").

(** The devices [torch.device('cpu')], [torch.device('mps')] and
    [torch.device('cuda', 0)]. *)
Definition cpu : device := mk_device "cpu" None.
Definition mps : device := mk_device "mps" None.
Definition cuda0 : device := mk_device "cuda" (Some 0).

Definition device_eqb (a b : device) : bool :=
  String.eqb (type a) (type b) &&
  match index a, index b with
  | None, None => true
  | Some i, Some j => Nat.eqb i j
  | _, _ => false
  end.

(** [utils_mps_fallback.fallback_to_cpu_if_mps]:
    [if device.type == 'mps': return torch.device('cpu')]
    [return device]. *)
Definition fallback_to_cpu_if_mps (d : device) : result device :=
  if String.eqb (type d) "mps"
  then torch_device "cpu"
  else Ok d.

End Device.

(** ** The conditional autocast decorator *)

Module Decorators.

(** What the decorator can see of the Python process. *)
Record runtime := { cuda_is_available : bool }.

(** A Python callable: a plain function, or a function wrapped by
    [torch.cuda.amp.autocast(enabled=...)]. *)
Inductive callable (A B : Type) : Type :=
| Plain (f : A -> B)
| Autocast (enabled : bool) (func : callable A B).
Arguments Plain {A B} f.
Arguments Autocast {A B} enabled func.

(** Calling a callable.  The autocast context only selects the precision
    of the CUDA kernels that run inside it; which value is computed at that
    precision is left to the kernels, so the wrapped function is called as
    it is. *)
Fixpoint call {A B : Type} (c : callable A B) (a : A) : B :=
  match c with
  | Plain f => f a
  | Autocast _ func => call func a
  end.

(** [utils_decorators.cuda_amp_autocast]:
    [def decorator(func):]
    [    if torch.cuda.is_available():]
    [        return torch.cuda.amp.autocast(enabled=enabled)(func)]
    [    else: return func] *)
Definition cuda_amp_autocast {A B : Type} (rt : runtime) (enabled : bool)
    (func : callable A B) : callable A B :=
  if cuda_is_available rt then Autocast enabled func else func.

(** The decorator as the specification words it: a branch on a
    device-type string. *)
Definition autocast_by_device_type {A B : Type} (device_type : string)
    (enabled : bool) (func : callable A B) : callable A B :=
  if String.eqb device_type "cuda" then Autocast enabled func else func.

End Decorators.

(** ** Tensors and the framework operations the network uses *)

Module Torch.

Import Device.

(** A tensor: shape, device and data in row-major order. *)
Record tensor (A : Type) : Type :=
  mk_tensor { shape : list nat; device : Device.device; data : list A }.
Arguments mk_tensor {A} shape device data.
Arguments shape {A} t.
Arguments device {A} t.
Arguments data {A} t.

Definition numel (sh : list nat) : nat := fold_right Nat.mul 1 sh.

(** The tensors that exist: as many elements as the shape says. *)
Definition well_formed {A : Type} (t : tensor A) : Prop :=
  length (data t) = numel (shape t).

(** All multi-indices of a shape, in row-major order. *)
Fixpoint indices (sh : list nat) : list (list nat) :=
  match sh with
  | [] => [[]]
  | n :: sh' => flat_map (fun i => map (cons i) (indices sh')) (seq 0 n)
  end.

(** Position of a multi-index in the row-major data. *)
Fixpoint offset (sh ix : list nat) : nat :=
  match sh, ix with
  | n :: sh', i :: ix' => i * numel sh' + offset sh' ix'
  | _, _ => 0
  end.

(** A multi-index is in range when it has one coordinate per axis, each
    below the size of its axis. *)
Definition in_range (ix sh : list nat) : Prop := Forall2 lt ix sh.

(** The tensor whose element at [ix] is [f ix]. *)
Definition tabulate {A : Type} (sh : list nat) (dev : Device.device)
    (f : list nat -> A) : tensor A :=
  mk_tensor sh dev (map f (indices sh)).

(** Element access [t[ix]] ([dflt] outside the data). *)
Definition get {A : Type} (dflt : A) (t : tensor A) (ix : list nat) : A :=
  nth (offset (shape t) ix) (data t) dflt.

(** 64-bit integers (the elements of a long tensor): the result of an
    operation is reduced to the range from -2^63 to 2^63 - 1. *)
Definition is_int64 (z : Z) : Prop := (- 2 ^ 63 <= z < 2 ^ 63)%Z.

Definition int64_wrap (z : Z) : Z := ((z + 2 ^ 63) mod 2 ^ 64 - 2 ^ 63)%Z.

(** [a - b] and [abs(a)] on 64-bit integers; the absolute value of -2^63
    is -2^63. *)
Definition int64_sub (a b : Z) : Z := int64_wrap (a - b).
Definition int64_abs (a : Z) : Z := int64_wrap (Z.abs a).

(** The elements of a float tensor. *)
Inductive float : Type :=
| Finite (r : R)
| Inf (negative : bool)
| NaN.

Definition fzero : float := Finite 0%R.

(** [a + b] and [a * b] on floats. *)
Definition fadd (a b : float) : float :=
  match a, b with
  | Finite r, Finite s => Finite (r + s)
  | NaN, _ | _, NaN => NaN
  | Inf n, Finite _ | Finite _, Inf n => Inf n
  | Inf n, Inf m => if Bool.eqb n m then Inf n else NaN
  end.

Definition fmul (a b : float) : float :=
  match a, b with
  | Finite r, Finite s => Finite (r * s)
  | NaN, _ | _, NaN => NaN
  | Inf n, Inf m => Inf (xorb n m)
  | Inf n, Finite r | Finite r, Inf n =>
      if Rlt_dec 0 r then Inf n
      else if Rlt_dec r 0 then Inf (negb n)
      else NaN
  end.

(** [torch.log]: minus infinity at 0, NaN below 0. *)
Definition flog (a : float) : float :=
  match a with
  | Finite r =>
      if Rlt_dec 0 r then Finite (ln r)
      else if Rlt_dec r 0 then NaN
      else Inf true
  | Inf false => Inf false
  | Inf true => NaN
  | NaN => NaN
  end.

(** [torch.clamp(v, lo, hi)], that is min(max(v, lo), hi); NaN stays NaN. *)
Definition clamp (lo hi v : R) : R := Rmin (Rmax v lo) hi.

Definition fclamp (lo hi : R) (a : float) : float :=
  match a with
  | Finite r => Finite (clamp lo hi r)
  | Inf false => Finite hi
  | Inf true => Finite (Rmin lo hi)
  | NaN => NaN
  end.

(** Element-wise functions ([torch.sign], [torch.abs], [torch.log],
    [torch.clamp], arithmetic with a Python scalar, comparisons). *)
Definition tmap {A B : Type} (f : A -> B) (t : tensor A) : tensor B :=
  mk_tensor (shape t) (device t) (map f (data t)).

(** The tensor [t], on the device [dev]. *)
Definition moved {A : Type} (t : tensor A) (dev : Device.device) : tensor A :=
  mk_tensor (shape t) dev (data t).

(** Whether a copy from the device [src] to [dev] fails: a tensor on the
    [meta] device has no data to copy to another device. *)
Definition no_data_to_copy (src dev : Device.device) : bool :=
  String.eqb (type src) "meta" && negb (String.eqb (type dev) "meta").

(** [t.to(dev)]. *)
Definition to {A : Type} (t : tensor A) (dev : Device.device) : result (tensor A) :=
  if no_data_to_copy (device t) dev
  then Raise (NotImplementedError "Cannot copy out of meta tensor; no data!")
  else Ok (moved t dev).

(** Subscripts [t[:, None, :]] ([colons = 2], [pos = 1]) and
    [t[:, :, None]] ([colons = 2], [pos = 2]): a new axis of size one at
    [pos]; the tensor needs an axis for each colon. *)
Definition insert_axis (pos : nat) (sh : list nat) : list nat :=
  firstn pos sh ++ 1 :: skipn pos sh.

Definition subscript_None {A : Type} (colons pos : nat) (t : tensor A)
    : result (tensor A) :=
  if length (shape t) <? colons
  then Raise (IndexError "too many indices for tensor")
  else Ok (mk_tensor (insert_axis pos (shape t)) (device t) (data t)).

(** [t.unsqueeze(-1)]. *)
Definition unsqueeze_last {A : Type} (t : tensor A) : tensor A :=
  mk_tensor (shape t ++ [1]) (device t) (data t).

(** Broadcasting of two shapes, aligned at the last axis. *)
Fixpoint broadcast_rev (a b : list nat) : option (list nat) :=
  match a, b with
  | [], _ => Some b
  | _, [] => Some a
  | x :: a', y :: b' =>
      match broadcast_rev a' b' with
      | Some r =>
          if x =? y then Some (x :: r)
          else if x =? 1 then Some (y :: r)
          else if y =? 1 then Some (x :: r)
          else None
      | None => None
      end
  end.

Definition broadcast_shapes (a b : list nat) : option (list nat) :=
  option_map (@rev nat) (broadcast_rev (rev a) (rev b)).

(** The index at which an operand of shape [sh] is read for the output
    index [ix]: its own trailing axes, an axis of size one always at 0. *)
Definition bindex (sh ix : list nat) : list nat :=
  map (fun '(n, i) => if n =? 1 then 0 else i)
      (combine sh (skipn (length ix - length sh) ix)).

(** Element-wise binary operators on two tensors ([a - b], [a * b],
    [a + b]). *)
Definition binop {A B C : Type} (da : A) (db : B) (f : A -> B -> C)
    (a : tensor A) (b : tensor B) : result (tensor C) :=
  if negb (device_eqb (device a) (device b))
  then Raise (RuntimeError "Expected all tensors to be on the same device")
  else match broadcast_shapes (shape a) (shape b) with
       | None => Raise (RuntimeError "The size of tensor a must match the size of tensor b")
       | Some sh =>
           Ok (tabulate sh (device a)
                 (fun ix => f (get da a (bindex (shape a) ix))
                              (get db b (bindex (shape b) ix))))
       end.

(** [t.reshape(dims)] with at most one [-1] (torch's [infer_size]). *)
Definition reshape {A : Type} (t : tensor A) (dims : list Z) : result (tensor A) :=
  let n := numel (shape t) in
  let inferred := List.filter (Z.eqb (-1)) dims in
  let given := List.filter (fun d => negb (Z.eqb (-1) d)) dims in
  if existsb (fun d => Z.ltb d 0) given
  then Raise (RuntimeError "invalid shape dimension")
  else
    let newsize := numel (map Z.to_nat given) in
    match inferred with
    | [] =>
        if n =? newsize
        then Ok (mk_tensor (map Z.to_nat dims) (device t) (data t))
        else Raise (RuntimeError "shape is invalid for input size")
    | [_] =>
        if (0 <? newsize) && (n mod newsize =? 0)
        then Ok (mk_tensor
                   (map (fun d => if Z.eqb (-1) d then n / newsize else Z.to_nat d) dims)
                   (device t) (data t))
        else if (n =? newsize)
        then Raise (RuntimeError "the unspecified dimension size -1 can be any value and is ambiguous")
        else Raise (RuntimeError "shape is invalid for input size")
    | _ => Raise (RuntimeError "only one dimension can be inferred")
    end.

(** [t.permute(dims)]. *)
Definition is_permutation (dims : list nat) (rank : nat) : bool :=
  (length dims =? rank) &&
  forallb (fun d => existsb (Nat.eqb d) dims) (seq 0 rank).

Fixpoint index_of (d : nat) (dims : list nat) : nat :=
  match dims with
  | [] => 0
  | d' :: dims' => if d =? d' then 0 else S (index_of d dims')
  end.

Definition permute {A : Type} (dflt : A) (t : tensor A) (dims : list nat)
    : result (tensor A) :=
  if is_permutation dims (length (shape t))
  then Ok (tabulate (map (fun d => nth d (shape t) 0) dims) (device t)
             (fun ix => get dflt t
                (map (fun d => nth (index_of d dims) ix 0)
                     (seq 0 (length (shape t))))))
  else Raise (RuntimeError "permute: dims do not match the tensor").

(** [t.sum(dim=d)] on a float tensor. *)
Definition sum_dim (t : tensor float) (d : nat) : result (tensor float) :=
  if d <? length (shape t)
  then Ok (tabulate (firstn d (shape t) ++ skipn (S d) (shape t)) (device t)
             (fun ix => fold_right fadd fzero
                (map (fun k => get fzero t (firstn d ix ++ k :: skipn d ix))
                     (seq 0 (nth d (shape t) 0)))))
  else Raise (IndexError "Dimension out of range").

(** [torch.cat((a, b), dim=-1)]. *)
Definition cat_last {A : Type} (dflt : A) (a b : tensor A) : result (tensor A) :=
  if negb (device_eqb (device a) (device b))
  then Raise (RuntimeError "Expected all tensors to be on the same device")
  else match rev (shape a), rev (shape b) with
       | la :: ra, lb :: rb =>
           if list_eq_dec Nat.eq_dec ra rb
           then Ok (tabulate (rev ra ++ [la + lb]) (device a)
                      (fun ix =>
                         let k := last ix 0 in
                         if k <? la then get dflt a ix
                         else get dflt b (removelast ix ++ [k - la])))
           else Raise (RuntimeError "Sizes of tensors must match except in dimension -1")
       | _, _ => Raise (RuntimeError "zero-dimensional tensor cannot be concatenated")
       end.

(** [torch.where(cond)]: for every axis the coordinates, along that axis,
    of the true elements, listed in row-major order.  The size of the
    result depends on the data: a tensor on the [meta] device has none, and
    the operation is not implemented there. *)
Definition where_ (cond : tensor bool) : result (list (tensor Z)) :=
  if String.eqb (type (device cond)) "meta"
  then Raise (NotImplementedError
                "Could not run 'aten::nonzero' with arguments from the 'Meta' backend")
  else
    let hits := List.filter (get false cond) (indices (shape cond)) in
    Ok (map (fun k =>
               mk_tensor [length hits] (device cond)
                         (map (fun ix => Z.of_nat (nth k ix 0)) hits))
            (seq 0 (length (shape cond)))).

(** [torch.stack([a, b])]. *)
Definition stack2 {A : Type} (a b : tensor A) : result (tensor A) :=
  if negb (device_eqb (device a) (device b))
  then Raise (RuntimeError "Expected all tensors to be on the same device")
  else if list_eq_dec Nat.eq_dec (shape a) (shape b)
  then Ok (mk_tensor (2 :: shape a) (device a) (data a ++ data b))
  else Raise (RuntimeError "stack expects each tensor to be equal size").

(** An index into an axis of size [n]: negative indices count from the
    end, anything else out of range raises. *)
Definition norm_index (n : nat) (z : Z) : result nat :=
  if ((0 <=? z) && (z <? Z.of_nat n))%Z then Ok (Z.to_nat z)
  else if ((- Z.of_nat n <=? z) && (z <? 0))%Z then Ok (Z.to_nat (z + Z.of_nat n))
  else Raise (IndexError "index is out of bounds").

Fixpoint sequence {A : Type} (l : list (result A)) : result (list A) :=
  match l with
  | [] => Ok []
  | c :: l' => a <- c ;; r <- sequence l' ;; Ok (a :: r)
  end.

(** [t[b, i, j]] with three one-dimensional index tensors of one length
    (the tuple [torch.where] returns): row [k] of the result is
    [t[b[k], i[k], j[k]]].  The index tensors may live on the CPU whatever
    the device of [t]. *)
Definition index3 {A : Type} (dflt : A) (t : tensor A) (b i j : tensor Z)
    : result (tensor A) :=
  match shape t, shape b with
  | nb :: ni :: nj :: rest, [E] =>
      if list_eq_dec Nat.eq_dec (shape i) [E] then
      if list_eq_dec Nat.eq_dec (shape j) [E] then
        rows <- sequence
                  (map (fun '(zb, (zi, zj)) =>
                          kb <- norm_index nb zb ;;
                          ki <- norm_index ni zi ;;
                          kj <- norm_index nj zj ;;
                          Ok [kb; ki; kj])
                       (combine (data b) (combine (data i) (data j)))) ;;
        Ok (mk_tensor (E :: rest) (device t)
              (flat_map (fun row => map (fun r => get dflt t (row ++ r)) (indices rest))
                        rows))
      else Raise (IndexError "shape mismatch: indexing tensors could not be broadcast")
      else Raise (IndexError "shape mismatch: indexing tensors could not be broadcast")
  | _, [_] => Raise (IndexError "too many indices for tensor")
  | _, _ => Raise (IndexError "shape mismatch: indexing tensors could not be broadcast")
  end.

End Torch.

(** ** network/InitStrGenerator.py *)

Module InitStrGenerator.

Import Device Decorators Torch.

Local Open Scope R_scope.

(** [get_seqsep]: the signed, logarithmic, clamped sequence separation of
    every residue pair.  [idx] is a long tensor of residue indices: the
    differences and their absolute values are 64-bit integers, which the
    addition of the Python float 1.0 turns into floats. *)
Definition get_seqsep (idx : tensor Z) : result (tensor float) :=
  idx_row <- subscript_None 2 1 idx ;;                     (* idx[:,None,:] *)
  idx_col <- subscript_None 2 2 idx ;;                     (* idx[:,:,None] *)
  seqsep <- binop 0%Z 0%Z int64_sub idx_row idx_col ;;
  let sign := tmap Z.sgn seqsep in                         (* torch.sign(seqsep) *)
  let seqsep := tmap flog (tmap (fun z => Finite (IZR z + 1.0)) (tmap int64_abs seqsep)) in
                                          (* torch.log(torch.abs(seqsep) + 1.0) *)
  let seqsep := tmap (fclamp 0.0 5.5) seqsep in            (* torch.clamp(seqsep, 0.0, 5.5) *)
  seqsep <- binop 0%Z fzero (fun s v => fmul (Finite (IZR s)) v) sign seqsep ;;
                                                           (* sign * seqsep *)
  Ok (unsqueeze_last seqsep).                              (* seqsep.unsqueeze(-1) *)

Local Close Scope R_scope.

(** [torch_geometric.data.Data(x=..., edge_index=..., edge_attr=...)]. *)
Record Data : Type :=
  mk_Data { x : tensor float; edge_index : tensor Z; edge_attr : tensor float }.

(** Tuple unpacking [a, b = t] and [a, b, c = t]. *)
Definition unpack2 {A : Type} (t : list A) : result (A * A) :=
  match t with
  | [a; b] => Ok (a, b)
  | _ => Raise (ValueError "wrong number of values to unpack (expected 2)")
  end.

Definition unpack3 {A : Type} (t : list A) : result (A * A * A) :=
  match t with
  | [a; b; c] => Ok (a, b, c)
  | _ => Raise (ValueError "wrong number of values to unpack (expected 3)")
  end.

(** [make_graph]: one node per residue of every batch element, one edge
    for every pair of residues of a batch element whose separation, a
    64-bit integer, has a positive absolute value.  (The node numbers
    [b*L+i] are below the number of elements of a tensor, which is below
    2^63: they do not wrap.) *)
Definition make_graph (node : tensor float) (idx : tensor Z) (emb : tensor float)
    : result Data :=
  fallback <- fallback_to_cpu_if_mps (device emb) ;;
  '(B, L) <- unpack2 (firstn 2 (shape emb)) ;;              (* B, L = emb.shape[:2] *)
  idx_row <- subscript_None 2 1 idx ;;                      (* idx[:,None,:] *)
  idx_col <- subscript_None 2 2 idx ;;                      (* idx[:,:,None] *)
  sep <- binop 0%Z 0%Z int64_sub idx_row idx_col ;;
  let sep := tmap int64_abs sep in                          (* sep.abs() *)
  hits <- where_ (tmap (fun z => (0 <? z)%Z) sep) ;;       (* torch.where(sep > 0) *)
  hits <- sequence (map (fun t => to t fallback) hits) ;;   (* t.to(fallback) for t in *)
  '(b, i, j) <- unpack3 hits ;;                             (* b, i, j = tuple(...) *)
  src <- binop 0%Z 0%Z Z.add (tmap (fun z => (z * Z.of_nat L)%Z) b) i ;;  (* b*L+i *)
  tgt <- binop 0%Z 0%Z Z.add (tmap (fun z => (z * Z.of_nat L)%Z) b) j ;;  (* b*L+j *)
  x0 <- reshape node [Z.of_nat (B * L); (-1)%Z] ;;          (* node.reshape(B*L, -1) *)
  x <- to x0 fallback ;;                                    (*     .to(fallback) *)
  e_idx <- stack2 src tgt ;;                                (* torch.stack([src,tgt]) *)
  e_attr <- index3 fzero emb b i j ;;                       (* emb[b,i,j] *)
  e_attr <- to e_attr fallback ;;                           (*     .to(fallback) *)
  Ok (mk_Data x e_idx e_attr).

(** The node of residue [i] of batch element [b], as [make_graph] numbers
    it: [b*L+i]. *)
Definition node_id (L b i : nat) : Z :=
  (Z.of_nat b * Z.of_nat L + Z.of_nat i)%Z.

(** The nodes and the edges of a graph: [x] has a row per node, and
    column [k] of [edge_index] is the edge (source, target). *)
Definition num_nodes (G : Data) : nat := hd 0 (shape (x G)).

Definition edges (G : Data) : list (Z * Z) :=
  map (fun k => (get 0%Z (edge_index G) [0; k], get 0%Z (edge_index G) [1; k]))
      (seq 0 (nth 1 (shape (edge_index G)) 0)).

(** *** Layers

    A layer that has parameters lives on the device of its parameters and
    computes, from its input, the value at every position of its output:
    which value is the business of its weights and of the framework
    kernels, so that function is carried by the layer as it is. *)

Definition kernel : Type := tensor float -> list nat -> float.
Definition conv_kernel : Type :=
  tensor float -> tensor Z -> tensor float -> list nat -> float.

#[local] Set Warnings "-register-all".

Inductive layer : Type :=
| LayerNorm (d_model : nat) (dev : Device.device) (f : kernel)
| SequenceWeight (d_model heads : nat) (dev : Device.device) (f : kernel)
| Linear (in_features out_features : nat) (dev : Device.device) (f : kernel)
| ELU
| TransformerConv (in_channels out_channels heads edge_dim : nat)
    (dev : Device.device) (f : conv_kernel)
| UniMPBlock (TConv LNorm Lin Activ : layer)
| Sequential (layers : list layer).

(** What the module takes from outside this file: the shapes the two
    layers of [Transformer.py] produce ([LayerNorm(d_model)] and
    [SequenceWeight(d_model, heads)], for an input shape; [None] when the
    layer rejects the shape); the answer of torch_geometric's
    [TransformerConv(in_channels, out_channels, heads, edge_dim=edge_dim)]
    to node features of a shape, an edge list and edge features of a shape
    (the shape of its output, or the exception it raises); and the Python
    process it is imported in. *)
Record externals : Type := {
  LayerNorm_shape : nat -> list nat -> option (list nat);
  SequenceWeight_shape : nat -> nat -> list nat -> option (list nat);
  TransformerConv_shape :
    nat -> nat -> nat -> nat -> list nat -> tensor Z -> list nat -> result (list nat);
  rt : runtime
}.

(** What is assumed of [Transformer.py]: [LayerNorm(d)] keeps the shape
    of an input whose last axis has size [d], and [SequenceWeight(d, 1)]
    gives one weight for every sequence and residue of every batch
    element. *)
Definition LayerNorm_contract (ext : externals) : Prop :=
  forall d r, LayerNorm_shape ext d (r ++ [d]) = Some (r ++ [d]).

Definition SequenceWeight_contract (ext : externals) : Prop :=
  forall d B N L, 0 < N ->
    exists sh, SequenceWeight_shape ext d 1 [B; N; L; d] = Some sh /\
               numel sh = B * L * N.

(** What is assumed of torch_geometric: off the [meta] device, a
    [TransformerConv] with positive channel numbers and at least one head
    maps node features (n, in_channels) of n >= 1 nodes, an edge list (2, E)
    whose entries are nodes, and edge features (E, edge_dim) to node
    features (n, heads * out_channels).  Nothing is assumed of its answer to
    other arguments. *)
Definition TransformerConv_contract (ext : externals) : Prop :=
  forall i o h e n E (e_idx : tensor Z),
    0 < i -> 0 < o -> 0 < h -> 0 < e -> 0 < n ->
    type (device e_idx) <> "meta" ->
    shape e_idx = [2; E] ->
    forallb (fun v => (0 <=? v)%Z && (v <? Z.of_nat n)%Z) (data e_idx) = true ->
    TransformerConv_shape ext i o h e [n; i] e_idx [E; e] = Ok [n; h * o].

(** A graph on [n] nodes with [E] edges whose tensors live on [dev]: node
    features (n, H), edge list (2, E) over the nodes, edge features
    (E, Eh). *)
Definition valid_graph (n H E Eh : nat) (dev : Device.device) (G : Data) : Prop :=
  shape (x G) = [n; H] /\ device (x G) = dev /\
  shape (edge_index G) = [2; E] /\ device (edge_index G) = dev /\
  forallb (fun v => (0 <=? v)%Z && (v <? Z.of_nat n)%Z) (data (edge_index G)) = true /\
  shape (edge_attr G) = [E; Eh] /\ device (edge_attr G) = dev.

(** [nn.ELU]: v if v > 0, exp(v) - 1 otherwise. *)
Definition elu (v : R) : R := if Rlt_dec 0 v then v else (exp v - 1)%R.

Definition felu (a : float) : float :=
  match a with
  | Finite v => Finite (elu v)
  | Inf false => Inf false
  | Inf true => Finite (-1)%R
  | NaN => NaN
  end.

Section Forward.

Variable ext : externals.

Definition device_mismatch : exn :=
  RuntimeError "Expected all tensors to be on the same device".

(** [layer(t)] for a tensor [t]. *)
Fixpoint call (l : layer) (t : tensor float) : result (tensor float) :=
  match l with
  | LayerNorm d_model dev f =>
      if negb (device_eqb (device t) dev) then Raise device_mismatch
      else match LayerNorm_shape ext d_model (shape t) with
           | Some sh => Ok (tabulate sh (device t) (f t))
           | None => Raise (RuntimeError "LayerNorm: size mismatch")
           end
  | SequenceWeight d_model heads dev f =>
      if negb (device_eqb (device t) dev) then Raise device_mismatch
      else match SequenceWeight_shape ext d_model heads (shape t) with
           | Some sh => Ok (tabulate sh (device t) (f t))
           | None => Raise (RuntimeError "SequenceWeight: size mismatch")
           end
  | Linear in_features out_features dev f =>
      if negb (device_eqb (device t) dev) then Raise device_mismatch
      else match rev (shape t) with
           | k :: r =>
               if k =? in_features
               then Ok (tabulate (rev r ++ [out_features]) (device t) (f t))
               else Raise (RuntimeError "mat1 and mat2 shapes cannot be multiplied")
           | [] => Raise (RuntimeError "mat1 and mat2 shapes cannot be multiplied")
           end
  | ELU => Ok (tmap felu t)
  | TransformerConv _ _ _ _ _ _ =>
      Raise (TypeError "forward() missing 1 required positional argument: 'edge_index'")
  | UniMPBlock _ _ _ _ =>
      Raise (AttributeError "'Tensor' object has no attribute 'x'")
  | Sequential layers =>
      (fix run (ls : list layer) (t : tensor float) : result (tensor float) :=
         match ls with
         | [] => Ok t
         | l' :: ls' => t' <- call l' t ;; run ls' t'
         end) layers t
  end.

(** [TConv(x, edge_index, edge_attr)], with the arguments on the device
    of the layer: whether the layer accepts them, and the shape of its
    result, is the library's answer. *)
Definition call_conv (l : layer) (xin : tensor float) (e_idx : tensor Z)
    (e_attr : tensor float) : result (tensor float) :=
  match l with
  | TransformerConv in_channels out_channels heads edge_dim dev f =>
      if negb (device_eqb (device xin) dev && device_eqb (device e_idx) dev
               && device_eqb (device e_attr) dev)
      then Raise device_mismatch
      else
        sh <- TransformerConv_shape ext in_channels out_channels heads edge_dim
                (shape xin) e_idx (shape e_attr) ;;
        Ok (tabulate sh (device xin) (f xin e_idx e_attr))
  | _ => Raise (TypeError "forward() takes 2 positional arguments but 4 were given")
  end.

(** [UniMPBlock.forward], before decoration. *)
Definition UniMPBlock_forward (TConv LNorm Lin Activ : layer) (G : Data)
    : result Data :=
  let xin := x G in
  let e_idx := edge_index G in
  let e_attr := edge_attr G in
  x1 <- call_conv TConv xin e_idx e_attr ;;
  x2 <- call LNorm x1 ;;
  x3 <- call Lin x2 ;;
  s <- binop fzero fzero fadd x3 xin ;;
  out <- call Activ s ;;
  Ok (mk_Data out e_idx e_attr).

(** [layer(G)] for a graph [G]; the [forward] of a [UniMPBlock] is
    decorated with [@cuda_amp_autocast(enabled=True)]. *)
Fixpoint call_graph (l : layer) (G : Data) : result Data :=
  match l with
  | UniMPBlock TConv LNorm Lin Activ =>
      Decorators.call
        (cuda_amp_autocast (rt ext) true
           (Plain (UniMPBlock_forward TConv LNorm Lin Activ))) G
  | Sequential layers =>
      (fix run (ls : list layer) (G : Data) : result Data :=
         match ls with
         | [] => Ok G
         | l' :: ls' => G' <- call_graph l' G ;; run ls' G'
         end) layers G
  | ELU => Raise (TypeError "elu(): argument 'input' must be Tensor, not Data")
  | _ => Raise (AttributeError "'Data' object has no attribute 'device'")
  end.

(** *** The module

    The attributes of a module object, in the order in which they were
    assigned.  An attribute holds a sub-module; a graph or a tensor
    could be stored in one as well. *)
Inductive value : Type :=
| Submodule (l : layer)
| Graph (G : Data)
| Tensor (t : tensor float).

Definition module : Type := list (string * value).

Fixpoint getattr (self : module) (name : string) : result value :=
  match self with
  | [] => Raise (AttributeError name)
  | (k, v) :: rest => if String.eqb k name then Ok v else getattr rest name
  end.

Fixpoint setattr (self : module) (name : string) (v : value) : module :=
  match self with
  | [] => [(name, v)]
  | (k, v0) :: rest =>
      if String.eqb k name then (k, v) :: rest
      else (k, v0) :: setattr rest name v
  end.

(** [self.name], about to be called as a layer. *)
Definition submodule (self : module) (name : string) : result layer :=
  v <- getattr self name ;;
  match v with
  | Submodule l => Ok l
  | _ => Raise (TypeError "object is not callable")
  end.

(** The devices of the parameters of a layer, one entry per layer that
    has parameters, in the order [parameters()] yields them. *)
Fixpoint parameters (l : layer) : list Device.device :=
  match l with
  | LayerNorm _ dev _ => [dev]
  | SequenceWeight _ _ dev _ => [dev]
  | Linear _ _ dev _ => [dev]
  | ELU => []
  | TransformerConv _ _ _ _ dev _ => [dev]
  | UniMPBlock TConv LNorm Lin Activ =>
      parameters TConv ++ parameters LNorm ++ parameters Lin ++ parameters Activ
  | Sequential layers => flat_map parameters layers
  end.

Definition module_parameters (self : module) : list Device.device :=
  flat_map (fun '(_, v) => match v with
                           | Submodule l => parameters l
                           | _ => []
                           end) self.

(** [next(self.parameters()).device]. *)
Definition first_parameter_device (self : module) : result Device.device :=
  match module_parameters self with
  | dev :: _ => Ok dev
  | [] => Raise StopIteration
  end.

(** The layer [l] with its parameters on [dev], as [l.to(dev)] leaves
    it. *)
Fixpoint layer_to (dev : Device.device) (l : layer) : layer :=
  match l with
  | LayerNorm d_model _ f => LayerNorm d_model dev f
  | SequenceWeight d_model heads _ f => SequenceWeight d_model heads dev f
  | Linear i o _ f => Linear i o dev f
  | ELU => ELU
  | TransformerConv i o h e _ f => TransformerConv i o h e dev f
  | UniMPBlock TConv LNorm Lin Activ =>
      UniMPBlock (layer_to dev TConv) (layer_to dev LNorm)
                 (layer_to dev Lin) (layer_to dev Activ)
  | Sequential layers => Sequential (map (layer_to dev) layers)
  end.

(** [layer.to(dev)] as a call: it fails on parameters that have no data
    to copy. *)
Definition call_to (dev : Device.device) (l : layer) : result layer :=
  if existsb (fun p => no_data_to_copy p dev) (parameters l)
  then Raise (NotImplementedError "Cannot copy out of meta tensor; no data!")
  else Ok (layer_to dev l).

(** [module.to(dev)], for a module whose parameters have data. *)
Definition module_to (dev : Device.device) (self : module) : module :=
  map (fun '(k, v) => (k, match v with
                          | Submodule l => Submodule (layer_to dev l)
                          | other => other
                          end)) self.

(** The arguments of [InitStr_Network.__init__] ([dropout] only enters
    the kernels). *)
Record hyperparameters : Type := {
  node_dim_in : nat;
  node_dim_hidden : nat;
  edge_dim_in : nat;
  edge_dim_hidden : nat;
  nheads : nat;
  nblocks : nat
}.

(** Hyperparameters with positive widths and at least one attention head
    (any number of blocks). *)
Definition positive_dimensions (hp : hyperparameters) : Prop :=
  0 < node_dim_in hp /\ 0 < node_dim_hidden hp /\ 0 < edge_dim_in hp /\
  0 < edge_dim_hidden hp /\ 0 < nheads hp.

Definition defaults : hyperparameters :=
  {| node_dim_in := 64; node_dim_hidden := 64; edge_dim_in := 128;
     edge_dim_hidden := 64; nheads := 4; nblocks := 3 |}.

(** The weights the initialisation draws, as the functions they make the
    layers compute. *)
Record weights : Type := {
  w_norm_node : kernel;
  w_norm_edge : kernel;
  w_encoder_seq : kernel;
  w_embed_x : kernel;
  w_embed_e : kernel;
  w_TConv : nat -> conv_kernel;
  w_LNorm : nat -> kernel;
  w_Linear : nat -> kernel;
  w_get_xyz : kernel
}.

(** [UniMPBlock.__init__(node_dim, edge_dim, heads, dropout)]; a new
    module has its parameters on the CPU. *)
Definition UniMPBlock_init (node_dim edge_dim heads : nat)
    (kc : conv_kernel) (kn kl : kernel) : layer :=
  UniMPBlock (TransformerConv node_dim node_dim heads edge_dim cpu kc)
             (LayerNorm (node_dim * heads) cpu kn)
             (Linear (node_dim * heads) node_dim cpu kl)
             ELU.

(** The module as [self.transformer.to(dev)] leaves it. *)
Definition transformer_to (dev : Device.device) (self : module) : module :=
  match getattr self "transformer" with
  | Ok (Submodule l) => setattr self "transformer" (Submodule (layer_to dev l))
  | _ => self
  end.

(** [InitStr_Network.__init__]. *)
Definition InitStr_Network_init (hp : hyperparameters) (w : weights) : module :=
  [ ("norm_node", Submodule (LayerNorm (node_dim_in hp) cpu (w_norm_node w)));
    ("norm_edge", Submodule (LayerNorm (edge_dim_in hp) cpu (w_norm_edge w)));
    ("encoder_seq",
      Submodule (SequenceWeight (node_dim_in hp) 1 cpu (w_encoder_seq w)));
    ("embed_x",
      Submodule (Sequential [Linear (node_dim_in hp + 21) (node_dim_hidden hp)
                                    cpu (w_embed_x w); ELU]));
    ("embed_e",
      Submodule (Sequential [Linear (edge_dim_in hp + 1) (edge_dim_hidden hp)
                                    cpu (w_embed_e w); ELU]));
    ("transformer",
      Submodule (Sequential
        (map (fun k => UniMPBlock_init (node_dim_hidden hp) (edge_dim_hidden hp)
                         (nheads hp) (w_TConv w k) (w_LNorm w k) (w_Linear w k))
             (seq 0 (nblocks hp)))));
    ("get_xyz", Submodule (Linear (node_dim_hidden hp) 9 cpu (w_get_xyz w))) ].

(** [InitStr_Network.forward].  The module comes back with the result:
    [self.transformer.to(fallback)] moves the transformer in place.  (A call
    that raises gives no module back; nothing here is about the state after
    an exception.) *)
Definition forward (self : module) (seq1hot : tensor float) (idx : tensor Z)
    (msa pair : tensor float) : result (module * tensor float) :=
  dev <- first_parameter_device self ;;        (* device = next(self.parameters()).device *)
  fallback <- fallback_to_cpu_if_mps dev ;;
  '(B, N, L) <- unpack3 (firstn 3 (shape msa)) ;;            (* B, N, L = msa.shape[:3] *)
  norm_node <- submodule self "norm_node" ;;
  msa <- call norm_node msa ;;
  norm_edge <- submodule self "norm_edge" ;;
  pair <- call norm_edge pair ;;
  encoder_seq <- submodule self "encoder_seq" ;;
  w <- call encoder_seq msa ;;
  w <- reshape w [Z.of_nat B; Z.of_nat L; 1%Z; Z.of_nat N] ;; (* .reshape(B, L, 1, N) *)
  w_seq <- permute fzero w [0; 3; 1; 2] ;;                    (* .permute(0,3,1,2) *)
  msa <- binop fzero fzero fmul w_seq msa ;;                  (* w_seq*msa *)
  msa <- sum_dim msa 1 ;;                                     (* msa.sum(dim=1) *)
  node <- cat_last fzero msa seq1hot ;;        (* torch.cat((msa, seq1hot), dim=-1) *)
  embed_x <- submodule self "embed_x" ;;
  node <- call embed_x node ;;
  seqsep <- get_seqsep idx ;;
  pair <- cat_last fzero pair seqsep ;;        (* torch.cat((pair, seqsep), dim=-1) *)
  embed_e <- submodule self "embed_e" ;;
  pair <- call embed_e pair ;;
  G <- make_graph node idx pair ;;
  transformer <- submodule self "transformer" ;;
  transformer <- call_to fallback transformer ;;             (* self.transformer.to(fallback) *)
  let self := setattr self "transformer" (Submodule transformer) in
  Gout <- call_graph transformer G ;;                         (*     (G) *)
  get_xyz <- submodule self "get_xyz" ;;
  Gx <- to (x Gout) dev ;;                                    (* Gout.x.to(device) *)
  xyz <- call get_xyz Gx ;;                                   (* self.get_xyz(...) *)
  xyz <- reshape xyz [Z.of_nat B; Z.of_nat L; 3%Z; 3%Z] ;;   (* xyz.reshape(B, L, 3, 3) *)
  Ok (self, xyz).

(** The node and pair features [forward] hands to [make_graph]: its lines
    107 to 119, from [B, N, L = msa.shape[:3]] to [self.embed_e(pair)]. *)
Definition graph_features (self : module) (seq1hot : tensor float) (idx : tensor Z)
    (msa pair : tensor float) : result (tensor float * tensor float) :=
  '(B, N, L) <- unpack3 (firstn 3 (shape msa)) ;;
  norm_node <- submodule self "norm_node" ;;
  msa <- call norm_node msa ;;
  norm_edge <- submodule self "norm_edge" ;;
  pair <- call norm_edge pair ;;
  encoder_seq <- submodule self "encoder_seq" ;;
  w <- call encoder_seq msa ;;
  w <- reshape w [Z.of_nat B; Z.of_nat L; 1%Z; Z.of_nat N] ;;
  w_seq <- permute fzero w [0; 3; 1; 2] ;;
  msa <- binop fzero fzero fmul w_seq msa ;;
  msa <- sum_dim msa 1 ;;
  node <- cat_last fzero msa seq1hot ;;
  embed_x <- submodule self "embed_x" ;;
  node <- call embed_x node ;;
  seqsep <- get_seqsep idx ;;
  pair <- cat_last fzero pair seqsep ;;
  embed_e <- submodule self "embed_e" ;;
  pair <- call embed_e pair ;;
  Ok (node, pair).

End Forward.

(** The shapes the layers of RoseTTAFold's [Transformer.py] produce:
    [LayerNorm(d)] normalises over a last axis of size [d];
    [SequenceWeight(d, heads)] maps an MSA (B, N, L, d) to attention
    weights (B, L, heads, 1, N) over its N >= 1 sequences.  A
    [TransformerConv] that takes the graphs of its contract and no others.
    CUDA is not available. *)
Definition reference_externals : externals :=
  {| LayerNorm_shape := fun d sh =>
       match rev sh with
       | k :: _ => if k =? d then Some sh else None
       | [] => None
       end;
     SequenceWeight_shape := fun d heads sh =>
       match sh with
       | [B; N; L; k] =>
           if (k =? d) && (0 <? N) then Some [B; L; heads; 1; N] else None
       | _ => None
       end;
     TransformerConv_shape := fun i o h e shx e_idx she =>
       match shx, shape e_idx, she with
       | [n; c], [2; E], [E'; ce] =>
           if (0 <? h * o) && (c =? i) && (E' =? E) && (ce =? e)
           then if forallb (fun v => (0 <=? v)%Z && (v <? Z.of_nat n)%Z) (data e_idx)
                then Ok [n; h * o]
                else Raise (IndexError "index out of range in self")
           else Raise (RuntimeError "shapes cannot be multiplied")
       | _, _, _ => Raise (RuntimeError "shapes cannot be multiplied")
       end;
     rt := {| cuda_is_available := false |} |}.

(** Weights that make every layer compute zero. *)
Definition zero_weights : weights :=
  {| w_norm_node := fun _ _ => fzero;
     w_norm_edge := fun _ _ => fzero;
     w_encoder_seq := fun _ _ => fzero;
     w_embed_x := fun _ _ => fzero;
     w_embed_e := fun _ _ => fzero;
     w_TConv := fun _ _ _ _ _ => fzero;
     w_LNorm := fun _ _ _ => fzero;
     w_Linear := fun _ _ _ => fzero;
     w_get_xyz := fun _ _ => fzero |}.

(** A tensor of zeros: [torch.zeros(sh, device=dev)]. *)
Definition zeros (sh : list nat) (dev : Device.device) : tensor float :=
  tabulate sh dev (fun _ => fzero).

(** The claim that neither [make_graph] nor [forward] moves anything to
    another device. *)
Definition moves_nothing (ext : externals) : Prop :=
  (forall node idx emb G,
      make_graph node idx emb = Ok G ->
      device (x G) = device node /\ device (edge_attr G) = device emb) /\
  (forall self seq1hot idx msa pair self' xyz,
      forward ext self seq1hot idx msa pair = Ok (self', xyz) ->
      module_parameters self' = module_parameters self).

End InitStrGenerator.

(** ** lie_learn/setup.py *)

Module Setup.

(** [os.path.sep] and [os.path.extsep] on a POSIX system. *)
Definition sep : ascii := "/"%char.
Definition extsep : ascii := "."%char.

(** [s.split(c)] and [c.join(parts)] for a one-character [c]. *)
Fixpoint split (c : ascii) (s : string) : list string :=
  match s with
  | EmptyString => [EmptyString]
  | String a s' =>
      if Ascii.eqb a c then EmptyString :: split c s'
      else match split c s' with
           | h :: t => String a h :: t
           | [] => [String a EmptyString]
           end
  end.

Fixpoint join (c : ascii) (parts : list string) : string :=
  match parts with
  | [] => EmptyString
  | [p] => p
  | p :: rest => (p ++ String c (join c rest))%string
  end.

(** [s.replace(old, new)] for one-character strings. *)
Fixpoint replace (old new : ascii) (s : string) : string :=
  match s with
  | EmptyString => EmptyString
  | String a s' => String (if Ascii.eqb a old then new else a) (replace old new s')
  end.

(** [s.rfind(c)]: the last position of [c] in [s], [None] for Python's -1.
    [i] is the position of the head of [s]. *)
Fixpoint rfind_from (c : ascii) (s : string) (i : nat) (last : option nat)
    : option nat :=
  match s with
  | EmptyString => last
  | String a s' => rfind_from c s' (S i) (if Ascii.eqb a c then Some i else last)
  end.

Definition rfind (c : ascii) (s : string) : option nat := rfind_from c s 0 None.

(** [os.path.splitext(p)]: the extension starts at the last dot of the
    last component, unless only dots come before it in that component. *)
Definition splitext (p : string) : string * string :=
  match rfind extsep p with
  | None => (p, EmptyString)
  | Some dotIndex =>
      let filenameIndex := match rfind sep p with
                           | Some sepIndex => S sepIndex
                           | None => 0
                           end in
      if (filenameIndex <=? dotIndex)
         && existsb (fun k => match String.get k p with
                              | Some a => negb (Ascii.eqb a extsep)
                              | None => false
                              end)
                    (seq filenameIndex (dotIndex - filenameIndex))
      then (String.substring 0 dotIndex p,
            String.substring dotIndex (String.length p - dotIndex) p)
      else (p, EmptyString)
  end.

(** [os.path.normpath] on the components of an absolute path: empty
    components and [.] are dropped, [..] drops the component before it. *)
Fixpoint normpath_rev (done : list string) (comps : list string) : list string :=
  match comps with
  | [] => rev done
  | c :: rest =>
      if String.eqb c "" || String.eqb c "." then normpath_rev done rest
      else if String.eqb c ".." then normpath_rev (tl done) rest
      else normpath_rev (c :: done) rest
  end.

(** The components of [os.path.abspath(p)] for a relative path [p], in the
    working directory with components [cwd]. *)
Definition abspath (cwd : list string) (p : string) : list string :=
  normpath_rev [] (cwd ++ split sep p).

Fixpoint common_prefix_length (a b : list string) : nat :=
  match a, b with
  | x :: a', y :: b' => if String.eqb x y then S (common_prefix_length a' b') else 0
  | _, _ => 0
  end.

(** [os.path.relpath(path, start)]. *)
Definition relpath (cwd : list string) (path start : string) : string :=
  let start_list := abspath cwd start in
  let path_list := abspath cwd path in
  let i := common_prefix_length start_list path_list in
  let rel_list := repeat ".." (length start_list - i) ++ skipn i path_list in
  match rel_list with
  | [] => "."
  | _ => join sep rel_list
  end.

(** [setuptools.Extension]. *)
Record Extension : Type := {
  name : string;
  sources : list string;
  include_dirs : list string;
  libraries : list string;
  extra_compile_args : list string;
  extra_link_args : list string
}.

Section Build.

(** The working directory of the build, [np.get_include()], and the list
    [glob.glob("lie_learn/**/*.pyx", recursive=True)] returns. *)
Variable cwd : list string.
Variable numpy_include : string.
Variable pyx_files : list string.

Definition extension (pyx_file : string) : Extension :=
  {| name := ("lie_learn."
              ++ replace sep "."%char
                   (fst (splitext (relpath cwd pyx_file "lie_learn"))))%string;
     sources := [pyx_file];
     include_dirs := [numpy_include];
     libraries := ["lapack"; "blas"];
     extra_compile_args :=
       ["-O3"; "-DACCELERATE_NEW_LAPACK"; "-mmacosx-version-min=13.3";
        "-DNPY_NO_DEPRECATED_API=NPY_1_7_API_VERSION"];
     extra_link_args :=
       ["-framework"; "Accelerate"; "-mmacosx-version-min=13.3";
        "-Wl,-rpath,/opt/miniconda3/envs/RoseTTAFold-OSX-ARM64/lib"] |}.

(** [extensions = [Extension(...) for pyx_file in pyx_files]]. *)
Definition extensions : list Extension := map extension pyx_files.

End Build.

(** A name of a directory entry: not empty, not [.] or [..], without a
    separator. *)
Definition valid_name (c : string) : Prop :=
  c <> "" /\ c <> "." /\ c <> ".." /\ split sep c = [c].

(** The path [glob] gives for the file [stem.pyx] in the directory
    [lie_learn/dirs...]. *)
Definition pyx_path (dirs : list string) (stem : string) : string :=
  join sep ("lie_learn" :: dirs ++ [(stem ++ ".pyx")%string]).

End Setup.

(** ** The residue pairs [make_graph] links *)

Module Pairs.

Import Torch.

(** The triple (b, i, j) is connected when [sep[b, i, j] > 0] holds as
    [make_graph] computes it: the 64-bit absolute value of the 64-bit
    difference [idx[b, j] - idx[b, i]] is positive. *)
Definition connected (idx : tensor Z) (ix : list nat) : bool :=
  Z.ltb 0 (int64_abs (int64_sub (get 0%Z idx [nth 0 ix 0; nth 2 ix 0])
                                (get 0%Z idx [nth 0 ix 0; nth 1 ix 0]))).

(** The connected triples of a batch of [B] chains of [L] residues, in
    row-major order. *)
Definition connected_pairs (idx : tensor Z) (B L : nat) : list (list nat) :=
  List.filter (connected idx) (indices [B; L; L]).

(** Residue indices that are 64-bit integers. *)
Definition int64_indices (idx : tensor Z) (B L : nat) : Prop :=
  forall b i, b < B -> i < L -> is_int64 (get 0%Z idx [b; i]).

(** Residue indices whose differences within a chain are 64-bit integers
    other than -2^63 (as are the differences of indices that are not
    negative). *)
Definition separations_fit (idx : tensor Z) (B L : nat) : Prop :=
  forall b i j, b < B -> i < L -> j < L ->
    (Z.abs (get 0%Z idx [b; j] - get 0%Z idx [b; i]) < 2 ^ 63)%Z.

(** No two residue indices of a chain are exactly 2^63 apart. *)
Definition no_extreme_separation (idx : tensor Z) (B L : nat) : Prop :=
  forall b i j, b < B -> i < L -> j < L ->
    Z.abs (get 0%Z idx [b; j] - get 0%Z idx [b; i]) <> (2 ^ 63)%Z.

(** The triple (b, i, j) is linked when residues [i] and [j] of batch element
    [b] carry different residue indices. *)
Definition linked (idx : tensor Z) (ix : list nat) : bool :=
  negb (Z.eqb (get 0%Z idx [nth 0 ix 0; nth 1 ix 0])
              (get 0%Z idx [nth 0 ix 0; nth 2 ix 0])).

(** The linked triples of a batch of [B] chains of [L] residues, in
    row-major order. *)
Definition linked_pairs (idx : tensor Z) (B L : nat) : list (list nat) :=
  List.filter (linked idx) (indices [B; L; L]).

(** Residue indices that are pairwise different within every chain. *)
Definition distinct_indices (idx : tensor Z) (B L : nat) : Prop :=
  forall b i j, b < B -> i < L -> j < L ->
    get 0%Z idx [b; i] = get 0%Z idx [b; j] -> i = j.

End Pairs.

(** ** Failures of the tensor framework *)

Module Failures.

Import Device Torch.


End Failures.

(** * Properties *)

(** ** Facts about the result type *)

Lemma bind_Ok_inv {A B : Type} (c : result A) (k : A -> result B) (b : B) :
  bind c k = Ok b -> exists a, c = Ok a /\ k a = Ok b.
Proof.
  destruct c as [a | e]; simpl; intros H; [ eauto | discriminate ].
Qed.

(** ** The device helpers *)

Module HelperFacts.

Import Device Decorators.

(** C2.  [fallback_to_cpu_if_mps] looks at the device type only: an MPS
    device gives the CPU device, any other device is returned as it is. *)
Theorem fallback_to_cpu_if_mps_branches (d : device) :
  (type d = "mps" -> fallback_to_cpu_if_mps d = Ok cpu) /\
  (type d <> "mps" -> fallback_to_cpu_if_mps d = Ok d).
Proof.
  unfold fallback_to_cpu_if_mps. split; intros H.
  - now rewrite (proj2 (String.eqb_eq _ _) H).
  - now rewrite (proj2 (String.eqb_neq _ _) H).
Qed.

(** C2, on the device [mps:0] and on [cuda:0]. *)
Lemma fallback_to_cpu_if_mps_branches_witness :
  fallback_to_cpu_if_mps (mk_device "mps" (Some 0)) = Ok cpu /\
  fallback_to_cpu_if_mps cuda0 = Ok cuda0.
Proof.
  split.
  - apply (proj1 (fallback_to_cpu_if_mps_branches (mk_device "mps" (Some 0)))).
    reflexivity.
  - apply (proj2 (fallback_to_cpu_if_mps_branches cuda0)). discriminate.
Defined.

(** C10.  [fallback_to_cpu_if_mps] is idempotent and never returns an MPS
    device. *)
Theorem fallback_to_cpu_if_mps_idempotent (d : device) :
  exists d', fallback_to_cpu_if_mps d = Ok d' /\
             fallback_to_cpu_if_mps d' = Ok d' /\
             type d' <> "mps".
Proof.
  unfold fallback_to_cpu_if_mps.
  destruct (String.eqb (type d) "mps") eqn:Hty.
  - exists cpu. split; [ reflexivity | ]. split; [ reflexivity | discriminate ].
  - exists d. rewrite Hty. split; [ reflexivity | ].
    split; [ reflexivity | now apply String.eqb_neq ].
Qed.

(** C3, as the code has it.  The decorator looks at
    [torch.cuda.is_available()], not at a device: when CUDA is available the
    function comes back wrapped in [autocast(enabled)], otherwise it comes
    back as it is; either way calling the result is calling the function. *)
Theorem cuda_amp_autocast_branches {A B : Type} (rt : runtime) (enabled : bool)
    (func : callable A B) :
  (cuda_is_available rt = true ->
     cuda_amp_autocast rt enabled func = Autocast enabled func) /\
  (cuda_is_available rt = false -> cuda_amp_autocast rt enabled func = func) /\
  (forall a, call (cuda_amp_autocast rt enabled func) a = call func a).
Proof.
  unfold cuda_amp_autocast.
  destruct (cuda_is_available rt); repeat split; try discriminate; reflexivity.
Qed.

(** C3, with and without CUDA. *)
Lemma cuda_amp_autocast_branches_witness :
  cuda_amp_autocast {| cuda_is_available := true |} true (Plain S)
  = Autocast true (Plain S) /\
  cuda_amp_autocast {| cuda_is_available := false |} true (Plain S) = Plain S.
Proof.
  split.
  - apply (proj1 (cuda_amp_autocast_branches {| cuda_is_available := true |} true (Plain S))).
    reflexivity.
  - apply (proj1 (proj2 (cuda_amp_autocast_branches {| cuda_is_available := false |}
                           true (Plain S)))).
    reflexivity.
Defined.

(** C3, as the specification states it, fails: with CUDA available the
    function is wrapped whatever the device type ([cpu] here), and without
    CUDA it is not wrapped even for the device type [cuda]. *)
Lemma cuda_amp_autocast_ignores_device_type :
  cuda_amp_autocast {| cuda_is_available := true |} true (Plain S)
  <> autocast_by_device_type (type cpu) true (Plain S) /\
  cuda_amp_autocast {| cuda_is_available := false |} true (Plain S)
  <> autocast_by_device_type (type cuda0) true (Plain S).
Proof. split; discriminate. Qed.


End HelperFacts.

(** ** Facts about tensors *)

Module TorchFacts.

Import Device Torch.

Lemma length_indices (sh : list nat) : length (indices sh) = numel sh.
Proof.
  induction sh as [| n sh IH]; simpl; [ reflexivity | ].
  generalize 0 as s. induction n as [| n IHn]; intros s; simpl; [ reflexivity | ].
  rewrite length_app, length_map, IH, IHn. reflexivity.
Qed.

Lemma tabulate_well_formed {A : Type} sh dev (f : list nat -> A) :
  well_formed (tabulate sh dev f).
Proof. unfold well_formed; simpl. now rewrite length_map, length_indices. Qed.

Lemma in_indices (sh ix : list nat) : In ix (indices sh) <-> in_range ix sh.
Proof.
  revert ix. induction sh as [| n sh IH]; intros ix; simpl.
  - split.
    + intros [<- | []]. constructor.
    + intros H; inversion H; now left.
  - rewrite in_flat_map. split.
    + intros (i & Hi & Hin). apply in_map_iff in Hin as (ix' & <- & Hix').
      apply in_seq in Hi. constructor; [ lia | now apply IH ].
    + intros H. inversion H as [| i n' ix' sh' Hlt Hrest]; subst.
      exists i. split; [ apply in_seq; lia | ].
      apply in_map. now apply IH.
Qed.

Lemma offset_lt (sh ix : list nat) : in_range ix sh -> offset sh ix < numel sh.
Proof.
  intros H. induction H as [| i n ix sh Hlt _ IH]; simpl; [ lia | nia ].
Qed.

Lemma nth_indices (sh ix : list nat) (d : list nat) :
  in_range ix sh -> nth (offset sh ix) (indices sh) d = ix.
Proof.
  intros H. induction H as [| i n ix sh Hlt Hr IH]; simpl; [ reflexivity | ].
  assert (Hblock : forall m s k, k < m ->
            nth (k * numel sh + offset sh ix)
                (flat_map (fun i0 => map (cons i0) (indices sh)) (seq s m)) d
            = (s + k) :: ix).
  { induction m as [| m IHm]; intros s k Hk; [ lia | ]. simpl.
    pose proof (offset_lt _ _ Hr) as Ho.
    destruct k as [| k].
    - rewrite app_nth1 by (rewrite length_map, length_indices; simpl; lia).
      simpl. rewrite nth_indep with (d' := cons s d)
        by (rewrite length_map, length_indices; lia).
      rewrite map_nth, IH. f_equal. lia.
    - rewrite app_nth2 by (rewrite length_map, length_indices; simpl; lia).
      rewrite length_map, length_indices.
      replace (S k * numel sh + offset sh ix - numel sh)
        with (k * numel sh + offset sh ix) by (simpl; lia).
      rewrite IHm by lia. f_equal. lia. }
  now rewrite (Hblock n 0 i Hlt).
Qed.

(** Reading a tabulated tensor in range gives the tabulated function. *)
Lemma get_tabulate {A : Type} (dflt : A) sh dev (f : list nat -> A) ix :
  in_range ix sh -> get dflt (tabulate sh dev f) ix = f ix.
Proof.
  intros H. unfold get, tabulate; simpl.
  rewrite nth_indep with (d' := f ix)
    by (rewrite length_map, length_indices; now apply offset_lt).
  now rewrite map_nth, nth_indices.
Qed.

Lemma device_eqb_refl (d : Device.device) : device_eqb d d = true.
Proof.
  unfold device_eqb. rewrite String.eqb_refl. simpl.
  destruct (index d); [ apply Nat.eqb_refl | reflexivity ].
Qed.

Lemma get_tmap {A B : Type} (da : A) (db : B) (f : A -> B) (t : tensor A) ix :
  offset (shape t) ix < length (data t) ->
  get db (tmap f t) ix = f (get da t ix).
Proof.
  intros H. unfold get, tmap; simpl.
  rewrite nth_indep with (d' := f da) by now rewrite length_map.
  apply map_nth.
Qed.

Lemma broadcast_rev_same (sh : list nat) : broadcast_rev sh sh = Some sh.
Proof.
  induction sh as [| n sh IH]; simpl; [ reflexivity | ].
  now rewrite IH, Nat.eqb_refl.
Qed.

Lemma broadcast_shapes_same (sh : list nat) : broadcast_shapes sh sh = Some sh.
Proof.
  unfold broadcast_shapes. rewrite broadcast_rev_same. simpl.
  now rewrite rev_involutive.
Qed.

(** Against an operand of the output's own shape, broadcasting reads the
    operand at the output index. *)
Lemma offset_bindex_same (sh ix : list nat) :
  in_range ix sh -> offset sh (bindex sh ix) = offset sh ix.
Proof.
  intros H. unfold bindex.
  rewrite (Forall2_length H), Nat.sub_diag. simpl.
  induction H as [| i n ix sh Hlt _ IH]; simpl; [ reflexivity | ].
  rewrite IH. destruct (Nat.eqb_spec n 1); [ | reflexivity ].
  subst n. now replace i with 0 by lia.
Qed.

Lemma get_bindex_same {A : Type} (dflt : A) (t : tensor A) sh ix :
  shape t = sh -> in_range ix sh ->
  get dflt t (bindex sh ix) = get dflt t ix.
Proof. intros <- H. unfold get. now rewrite offset_bindex_same. Qed.

(** [idx[:,None,:] - idx[:,:,None]] broadcasts to (B, L, L). *)
Lemma broadcast_row_col (B L : nat) :
  broadcast_shapes [B; 1; L] [B; L; 1] = Some [B; L; L].
Proof.
  unfold broadcast_shapes.
  destruct L as [| [| L']]; simpl; rewrite ?Nat.eqb_refl; reflexivity.
Qed.

Lemma get_row {A : Type} (dflt : A) (t : tensor A) dev B L b i j :
  shape t = [B; L] -> b < B -> j < L ->
  get dflt (mk_tensor [B; 1; L] dev (data t)) (bindex [B; 1; L] [b; i; j])
  = get dflt t [b; j].
Proof.
  intros Hs Hb Hj. unfold get. rewrite Hs. simpl.
  destruct (Nat.eqb_spec B 1), (Nat.eqb_spec L 1); f_equal; nia.
Qed.

Lemma get_col {A : Type} (dflt : A) (t : tensor A) dev B L b i j :
  shape t = [B; L] -> b < B -> i < L ->
  get dflt (mk_tensor [B; L; 1] dev (data t)) (bindex [B; L; 1] [b; i; j])
  = get dflt t [b; i].
Proof.
  intros Hs Hb Hi. unfold get. rewrite Hs. simpl.
  destruct (Nat.eqb_spec B 1), (Nat.eqb_spec L 1); f_equal; nia.
Qed.

Lemma subscript_row {A : Type} (t : tensor A) (B L : nat) :
  shape t = [B; L] ->
  subscript_None 2 1 t = Ok (mk_tensor [B; 1; L] (device t) (data t)).
Proof. intros Hs. unfold subscript_None. now rewrite Hs. Qed.

Lemma subscript_col {A : Type} (t : tensor A) (B L : nat) :
  shape t = [B; L] ->
  subscript_None 2 2 t = Ok (mk_tensor [B; L; 1] (device t) (data t)).
Proof. intros Hs. unfold subscript_None. now rewrite Hs. Qed.

(** The pairwise difference both [get_seqsep] and [make_graph] start
    from: element (b, i, j) is [idx[b, j] - idx[b, i]]. *)
Lemma pair_diff_ok (sub : Z -> Z -> Z) (idx : tensor Z) (B L : nat) :
  shape idx = [B; L] ->
  exists idx_row idx_col sep,
    subscript_None 2 1 idx = Ok idx_row /\
    subscript_None 2 2 idx = Ok idx_col /\
    binop 0%Z 0%Z sub idx_row idx_col = Ok sep /\
    shape sep = [B; L; L] /\ device sep = device idx /\ well_formed sep /\
    forall b i j, b < B -> i < L -> j < L ->
      get 0%Z sep [b; i; j] = sub (get 0%Z idx [b; j]) (get 0%Z idx [b; i]).
Proof.
  intros Hs. rewrite (subscript_row _ B L Hs), (subscript_col _ B L Hs).
  do 3 eexists. split; [ reflexivity | ]. split; [ reflexivity | ].
  unfold binop. cbn [shape device].
  rewrite device_eqb_refl, broadcast_row_col. cbn [negb].
  split; [ reflexivity | ]. split; [ reflexivity | ]. split; [ reflexivity | ].
  split; [ apply tabulate_well_formed | ].
  intros b i j Hb Hi Hj.
  rewrite get_tabulate by (repeat constructor; assumption).
  now rewrite (get_row _ _ _ B L), (get_col _ _ _ B L).
Qed.

(** 64-bit arithmetic. *)
Ltac int64 :=
  unfold int64_abs, int64_sub, int64_wrap, is_int64 in *;
  change (2 ^ 64)%Z with 18446744073709551616%Z in *;
  change (2 ^ 63)%Z with 9223372036854775808%Z in *;
  Z.div_mod_to_equations; lia.

Lemma int64_wrap_fits (z : Z) : is_int64 z -> int64_wrap z = z.
Proof. intros H. int64. Qed.

Lemma int64_wrap_range (z : Z) : is_int64 (int64_wrap z).
Proof. int64. Qed.

Lemma int64_sub_fits (a b : Z) :
  (Z.abs (a - b) < 2 ^ 63)%Z -> int64_sub a b = (a - b)%Z.
Proof. intros H. int64. Qed.

Lemma int64_abs_fits (z : Z) :
  (Z.abs z < 2 ^ 63)%Z -> int64_abs z = Z.abs z.
Proof. intros H. int64. Qed.

(** Swapping the operands of a difference changes its sign, unless the
    difference is -2^63, which stays. *)
Lemma int64_sub_swap (a b : Z) :
  int64_sub a b <> (- 2 ^ 63)%Z -> int64_sub b a = (- int64_sub a b)%Z.
Proof. intros H. int64. Qed.

Lemma int64_sub_swap_min (a b : Z) :
  int64_sub a b = (- 2 ^ 63)%Z -> int64_sub b a = (- 2 ^ 63)%Z.
Proof. intros H. int64. Qed.

Lemma int64_sub_diag (a : Z) : int64_sub a a = 0%Z.
Proof. unfold int64_sub. rewrite Z.sub_diag. reflexivity. Qed.

Lemma int64_sub_zero (a b : Z) :
  is_int64 a -> is_int64 b -> int64_sub a b = 0%Z -> a = b.
Proof. intros Ha Hb H. int64. Qed.

(** Two 64-bit integers whose difference wraps to -2^63 are 2^63 apart. *)
Lemma int64_sub_min (a b : Z) :
  is_int64 a -> is_int64 b ->
  int64_sub a b = (- 2 ^ 63)%Z -> Z.abs (a - b) = (2 ^ 63)%Z.
Proof. intros Ha Hb H. int64. Qed.

(** The absolute value of a 64-bit integer is positive unless the integer
    is 0 or -2^63. *)
Lemma int64_abs_pos (z : Z) :
  is_int64 z -> ((0 < int64_abs z)%Z <-> z <> 0%Z /\ z <> (- 2 ^ 63)%Z).
Proof. intros H. split; [ intros H0; split; intros -> | intros [H0 H1] ]; int64. Qed.

Lemma no_data_to_copy_off_meta (src dev : Device.device) :
  type src <> "meta" -> no_data_to_copy src dev = false.
Proof.
  intros H. unfold no_data_to_copy.
  now rewrite (proj2 (String.eqb_neq _ _) H).
Qed.

Lemma to_off_meta {A : Type} (t : tensor A) (dev : Device.device) :
  type (device t) <> "meta" -> to t dev = Ok (moved t dev).
Proof.
  intros H. unfold to. now rewrite no_data_to_copy_off_meta.
Qed.

Lemma to_inv {A : Type} (t t' : tensor A) (dev : Device.device) :
  to t dev = Ok t' -> t' = moved t dev.
Proof.
  unfold to. destruct (no_data_to_copy _ _); [ discriminate | ].
  intros H. now injection H as <-.
Qed.

Lemma where_run (cond : tensor bool) :
  type (device cond) <> "meta" ->
  where_ cond
  = Ok (map (fun k =>
               mk_tensor [length (List.filter (get false cond) (indices (shape cond)))]
                         (device cond)
                         (map (fun ix => Z.of_nat (nth k ix 0))
                              (List.filter (get false cond) (indices (shape cond)))))
            (seq 0 (length (shape cond)))).
Proof.
  intros H. unfold where_. now rewrite (proj2 (String.eqb_neq _ _) H).
Qed.

Lemma where_meta (cond : tensor bool) :
  type (device cond) = "meta" ->
  exists msg, where_ cond = Raise (NotImplementedError msg).
Proof.
  intros H. unfold where_. rewrite (proj2 (String.eqb_eq _ _) H). eauto.
Qed.

Lemma tmap_well_formed {A B : Type} (f : A -> B) (t : tensor A) :
  well_formed t -> well_formed (tmap f t).
Proof. unfold well_formed; simpl. now rewrite length_map. Qed.

Lemma get_tmap_wf {A B : Type} (da : A) (db : B) (f : A -> B) (t : tensor A) ix :
  well_formed t -> in_range ix (shape t) ->
  get db (tmap f t) ix = f (get da t ix).
Proof.
  intros Hwf Hin. apply get_tmap. rewrite Hwf. now apply offset_lt.
Qed.

Lemma numel_app (a b : list nat) : numel (a ++ b) = numel a * numel b.
Proof. induction a as [| n a IH]; simpl; [ lia | rewrite IH; lia ]. Qed.

Lemma get_unsqueeze_last {A : Type} (dflt : A) (t : tensor A) ix :
  in_range ix (shape t) ->
  get dflt (unsqueeze_last t) (ix ++ [0]) = get dflt t ix.
Proof.
  intros H. unfold get, unsqueeze_last; simpl. f_equal.
  induction H as [| i n ix sh _ _ IH]; simpl; [ reflexivity | ].
  rewrite IH, numel_app. simpl. lia.
Qed.

Lemma indices_1d (E : nat) : indices [E] = map (fun k => [k]) (seq 0 E).
Proof.
  simpl. generalize 0 as s.
  induction E as [| E IH]; intros s; simpl; [ reflexivity | now rewrite IH ].
Qed.

Lemma sequence_map_Ok {A B : Type} (f : A -> result B) (g : A -> B) (l : list A) :
  (forall a, In a l -> f a = Ok (g a)) ->
  sequence (map f l) = Ok (map g l).
Proof.
  induction l as [| a l IH]; intros H; simpl; [ reflexivity | ].
  rewrite (H a) by now left. simpl.
  rewrite IH by (intros; apply H; now right). reflexivity.
Qed.

Lemma norm_index_of_nat (n k : nat) :
  k < n -> norm_index n (Z.of_nat k) = Ok k.
Proof.
  intros H. unfold norm_index.
  destruct (Z.leb_spec 0 (Z.of_nat k)); [ | lia ].
  destruct (Z.ltb_spec (Z.of_nat k) (Z.of_nat n)); [ | lia ].
  simpl. now rewrite Nat2Z.id.
Qed.

(** [t.reshape(m, -1)] for a positive [m] that divides the size. *)
Lemma reshape_rows {A : Type} (t : tensor A) (m : nat) :
  0 < m -> numel (shape t) mod m = 0 ->
  reshape t [Z.of_nat m; (-1)%Z]
  = Ok (mk_tensor [m; numel (shape t) / m] (device t) (data t)).
Proof.
  intros Hm Hdiv. unfold reshape.
  assert (Hne : (-1 =? Z.of_nat m)%Z = false) by (apply Z.eqb_neq; lia).
  cbn [List.filter]. rewrite Hne. cbn [negb].
  change ((-1 =? -1)%Z) with true. cbn [negb existsb map].
  destruct (Z.ltb_spec (Z.of_nat m) 0) as [Hlt | _]; [ lia | ].
  cbn [orb]. rewrite Nat2Z.id. cbn [numel fold_right].
  rewrite Nat.mul_1_r.
  destruct (Nat.ltb_spec 0 m) as [_ | Hle]; [ | lia ].
  rewrite Hdiv. cbn [andb Nat.eqb]. now rewrite Hne.
Qed.

Lemma map_nth_seq {X Y : Type} (F : X -> Y) (G : nat -> Y) (l : list X) :
  (forall k x0, k < length l -> G k = F (nth k l x0)) ->
  map G (seq 0 (length l)) = map F l.
Proof.
  intros H. destruct l as [| x0 l']; [ reflexivity | ].
  set (l := x0 :: l') in *.
  apply nth_ext with (d := G 0) (d' := F x0).
  - now rewrite !length_map, length_seq.
  - intros n Hn. rewrite length_map, length_seq in Hn.
    rewrite map_nth, seq_nth by exact Hn. rewrite Nat.add_0_l.
    rewrite (H n x0 Hn). symmetry. apply map_nth.
Qed.

(** An element-wise operator on two one-dimensional tensors of one
    length. *)
Lemma binop_1d {X A B C : Type} (da : A) (db : B) (f : A -> B -> C)
    (l : list X) (ga : X -> A) (gb : X -> B) (dev : Device.device) :
  binop da db f (mk_tensor [length l] dev (map ga l))
                (mk_tensor [length l] dev (map gb l))
  = Ok (mk_tensor [length l] dev (map (fun x => f (ga x) (gb x)) l)).
Proof.
  unfold binop. cbn [shape device].
  rewrite device_eqb_refl, broadcast_shapes_same. cbn [negb].
  unfold tabulate. do 2 f_equal. rewrite indices_1d, map_map.
  apply map_nth_seq. intros k x0 Hk.
  unfold get, bindex; cbn [shape data length skipn combine map offset numel fold_right Nat.sub].
  assert (Hoff : (if length l =? 1 then 0 else k) * 1 + 0 = k).
  { destruct (Nat.eqb_spec (length l) 1); lia. }
  rewrite Hoff.
  rewrite nth_indep with (d' := ga x0) by now rewrite length_map.
  rewrite (nth_indep (map gb l) db (gb x0)) by now rewrite length_map.
  now rewrite !map_nth.
Qed.

Lemma combine_map3 {X A B C : Type} (ga : X -> A) (gb : X -> B) (gc : X -> C)
    (l : list X) :
  combine (map ga l) (combine (map gb l) (map gc l))
  = map (fun x => (ga x, (gb x, gc x))) l.
Proof. induction l as [| x l IH]; simpl; [ reflexivity | now rewrite IH ]. Qed.

(** Shapes and devices of the results of the framework operations. *)

Lemma binop_shape {A B C : Type} (da : A) (db : B) (f : A -> B -> C)
    (a : tensor A) (b : tensor B) (sh : list nat) :
  device a = device b ->
  broadcast_shapes (shape a) (shape b) = Some sh ->
  exists c, binop da db f a b = Ok c /\ shape c = sh /\ device c = device a.
Proof.
  intros Hd Hb. unfold binop.
  rewrite Hd, device_eqb_refl, Hb. cbn [negb].
  eexists. split; [ reflexivity | ]. now split.
Qed.

Lemma filter_infer_of_nat (sh : list nat) :
  List.filter (Z.eqb (-1)) (map Z.of_nat sh) = []
  /\ List.filter (fun d => negb (Z.eqb (-1) d)) (map Z.of_nat sh) = map Z.of_nat sh
  /\ existsb (fun d => Z.ltb d 0) (map Z.of_nat sh) = false
  /\ map Z.to_nat (map Z.of_nat sh) = sh.
Proof.
  induction sh as [| n sh (IH1 & IH2 & IH3 & IH4)]; [ now repeat split | ].
  cbn [map List.filter existsb].
  assert (Hne : (-1 =? Z.of_nat n)%Z = false) by (apply Z.eqb_neq; lia).
  assert (Hlt : (Z.of_nat n <? 0)%Z = false) by (apply Z.ltb_ge; lia).
  rewrite Hne, Hlt, IH1, IH2, IH3, IH4, Nat2Z.id. now repeat split.
Qed.

(** [t.reshape(sh)] to a shape of the same size. *)
Lemma reshape_exact {A : Type} (t : tensor A) (sh : list nat) :
  numel (shape t) = numel sh ->
  reshape t (map Z.of_nat sh) = Ok (mk_tensor sh (device t) (data t)).
Proof.
  intros Hn. unfold reshape.
  destruct (filter_infer_of_nat sh) as (-> & -> & -> & ->).
  now rewrite Hn, Nat.eqb_refl.
Qed.

Lemma permute_shape {A : Type} (dflt : A) (t : tensor A) (dims : list nat) :
  is_permutation dims (length (shape t)) = true ->
  exists t', permute dflt t dims = Ok t' /\
             shape t' = map (fun d => nth d (shape t) 0) dims /\
             device t' = device t.
Proof.
  intros H. unfold permute. rewrite H.
  eexists. split; [ reflexivity | ]. now split.
Qed.

Lemma sum_dim_shape (t : tensor float) (d : nat) :
  d < length (shape t) ->
  exists t', sum_dim t d = Ok t' /\
             shape t' = firstn d (shape t) ++ skipn (S d) (shape t) /\
             device t' = device t.
Proof.
  intros H. unfold sum_dim.
  destruct (Nat.ltb_spec d (length (shape t))) as [_ | Hle]; [ | lia ].
  eexists. split; [ reflexivity | ]. now split.
Qed.

Lemma cat_last_shape {A : Type} (dflt : A) (a b : tensor A)
    (r : list nat) (la lb : nat) :
  device a = device b ->
  shape a = r ++ [la] -> shape b = r ++ [lb] ->
  exists c, cat_last dflt a b = Ok c /\ shape c = r ++ [la + lb] /\
            device c = device a.
Proof.
  intros Hd Ha Hb. unfold cat_last.
  rewrite Hd, device_eqb_refl, Ha, Hb, !rev_app_distr. cbn [negb rev app].
  destruct (list_eq_dec Nat.eq_dec (rev r) (rev r)) as [_ | Hne]; [ | congruence ].
  eexists. split; [ reflexivity | ].
  cbn [shape device]. now rewrite rev_involutive.
Qed.

Lemma broadcast_last_one (r : list nat) (D : nat) :
  broadcast_shapes (r ++ [1]) (r ++ [D]) = Some (r ++ [D]).
Proof.
  unfold broadcast_shapes. rewrite !rev_app_distr. cbn [rev app broadcast_rev].
  rewrite broadcast_rev_same.
  destruct D as [| [| D']]; cbn [Nat.eqb option_map rev];
    now rewrite rev_involutive.
Qed.

End TorchFacts.

(** ** get_seqsep *)

Module SeqsepFacts.

Import Device Torch InitStrGenerator Pairs TorchFacts.

Lemma clamp_bounds (v : R) : (0 <= clamp 0.0 5.5 v <= 5.5)%R.
Proof.
  unfold clamp, Rmin, Rmax.
  destruct (Rle_dec v 0.0); destruct (Rle_dec _ 5.5); lra.
Qed.

(** The value [get_seqsep] computes from one index difference. *)
Lemma get_seqsep_value (idx : tensor Z) (B L : nat) :
  shape idx = [B; L] ->
  exists seqsep,
    get_seqsep idx = Ok seqsep /\ shape seqsep = [B; L; L; 1] /\
    device seqsep = device idx /\ well_formed seqsep /\
    forall b i j, b < B -> i < L -> j < L ->
      let d := int64_sub (get 0%Z idx [b; j]) (get 0%Z idx [b; i]) in
      get fzero seqsep [b; i; j; 0]
      = fmul (Finite (IZR (Z.sgn d)))
             (fclamp 0.0 5.5 (flog (Finite (IZR (int64_abs d) + 1.0)))).
Proof.
  intros Hs. unfold get_seqsep.
  destruct (pair_diff_ok int64_sub idx B L Hs)
    as (idx_row & idx_col & sep & H1 & H2 & H3 & Hsh & Hdev & Hwf & Hget).
  rewrite H1; cbn [bind]. rewrite H2; cbn [bind]. rewrite H3; cbn [bind].
  unfold binop. cbn [shape device tmap].
  rewrite device_eqb_refl, Hsh, broadcast_shapes_same. cbn [negb bind].
  eexists. split; [ reflexivity | ].
  split; [ reflexivity | ]. split; [ exact Hdev | ].
  split.
  { unfold well_formed, unsqueeze_last, tabulate; cbn [data shape].
    rewrite numel_app, length_map, length_indices. simpl. lia. }
  intros b i j Hb Hi Hj.
  assert (Hin : in_range [b; i; j] [B; L; L]) by (repeat constructor; assumption).
  change [b; i; j; 0] with ([b; i; j] ++ [0]).
  rewrite get_unsqueeze_last by exact Hin.
  rewrite get_tabulate by exact Hin.
  rewrite !get_bindex_same by (exact Hin || exact Hsh).
  assert (Hin' : in_range [b; i; j] (shape sep)) by now rewrite Hsh.
  rewrite (get_tmap_wf 0%Z) by assumption.
  rewrite (get_tmap_wf fzero) by (repeat apply tmap_well_formed; assumption).
  rewrite (get_tmap_wf fzero) by (repeat apply tmap_well_formed; assumption).
  rewrite (get_tmap_wf 0%Z) by (repeat apply tmap_well_formed; assumption).
  rewrite (get_tmap_wf 0%Z) by assumption.
  now rewrite Hget.
Qed.

(** A separation other than -2^63 gives a finite entry: its sign times the
    clamped logarithm of its size plus one. *)
Lemma seqsep_entry_finite (d : Z) :
  is_int64 d -> d <> (- 2 ^ 63)%Z ->
  fmul (Finite (IZR (Z.sgn d)))
       (fclamp 0.0 5.5 (flog (Finite (IZR (int64_abs d) + 1.0))))
  = Finite (IZR (Z.sgn d) * clamp 0.0 5.5 (ln (IZR (Z.abs d) + 1.0))).
Proof.
  intros Hd Hne.
  assert (Habs : int64_abs d = Z.abs d) by (apply int64_abs_fits; int64).
  rewrite Habs.
  assert (H0 : (0 <= IZR (Z.abs d))%R) by (apply IZR_le; lia).
  unfold flog. destruct (Rlt_dec 0 (IZR (Z.abs d) + 1.0)) as [_ | Hn]; [ | lra ].
  reflexivity.
Qed.

(** The entry of a separation of -2^63, whose absolute value is negative. *)
Lemma seqsep_entry_nan :
  let d := (- 2 ^ 63)%Z in
  fmul (Finite (IZR (Z.sgn d)))
       (fclamp 0.0 5.5 (flog (Finite (IZR (int64_abs d) + 1.0))))
  = NaN.
Proof.
  intros d.
  assert (Habs : int64_abs d = (- 9223372036854775808)%Z) by (vm_compute; reflexivity).
  rewrite Habs. unfold flog.
  destruct (Rlt_dec 0 (IZR (- 9223372036854775808) + 1.0)) as [Hp | _]; [ lra | ].
  destruct (Rlt_dec (IZR (- 9223372036854775808) + 1.0) 0) as [_ | Hn]; [ | lra ].
  reflexivity.
Qed.

(** The entries of [get_seqsep] where the separation is not -2^63. *)
Lemma get_seqsep_finite (idx : tensor Z) (B L : nat) :
  shape idx = [B; L] ->
  exists seqsep,
    get_seqsep idx = Ok seqsep /\ shape seqsep = [B; L; L; 1] /\
    forall b i j, b < B -> i < L -> j < L ->
      let d := int64_sub (get 0%Z idx [b; j]) (get 0%Z idx [b; i]) in
      d <> (- 2 ^ 63)%Z ->
      get fzero seqsep [b; i; j; 0]
      = Finite (IZR (Z.sgn d) * clamp 0.0 5.5 (ln (IZR (Z.abs d) + 1.0))).
Proof.
  intros Hs.
  destruct (get_seqsep_value idx B L Hs) as (seqsep & Hrun & Hsh & _ & _ & Hval).
  exists seqsep. split; [ exact Hrun | ]. split; [ exact Hsh | ].
  intros b i j Hb Hi Hj d Hd. rewrite (Hval b i j Hb Hi Hj). fold d.
  apply seqsep_entry_finite; [ apply int64_wrap_range | exact Hd ].
Qed.

(** The separations of the indices 7, 9, 9 of one chain fit. *)
Lemma fit_7_9_9 : separations_fit (mk_tensor [1; 3] cpu [7; 9; 9]%Z) 1 3.
Proof.
  intros b i j Hb Hi Hj.
  destruct b as [| b]; [ | lia ].
  destruct i as [| [| [| i]]]; [ | | | lia ];
    (destruct j as [| [| [| j]]]; [ | | | lia ]); vm_compute; reflexivity.
Qed.

(** C5, as the code has it.  For a tensor of 64-bit residue indices of shape
    (B, L), off the [meta] device, in which no two indices of a chain are
    exactly 2^63 apart, [get_seqsep] returns a tensor of shape (B, L, L, 1)
    of finite numbers that is antisymmetric in the residue pair, zero
    wherever the two residue indices are equal, and bounded by 5.5 in
    absolute value. *)
Theorem get_seqsep_antisymmetric_bounded (idx : tensor Z) (B L : nat) :
  shape idx = [B; L] ->
  type (device idx) <> "meta" ->
  int64_indices idx B L ->
  no_extreme_separation idx B L ->
  exists seqsep,
    get_seqsep idx = Ok seqsep /\ shape seqsep = [B; L; L; 1] /\
    forall b i j, b < B -> i < L -> j < L ->
      exists v w : R,
        get fzero seqsep [b; i; j; 0] = Finite v /\
        get fzero seqsep [b; j; i; 0] = Finite w /\
        v = Ropp w /\
        (get 0%Z idx [b; i] = get 0%Z idx [b; j] -> v = 0%R) /\
        (-5.5 <= v <= 5.5)%R.
Proof.
  intros Hs _ Hint Hext.
  destruct (get_seqsep_finite idx B L Hs) as (seqsep & Hrun & Hsh & Hval).
  exists seqsep. split; [ exact Hrun | ]. split; [ exact Hsh | ].
  intros b i j Hb Hi Hj.
  set (p := get 0%Z idx [b; i]). set (q := get 0%Z idx [b; j]).
  assert (Hp : is_int64 p) by now apply Hint.
  assert (Hq : is_int64 q) by now apply Hint.
  assert (Hqp : int64_sub q p <> (- 2 ^ 63)%Z).
  { intros H. apply (Hext b i j Hb Hi Hj). fold p q. now apply int64_sub_min. }
  assert (Hpq : int64_sub p q = (- int64_sub q p)%Z) by now apply int64_sub_swap.
  assert (Hpq' : int64_sub p q <> (- 2 ^ 63)%Z).
  { intros H. apply Hqp. exact (int64_sub_swap_min p q H). }
  do 2 eexists.
  split; [ apply (Hval b i j Hb Hi Hj); exact Hqp | ].
  split; [ apply (Hval b j i Hb Hj Hi); exact Hpq' | ].
  fold p q. rewrite Hpq, Z.sgn_opp, Z.abs_opp, opp_IZR.
  pose proof (clamp_bounds (ln (IZR (Z.abs (int64_sub q p)) + 1.0))) as Hc.
  set (c := clamp 0.0 5.5 _) in *.
  split; [ lra | ]. split.
  - intros Heq. rewrite Heq, int64_sub_diag. simpl. lra.
  - destruct (Z.sgn_spec (int64_sub q p)) as [[_ ->] | [[_ ->] | [_ ->]]];
      simpl; lra.
Qed.

(** C5, at the indices 7, 9, 9 of one chain. *)
Lemma get_seqsep_antisymmetric_bounded_witness :
  exists seqsep,
    get_seqsep (mk_tensor [1; 3] cpu [7; 9; 9]%Z) = Ok seqsep /\
    shape seqsep = [1; 3; 3; 1] /\
    forall b i j, b < 1 -> i < 3 -> j < 3 ->
      exists v w : R,
        get fzero seqsep [b; i; j; 0] = Finite v /\
        get fzero seqsep [b; j; i; 0] = Finite w /\
        v = Ropp w /\
        (get 0%Z (mk_tensor [1; 3] cpu [7; 9; 9]%Z) [b; i]
         = get 0%Z (mk_tensor [1; 3] cpu [7; 9; 9]%Z) [b; j] -> v = 0%R) /\
        (-5.5 <= v <= 5.5)%R.
Proof.
  apply (get_seqsep_antisymmetric_bounded (mk_tensor [1; 3] cpu [7; 9; 9]%Z) 1 3).
  - reflexivity.
  - discriminate.
  - intros b i Hb Hi.
    destruct b as [| b]; [ | lia ].
    destruct i as [| [| [| i]]]; [ | | | lia ]; vm_compute; (split; [ discriminate | reflexivity ]).
  - intros b i j Hb Hi Hj.
    destruct b as [| b]; [ | lia ].
    destruct i as [| [| [| i]]]; [ | | | lia ];
      (destruct j as [| [| [| j]]]; [ | | | lia ]); vm_compute; discriminate.
Defined.

(** C5, as the specification states it, fails: two residue indices that are
    2^63 apart have the separation -2^63, whose absolute value is -2^63, and
    the logarithm of -2^63 + 1 is NaN; the entry is in no interval. *)
Lemma get_seqsep_nan_counterexample :
  let idx := mk_tensor [1; 2] cpu [0; - 2 ^ 63]%Z in
  shape idx = [1; 2] /\
  type (device idx) <> "meta" /\
  int64_indices idx 1 2 /\
  exists seqsep,
    get_seqsep idx = Ok seqsep /\
    get fzero seqsep [0; 0; 1; 0] = NaN /\
    get fzero seqsep [0; 1; 0; 0] = NaN.
Proof.
  intros idx. split; [ reflexivity | ]. split; [ discriminate | ]. split.
  { intros b i Hb Hi.
    destruct b as [| b]; [ | lia ].
    destruct i as [| [| i]]; [ | | lia ]; vm_compute; (split; [ discriminate | reflexivity ]). }
  destruct (get_seqsep_value idx 1 2 eq_refl) as (seqsep & Hrun & _ & _ & _ & Hval).
  exists seqsep. split; [ exact Hrun | ].
  split.
  - rewrite (Hval 0 0 1) by lia.
    replace (int64_sub (get 0%Z idx [0; 1]) (get 0%Z idx [0; 0])) with (- 2 ^ 63)%Z
      by (vm_compute; reflexivity).
    exact seqsep_entry_nan.
  - rewrite (Hval 0 1 0) by lia.
    replace (int64_sub (get 0%Z idx [0; 0]) (get 0%Z idx [0; 1])) with (- 2 ^ 63)%Z
      by (vm_compute; reflexivity).
    exact seqsep_entry_nan.
Qed.

End SeqsepFacts.

(** ** make_graph *)

Module GraphFacts.

Import Device Torch InitStrGenerator Pairs TorchFacts.

Lemma fallback_total (d : Device.device) :
  fallback_to_cpu_if_mps d
  = Ok (if String.eqb (type d) "mps" then cpu else d).
Proof.
  unfold fallback_to_cpu_if_mps. now destruct (String.eqb (type d) "mps").
Qed.

(** Off the [meta] device, [make_graph] is left with three calls that can
    fail, once [torch.where] has listed the connected triples [hits]:
    [coord k] is index tensor number [k], and [ends 1], [ends 2] are the
    sources and the targets of the edges. *)
Lemma make_graph_steps (node : tensor float) (idx : tensor Z) (emb : tensor float)
    (B L : nat) (erest : list nat) :
  shape idx = [B; L] ->
  shape emb = B :: L :: erest ->
  type (device idx) <> "meta" ->
  let fb := if String.eqb (type (device emb)) "mps" then cpu else device emb in
  let hits := connected_pairs idx B L in
  let coord k := mk_tensor [length hits] fb
                   (map (fun ix => Z.of_nat (nth k ix 0)) hits) in
  let ends k := mk_tensor [length hits] fb
                  (map (fun ix => node_id L (nth 0 ix 0) (nth k ix 0)) hits) in
  make_graph node idx emb
  = (x0 <- reshape node [Z.of_nat (B * L); (-1)%Z] ;;
     x <- to x0 fb ;;
     e_idx <- stack2 (ends 1) (ends 2) ;;
     e_attr <- index3 fzero emb (coord 0) (coord 1) (coord 2) ;;
     e_attr <- to e_attr fb ;;
     Ok (mk_Data x e_idx e_attr)).
Proof.
  intros Hidx Hemb Hmeta fb hits coord ends. unfold make_graph.
  rewrite fallback_total. cbn [bind]. fold fb.
  rewrite Hemb. cbn [firstn unpack2 bind].
  destruct (pair_diff_ok int64_sub idx B L Hidx)
    as (idx_row & idx_col & sep & H1 & H2 & H3 & Hsh & Hdev & Hwf & Hget).
  rewrite H1; cbn [bind]. rewrite H2; cbn [bind]. rewrite H3; cbn [bind].
  rewrite where_run by (cbn [tmap device]; now rewrite Hdev).
  cbn [shape tmap bind]. rewrite Hsh.
  cbn [length seq map].
  rewrite !to_off_meta by (cbn [tmap device]; now rewrite Hdev).
  cbn [sequence bind unpack3].
  set (cond := get false _).
  assert (Hfilter : List.filter cond (indices [B; L; L]) = hits).
  { unfold hits, connected_pairs. apply filter_ext_in. intros ix Hix.
    apply in_indices in Hix.
    inversion Hix as [| b n0 ix1 sh1 Hb H1' ]; subst.
    inversion H1' as [| i n1 ix2 sh2 Hi H2' ]; subst.
    inversion H2' as [| j n2 ix3 sh3 Hj H3' ]; subst.
    inversion H3'; subst.
    assert (Hin : in_range [b; i; j] (shape sep))
      by (rewrite Hsh; repeat constructor; assumption).
    unfold cond.
    rewrite (get_tmap_wf 0%Z) by (try apply tmap_well_formed; assumption).
    rewrite (get_tmap_wf 0%Z) by assumption.
    rewrite (Hget b i j Hb Hi Hj). reflexivity. }
  rewrite Hfilter.
  unfold tmap, moved. cbn [shape device data]. rewrite !map_map.
  rewrite !binop_1d. cbn [bind]. reflexivity.
Qed.

(** On the [meta] device [torch.where] has no answer. *)
Lemma make_graph_meta (node : tensor float) (idx : tensor Z) (emb : tensor float)
    (B L B' L' : nat) (erest : list nat) :
  shape idx = [B; L] ->
  shape emb = B' :: L' :: erest ->
  type (device idx) = "meta" ->
  exists msg, make_graph node idx emb = Raise (NotImplementedError msg).
Proof.
  intros Hidx Hemb Hmeta. unfold make_graph.
  rewrite fallback_total. cbn [bind].
  rewrite Hemb. cbn [firstn unpack2 bind].
  destruct (pair_diff_ok int64_sub idx B L Hidx)
    as (idx_row & idx_col & sep & H1 & H2 & H3 & Hsh & Hdev & Hwf & Hget).
  rewrite H1; cbn [bind]. rewrite H2; cbn [bind]. rewrite H3; cbn [bind].
  destruct (where_meta (tmap (fun z => (0 <? z)%Z) (tmap int64_abs sep)))
    as (msg & ->); [ cbn [tmap device]; now rewrite Hdev | ].
  cbn [bind]. eauto.
Qed.

Lemma in_connected_pairs (idx : tensor Z) (B L : nat) (ix : list nat) :
  In ix (connected_pairs idx B L) <->
  exists b i j, ix = [b; i; j] /\ b < B /\ i < L /\ j < L /\
                connected idx [b; i; j] = true.
Proof.
  unfold connected_pairs. rewrite filter_In, in_indices. split.
  - intros [Hin Hc].
    inversion Hin as [| b n0 ix1 sh1 Hb H1' ]; subst.
    inversion H1' as [| i n1 ix2 sh2 Hi H2' ]; subst.
    inversion H2' as [| j n2 ix3 sh3 Hj H3' ]; subst.
    inversion H3'; subst.
    exists b, i, j. now repeat split.
  - intros (b & i & j & -> & Hb & Hi & Hj & Hc).
    split; [ repeat constructor; assumption | exact Hc ].
Qed.

(** Connected residues carry different residue indices. *)
Lemma connected_differ (idx : tensor Z) (b i j : nat) :
  connected idx [b; i; j] = true -> get 0%Z idx [b; i] <> get 0%Z idx [b; j].
Proof.
  unfold connected. cbn [nth]. intros H Heq.
  rewrite Heq, int64_sub_diag in H. discriminate.
Qed.

(** Being connected is symmetric. *)
Lemma connected_swap (idx : tensor Z) (b i j : nat) :
  connected idx [b; i; j] = connected idx [b; j; i].
Proof.
  unfold connected. cbn [nth].
  set (p := get 0%Z idx [b; i]). set (q := get 0%Z idx [b; j]).
  destruct (Z.eq_dec (int64_sub q p) (- 2 ^ 63)) as [Hmin | Hne].
  - now rewrite Hmin, (int64_sub_swap_min q p Hmin).
  - rewrite (int64_sub_swap q p Hne). unfold int64_abs. now rewrite Z.abs_opp.
Qed.

(** Residues whose separation fits are connected exactly when their
    residue indices differ. *)
Lemma connected_linked (idx : tensor Z) (B L : nat) :
  separations_fit idx B L -> connected_pairs idx B L = linked_pairs idx B L.
Proof.
  intros Hfit. unfold connected_pairs, linked_pairs.
  apply filter_ext_in. intros ix Hix. apply in_indices in Hix.
  inversion Hix as [| b n0 ix1 sh1 Hb H1' ]; subst.
  inversion H1' as [| i n1 ix2 sh2 Hi H2' ]; subst.
  inversion H2' as [| j n2 ix3 sh3 Hj H3' ]; subst.
  inversion H3'; subst.
  unfold connected, linked. cbn [nth].
  pose proof (Hfit b i j Hb Hi Hj) as Hd.
  set (p := get 0%Z idx [b; i]) in *. set (q := get 0%Z idx [b; j]) in *.
  rewrite (int64_sub_fits q p Hd), int64_abs_fits by lia.
  destruct (Z.eqb_spec p q) as [-> | Hne]; cbn [negb].
  - now rewrite Z.sub_diag.
  - apply Z.ltb_lt. lia.
Qed.

(** What [make_graph] returns for a well-shaped, non-empty batch off the
    [meta] device, tensor by tensor. *)
Lemma make_graph_full (node : tensor float) (idx : tensor Z) (emb : tensor float)
    (B L : nat) (nrest erest : list nat) :
  shape idx = [B; L] ->
  shape emb = B :: L :: L :: erest ->
  shape node = B :: L :: nrest ->
  0 < B * L ->
  type (device node) <> "meta" ->
  type (device idx) <> "meta" ->
  type (device emb) <> "meta" ->
  let fb := if String.eqb (type (device emb)) "mps" then cpu else device emb in
  let hits := connected_pairs idx B L in
  exists G,
    make_graph node idx emb = Ok G /\
    x G = mk_tensor [B * L; numel nrest] fb (data node) /\
    edge_index G
    = mk_tensor [2; length hits] fb
        (map (fun ix => node_id L (nth 0 ix 0) (nth 1 ix 0)) hits
         ++ map (fun ix => node_id L (nth 0 ix 0) (nth 2 ix 0)) hits) /\
    edge_attr G
    = mk_tensor (length hits :: erest) fb
        (flat_map (fun ix => map (fun r => get fzero emb (ix ++ r)) (indices erest)) hits).
Proof.
  intros Hidx Hemb Hnode Hpos Mnode Hmeta Memb fb hits.
  rewrite (make_graph_steps node idx emb B L (L :: erest) Hidx Hemb Hmeta).
  fold fb. fold hits.
  rewrite reshape_rows; [ | exact Hpos | ].
  2:{ rewrite Hnode. cbn [numel fold_right].
      replace (B * (L * fold_right Nat.mul 1 nrest))
        with (fold_right Nat.mul 1 nrest * (B * L)) by lia.
      apply Nat.Div0.mod_mul. }
  cbn [bind]. rewrite to_off_meta by exact Mnode.
  cbn [bind]. unfold stack2. cbn [shape device data].
  rewrite device_eqb_refl. cbn [negb].
  destruct (list_eq_dec Nat.eq_dec [length hits] [length hits]) as [_ | Hne];
    [ | congruence ].
  cbn [bind]. unfold index3. rewrite Hemb. cbn [shape device data].
  destruct (list_eq_dec Nat.eq_dec [length hits] [length hits]) as [_ | Hne];
    [ | congruence ].
  rewrite combine_map3, map_map.
  rewrite (sequence_map_Ok _ (fun ix => ix)).
  2:{ intros ix Hix. apply in_connected_pairs in Hix as (b & i & j & -> & Hb & Hi & Hj & _).
      cbn [nth]. now rewrite !norm_index_of_nat by assumption. }
  rewrite map_id. cbn [bind].
  rewrite to_off_meta by exact Memb. cbn [bind].
  eexists. split; [ reflexivity | ].
  unfold moved. cbn [x edge_index edge_attr shape device data].
  split; [ | split; reflexivity ].
  do 3 f_equal. rewrite Hnode. cbn [numel fold_right].
  replace (B * (L * fold_right Nat.mul 1 nrest))
    with (fold_right Nat.mul 1 nrest * (B * L)) by lia.
  apply Nat.div_mul. lia.
Qed.

Lemma edges_of_pairs (G : Data) (L : nat) (fb : Device.device) (hits : list (list nat)) :
  edge_index G
  = mk_tensor [2; length hits] fb
      (map (fun ix => node_id L (nth 0 ix 0) (nth 1 ix 0)) hits
       ++ map (fun ix => node_id L (nth 0 ix 0) (nth 2 ix 0)) hits) ->
  edges G = map (fun ix => (node_id L (nth 0 ix 0) (nth 1 ix 0),
                            node_id L (nth 0 ix 0) (nth 2 ix 0))) hits.
Proof.
  intros Hei. unfold edges. rewrite Hei. cbn [shape nth].
  apply map_nth_seq. intros k ix0 Hk.
  unfold get. cbn [shape data offset numel fold_right].
  f_equal.
  - replace (0 * (length hits * 1) + (k * 1 + 0)) with k by lia.
    rewrite app_nth1 by now rewrite length_map.
    rewrite nth_indep with (d' := node_id L (nth 0 ix0 0) (nth 1 ix0 0))
      by now rewrite length_map.
    now rewrite (map_nth (fun ix => node_id L (nth 0 ix 0) (nth 1 ix 0))).
  - replace (1 * (length hits * 1) + (k * 1 + 0)) with (length hits + k) by lia.
    rewrite app_nth2 by (rewrite length_map; lia).
    rewrite length_map. replace (length hits + k - length hits) with k by lia.
    rewrite nth_indep with (d' := node_id L (nth 0 ix0 0) (nth 2 ix0 0))
      by now rewrite length_map.
    now rewrite (map_nth (fun ix => node_id L (nth 0 ix 0) (nth 2 ix 0))).
Qed.

(** Without residues, [node.reshape(0, -1)] raises, unless
    [torch.where] has raised before it on the [meta] device. *)
Lemma make_graph_without_nodes (node : tensor float) (idx : tensor Z)
    (emb : tensor float) (B L : nat) (erest : list nat) :
  shape idx = [B; L] ->
  shape emb = B :: L :: erest ->
  B * L = 0 ->
  exists msg,
    make_graph node idx emb
    = Raise (if String.eqb (type (device idx)) "meta"
             then NotImplementedError msg else RuntimeError msg).
Proof.
  intros Hidx Hemb Hzero.
  destruct (String.eqb_spec (type (device idx)) "meta") as [Hmeta | Hmeta].
  - exact (make_graph_meta node idx emb B L B L erest Hidx Hemb Hmeta).
  - rewrite (make_graph_steps node idx emb B L erest Hidx Hemb Hmeta).
    rewrite Hzero. unfold reshape. cbn.
    destruct (numel (shape node)); cbn; eauto.
Qed.

(** C4, as the code has it.  For node features of shape (B, L, ...), residue
    indices of shape (B, L) and pair features of shape (B, L, L, ...) of a
    non-empty batch, all off the [meta] device, [make_graph] returns a graph
    with
    exactly B*L nodes in which every edge is (b*L+i, b*L+j) for residues
    i, j of one batch element b (both ends in the block of b), the residue
    indices of i and j differ (so the edge is no self-loop), and the
    reversed edge is an edge too. *)
Theorem make_graph_edges (node : tensor float) (idx : tensor Z) (emb : tensor float)
    (B L : nat) (nrest erest : list nat) :
  shape idx = [B; L] ->
  shape emb = B :: L :: L :: erest ->
  shape node = B :: L :: nrest ->
  0 < B * L ->
  type (device node) <> "meta" ->
  type (device idx) <> "meta" ->
  type (device emb) <> "meta" ->
  exists G,
    make_graph node idx emb = Ok G /\
    num_nodes G = B * L /\
    forall s t, In (s, t) (edges G) ->
      exists b i j,
        b < B /\ i < L /\ j < L /\
        s = Z.of_nat (b * L + i) /\ t = Z.of_nat (b * L + j) /\
        (Z.of_nat (b * L) <= s < Z.of_nat ((b + 1) * L))%Z /\
        (Z.of_nat (b * L) <= t < Z.of_nat ((b + 1) * L))%Z /\
        get 0%Z idx [b; i] <> get 0%Z idx [b; j] /\
        s <> t /\
        In (t, s) (edges G).
Proof.
  intros Hidx Hemb Hnode Hpos Mnode Hmeta Memb.
  destruct (make_graph_full node idx emb B L nrest erest Hidx Hemb Hnode Hpos
              Mnode Hmeta Memb)
    as (G & Hrun & Hx & Hei & _).
  exists G. split; [ exact Hrun | ].
  split; [ unfold num_nodes; now rewrite Hx | ].
  intros s t Hst. rewrite (edges_of_pairs G L _ _ Hei) in Hst |- *.
  apply in_map_iff in Hst as (ix & Heq & Hix).
  apply in_connected_pairs in Hix as (b & i & j & -> & Hb & Hi & Hj & Hc).
  cbn [nth] in Heq. unfold node_id in Heq. injection Heq as <- <-.
  pose proof (connected_differ idx b i j Hc) as Hne.
  exists b, i, j.
  assert (Hij : i <> j) by (intros ->; now apply Hne).
  repeat split; try assumption; try nia.
  apply in_map_iff. exists [b; j; i]. split; [ reflexivity | ].
  apply in_connected_pairs. exists b, j, i. repeat split; try assumption.
  now rewrite <- connected_swap.
Qed.

(** One chain with residues numbered 7, 9, 9: residue 0 is linked with
    residues 1 and 2, which share an index and are not linked. *)
Example make_graph_7_9_9 :
  exists G,
    make_graph (zeros [1; 3; 2] cpu) (mk_tensor [1; 3] cpu [7; 9; 9]%Z)
               (zeros [1; 3; 3; 1] cpu) = Ok G /\
    num_nodes G = 3 /\
    edges G = [(0, 1); (0, 2); (1, 0); (2, 0)]%Z /\
    shape (edge_attr G) = [4; 1].
Proof.
  eexists. split; [ vm_compute; reflexivity | ].
  repeat split; vm_compute; reflexivity.
Qed.


(** C4, for one chain whose residues are numbered 7, 9, 9. *)
Lemma make_graph_edges_witness :
  exists G,
    make_graph (zeros [1; 3; 4] cpu) (mk_tensor [1; 3] cpu [7; 9; 9]%Z)
               (zeros [1; 3; 3; 5] cpu) = Ok G /\
    num_nodes G = 1 * 3 /\
    forall s t, In (s, t) (edges G) ->
      exists b i j,
        b < 1 /\ i < 3 /\ j < 3 /\
        s = Z.of_nat (b * 3 + i) /\ t = Z.of_nat (b * 3 + j) /\
        (Z.of_nat (b * 3) <= s < Z.of_nat ((b + 1) * 3))%Z /\
        (Z.of_nat (b * 3) <= t < Z.of_nat ((b + 1) * 3))%Z /\
        get 0%Z (mk_tensor [1; 3] cpu [7; 9; 9]%Z) [b; i]
        <> get 0%Z (mk_tensor [1; 3] cpu [7; 9; 9]%Z) [b; j] /\
        s <> t /\
        In (t, s) (edges G).
Proof.
  apply (make_graph_edges (zeros [1; 3; 4] cpu) (mk_tensor [1; 3] cpu [7; 9; 9]%Z)
           (zeros [1; 3; 3; 5] cpu) 1 3 [4] [5]); try reflexivity; try lia; discriminate.
Defined.

(** C4, as the specification states it, fails: [make_graph] reads B and L
    off [emb], not off [idx].  With residue indices of shape (2, 2) and pair
    features of shape (2, 3, 3, 1) the graph has 6 nodes, not 2 * 2, and
    the edge (3, 4), whose ends lie in no common block of two nodes. *)
Lemma make_graph_shapes_counterexample :
  let node := zeros [2; 3; 4] cpu in
  let idx := mk_tensor [2; 2] cpu [1; 2; 3; 4]%Z in
  let emb := zeros [2; 3; 3; 1] cpu in
  shape idx = [2; 2] /\
  exists G,
    make_graph node idx emb = Ok G /\
    num_nodes G = 6 /\
    In (3, 4)%Z (edges G) /\
    forall b, ~ ((Z.of_nat (b * 2) <= 3 < Z.of_nat ((b + 1) * 2))%Z /\
                 (Z.of_nat (b * 2) <= 4 < Z.of_nat ((b + 1) * 2))%Z).
Proof.
  intros node idx emb. split; [ reflexivity | ].
  eexists. split; [ vm_compute; reflexivity | ].
  split; [ vm_compute; reflexivity | ].
  split; [ vm_compute; tauto | ].
  intros b. lia.
Qed.

End GraphFacts.

(** ** The network *)

Module NetworkFacts.

Import Device Decorators Torch InitStrGenerator Pairs TorchFacts SeqsepFacts GraphFacts.

Section Layers.

Variable ext : externals.

Lemma call_LayerNorm d dev f t r :
  LayerNorm_contract ext -> device t = dev -> shape t = r ++ [d] ->
  exists t', call ext (LayerNorm d dev f) t = Ok t' /\
             shape t' = r ++ [d] /\ device t' = dev.
Proof.
  intros HLN Hd Hs. cbn [call].
  rewrite Hd, device_eqb_refl, Hs, HLN. cbn [negb].
  eexists. split; [ reflexivity | ]. now split.
Qed.

Lemma call_Linear i o dev f t r :
  device t = dev -> shape t = r ++ [i] ->
  exists t', call ext (Linear i o dev f) t = Ok t' /\
             shape t' = r ++ [o] /\ device t' = dev.
Proof.
  intros Hd Hs. cbn [call].
  rewrite Hd, device_eqb_refl, Hs, rev_app_distr. cbn [negb rev app].
  rewrite Nat.eqb_refl, rev_involutive.
  eexists. split; [ reflexivity | ]. now split.
Qed.

Lemma call_Linear_ELU i o dev f t r :
  device t = dev -> shape t = r ++ [i] ->
  exists t', call ext (Sequential [Linear i o dev f; ELU]) t = Ok t' /\
             shape t' = r ++ [o] /\ device t' = dev.
Proof.
  intros Hd Hs.
  destruct (call_Linear i o dev f t r Hd Hs) as (t1 & Hrun & Hs1 & Hd1).
  cbn [call] in *. rewrite Hrun. cbn [bind].
  eexists. split; [ reflexivity | ]. now split.
Qed.

Lemma call_block (n H E Eh heads : nat) (fb : Device.device) kc kn kl (G : Data) :
  LayerNorm_contract ext ->
  TransformerConv_contract ext ->
  0 < n -> 0 < H -> 0 < Eh -> 0 < heads -> type fb <> "meta" ->
  valid_graph n H E Eh fb G ->
  exists G',
    call_graph ext (layer_to fb (UniMPBlock_init H Eh heads kc kn kl)) G = Ok G' /\
    valid_graph n H E Eh fb G'.
Proof.
  intros HLN HTC Hn HH HEh Hheads Hmeta (Hxs & Hxd & Hes & Hed & Hrange & Has & Had).
  cbn [UniMPBlock_init layer_to call_graph].
  assert (Hdec : forall f : Data -> result Data,
            Decorators.call (cuda_amp_autocast (rt ext) true (Plain f)) G = f G).
  { intros f. unfold cuda_amp_autocast.
    now destruct (cuda_is_available (rt ext)). }
  rewrite Hdec. unfold UniMPBlock_forward, call_conv.
  rewrite Hxd, Hed, Had, device_eqb_refl. cbn [andb negb].
  rewrite Hxs, Has.
  rewrite (HTC H H heads Eh n E (edge_index G) HH HH Hheads HEh Hn
             ltac:(now rewrite Hed) Hes Hrange).
  cbn [bind].
  set (x1 := tabulate _ _ _).
  destruct (call_LayerNorm (H * heads) fb kn x1 [n] HLN)
    as (x2 & Hrun2 & Hs2 & Hd2);
    [ reflexivity | unfold x1; cbn [shape app]; now rewrite Nat.mul_comm | ].
  rewrite Hrun2. cbn [bind]. clearbody x1.
  destruct (call_Linear (H * heads) H fb kl x2 [n] Hd2 Hs2)
    as (x3 & Hrun3 & Hs3 & Hd3).
  rewrite Hrun3. cbn [bind].
  destruct (binop_shape fzero fzero fadd x3 (x G) [n; H]) as (s & Hrun4 & Hs4 & Hd4);
    [ congruence | rewrite Hs3, Hxs; apply broadcast_shapes_same | ].
  rewrite Hrun4. cbn [bind call].
  eexists. split; [ reflexivity | ].
  unfold valid_graph. cbn [x edge_index edge_attr tmap shape device].
  repeat split; try assumption. congruence.
Qed.

Lemma call_transformer (n H E Eh heads : nat) (fb : Device.device)
    (mk : nat -> layer) (ks : list nat) :
  LayerNorm_contract ext ->
  TransformerConv_contract ext ->
  0 < n -> 0 < H -> 0 < Eh -> 0 < heads -> type fb <> "meta" ->
  (forall k, exists kc kn kl, mk k = UniMPBlock_init H Eh heads kc kn kl) ->
  forall G, valid_graph n H E Eh fb G ->
  exists G',
    call_graph ext (layer_to fb (Sequential (map mk ks))) G = Ok G' /\
    valid_graph n H E Eh fb G'.
Proof.
  intros HLN HTC Hn HH HEh Hheads Hmeta Hmk.
  induction ks as [| k ks IH]; intros G HG.
  - exists G. now split.
  - destruct (Hmk k) as (kc & kn & kl & Hk).
    destruct (call_block n H E Eh heads fb kc kn kl G HLN HTC Hn HH HEh Hheads Hmeta HG)
      as (G1 & Hrun1 & HG1).
    destruct (IH G1 HG1) as (G' & Hrun & HG').
    exists G'. split; [ | exact HG' ].
    cbn [map layer_to call_graph] in *. rewrite Hk, Hrun1. cbn [bind].
    exact Hrun.
Qed.

End Layers.

Lemma call_to_inv (dev : Device.device) (l l' : layer) :
  call_to dev l = Ok l' -> l' = layer_to dev l.
Proof.
  unfold call_to. destruct (existsb _ _); [ discriminate | ].
  intros H. now injection H as <-.
Qed.

(** A stack of blocks whose parameters are off the [meta] device can be
    moved. *)
Lemma call_to_blocks (dev dt : Device.device) (mk : nat -> layer) (ks : list nat) :
  type dt <> "meta" ->
  (forall k, exists H Eh heads kc kn kl, mk k = UniMPBlock_init H Eh heads kc kn kl) ->
  call_to dev (layer_to dt (Sequential (map mk ks)))
  = Ok (layer_to dev (layer_to dt (Sequential (map mk ks)))).
Proof.
  intros Hdt Hmk. unfold call_to.
  assert (Hnone : existsb (fun p => no_data_to_copy p dev)
                    (parameters (layer_to dt (Sequential (map mk ks)))) = false).
  { cbn [layer_to parameters]. rewrite map_map.
    induction ks as [| k ks IH]; [ reflexivity | ].
    cbn [map flat_map]. rewrite existsb_app, IH, Bool.orb_false_r.
    destruct (Hmk k) as (H & Eh & heads & kc & kn & kl & ->).
    cbn [UniMPBlock_init layer_to parameters app existsb].
    now rewrite (no_data_to_copy_off_meta dt dev Hdt). }
  now rewrite Hnone.
Qed.

(** Attribute lookup after an assignment. *)
Lemma getattr_setattr_eq (self : module) (name : string) (v : value) :
  getattr (setattr self name v) name = Ok v.
Proof.
  induction self as [| [k v0] rest IH]; cbn [setattr getattr].
  - now rewrite String.eqb_refl.
  - destruct (String.eqb k name) eqn:Hk; cbn [getattr]; rewrite Hk;
      [ reflexivity | exact IH ].
Qed.

Lemma getattr_setattr_ne (self : module) (name k : string) (v : value) :
  k <> name -> getattr (setattr self name v) k = getattr self k.
Proof.
  intros Hne. induction self as [| [k0 v0] rest IH]; cbn [setattr getattr].
  - now rewrite (proj2 (String.eqb_neq name k)) by congruence.
  - destruct (String.eqb k0 name) eqn:Hk0; cbn [getattr].
    + apply String.eqb_eq in Hk0. subst k0.
      now rewrite (proj2 (String.eqb_neq name k)) by congruence.
    + now rewrite IH.
Qed.

Ltac bind_inv H :=
  let a := fresh "a" in
  let Ha := fresh "Ha" in
  apply bind_Ok_inv in H; destruct H as (a & Ha & H).

(** The steps of a call of [forward] that returns: on any module and any
    arguments, it builds a graph with [make_graph] from the features of this
    call, and hands back the module with the transformer moved to the
    fallback device, together with a tensor reshaped to (B, L, 3, 3). *)
Lemma forward_inv (ext : externals) (self self' : module)
    (seq1hot : tensor float) (idx : tensor Z) (msa pair xyz : tensor float) :
  forward ext self seq1hot idx msa pair = Ok (self', xyz) ->
  exists dev fb node emb G Gout tr B N L,
    first_parameter_device self = Ok dev /\
    fallback_to_cpu_if_mps dev = Ok fb /\
    firstn 3 (shape msa) = [B; N; L] /\
    graph_features ext self seq1hot idx msa pair = Ok (node, emb) /\
    make_graph node idx emb = Ok G /\
    submodule self "transformer" = Ok tr /\
    call_graph ext (layer_to fb tr) G = Ok Gout /\
    self' = setattr self "transformer" (Submodule (layer_to fb tr)) /\
    shape xyz = [B; L; 3; 3].
Proof.
  intros H. unfold forward in H.
  apply bind_Ok_inv in H as (dev & Hdev & H).
  apply bind_Ok_inv in H as (fb & Hfb & H).
  apply bind_Ok_inv in H as ([[B N] L] & Hunpack & H).
  do 17 bind_inv H.
  apply bind_Ok_inv in H as (G & HG & H).
  apply bind_Ok_inv in H as (tr & Htr & H).
  apply bind_Ok_inv in H as (tr' & Htr' & H).
  apply call_to_inv in Htr'. subst tr'.
  cbv zeta in H.
  apply bind_Ok_inv in H as (Gout & HGout & H).
  apply bind_Ok_inv in H as (get_xyz & Hget_xyz & H).
  apply bind_Ok_inv in H as (Gx & HGx & H).
  apply bind_Ok_inv in H as (xyz0 & Hxyz0 & H).
  apply bind_Ok_inv in H as (xyz1 & Hxyz1 & H).
  injection H as <- <-.
  match type of HG with make_graph ?node _ ?emb = _ =>
    exists dev, fb, node, emb, G, Gout, tr, B, N, L end.
  repeat split; try assumption.
  - unfold unpack3 in Hunpack.
    destruct (firstn 3 (shape msa)) as [| b0 [| n0 [| l0 [| ? ?]]]];
      try discriminate. now injection Hunpack as -> -> ->.
  - unfold graph_features. rewrite Hunpack. cbn [bind].
    repeat match goal with
           | Hstep : ?c = Ok _ |- context [bind ?c _] => rewrite Hstep; cbn [bind]
           end.
    reflexivity.
  - change [Z.of_nat B; Z.of_nat L; 3%Z; 3%Z] with (map Z.of_nat [B; L; 3; 3]) in Hxyz1.
    unfold reshape in Hxyz1.
    destruct (filter_infer_of_nat [B; L; 3; 3]) as (E1 & E2 & E3 & E4).
    rewrite E1, E2, E3, E4 in Hxyz1.
    destruct (numel (shape xyz0) =? numel [B; L; 3; 3]); [ | discriminate ].
    now injection Hxyz1 as <-.
Qed.

(** Whatever the module and the other arguments, a call of [forward] that
    returns gives a tensor of shape (B, L, 3, 3), B and L being the first and
    third size of [msa]. *)
Lemma forward_shape (ext : externals) (self self' : module)
    (seq1hot : tensor float) (idx : tensor Z) (msa pair xyz : tensor float)
    (B N L D : nat) :
  shape msa = [B; N; L; D] ->
  forward ext self seq1hot idx msa pair = Ok (self', xyz) ->
  shape xyz = [B; L; 3; 3].
Proof.
  intros Hmsa H.
  destruct (forward_inv ext self self' seq1hot idx msa pair xyz H)
    as (dev & fb & node & emb & G & Gout & tr & B' & N' & L'
        & _ & _ & Hfirst & _ & _ & _ & _ & _ & Hsh).
  rewrite Hmsa in Hfirst. cbn [firstn] in Hfirst.
  injection Hfirst as <- <- <-. exact Hsh.
Qed.

Section ForwardFacts.

Variable ext : externals.
Hypothesis HLN : LayerNorm_contract ext.
Hypothesis HSW : SequenceWeight_contract ext.
Hypothesis HTC : TransformerConv_contract ext.

Variables (hp : hyperparameters) (w : weights) (d dt : Device.device).

(** The network built by [__init__], moved to [d], whose transformer
    earlier calls may have moved to [dt]. *)
Let self : module := transformer_to dt (module_to d (InitStr_Network_init hp w)).

Let blocks (k : nat) : layer :=
  UniMPBlock_init (node_dim_hidden hp) (edge_dim_hidden hp) (nheads hp)
                  (w_TConv w k) (w_LNorm w k) (w_Linear w k).

Lemma self_lookups :
  first_parameter_device self = Ok d /\
  submodule self "norm_node" = Ok (LayerNorm (node_dim_in hp) d (w_norm_node w)) /\
  submodule self "norm_edge" = Ok (LayerNorm (edge_dim_in hp) d (w_norm_edge w)) /\
  submodule self "encoder_seq"
    = Ok (SequenceWeight (node_dim_in hp) 1 d (w_encoder_seq w)) /\
  submodule self "embed_x"
    = Ok (Sequential [Linear (node_dim_in hp + 21) (node_dim_hidden hp) d (w_embed_x w);
                      ELU]) /\
  submodule self "embed_e"
    = Ok (Sequential [Linear (edge_dim_in hp + 1) (edge_dim_hidden hp) d (w_embed_e w);
                      ELU]) /\
  submodule self "transformer"
    = Ok (layer_to dt (layer_to d (Sequential (map blocks (seq 0 (nblocks hp)))))) /\
  forall fb,
    submodule (setattr self "transformer"
                 (Submodule (layer_to fb (layer_to dt (layer_to d
                    (Sequential (map blocks (seq 0 (nblocks hp)))))))))
              "get_xyz"
    = Ok (Linear (node_dim_hidden hp) 9 d (w_get_xyz w)).
Proof. repeat split. Qed.

(** The first half of [forward], up to the node features that enter
    [embed_x]; [K] is the number of channels of [seq1hot]. *)
Lemma forward_until_embed_x (seq1hot : tensor float) (idx : tensor Z)
    (msa pair : tensor float) (B N L K : nat) :
  shape msa = [B; N; L; node_dim_in hp] ->
  shape seq1hot = [B; L; K] ->
  shape pair = [B; L; L; edge_dim_in hp] ->
  device msa = d -> device seq1hot = d -> device pair = d ->
  0 < N ->
  let fb := if String.eqb (type d) "mps" then cpu else d in
  exists node0 pair1,
    shape node0 = [B; L; node_dim_in hp + K] /\ device node0 = d /\
    shape pair1 = [B; L; L; edge_dim_in hp] /\ device pair1 = d /\
    forward ext self seq1hot idx msa pair
    = (node <- call ext (Sequential [Linear (node_dim_in hp + 21) (node_dim_hidden hp)
                                            d (w_embed_x w); ELU]) node0 ;;
       seqsep <- get_seqsep idx ;;
       pair2 <- cat_last fzero pair1 seqsep ;;
       embed_e <- submodule self "embed_e" ;;
       emb <- call ext embed_e pair2 ;;
       G <- make_graph node idx emb ;;
       transformer <- submodule self "transformer" ;;
       transformer <- call_to fb transformer ;;
       Gout <- call_graph ext transformer G ;;
       get_xyz <- submodule (setattr self "transformer" (Submodule transformer))
                            "get_xyz" ;;
       Gx <- to (x Gout) d ;;
       xyz <- call ext get_xyz Gx ;;
       xyz <- reshape xyz [Z.of_nat B; Z.of_nat L; 3%Z; 3%Z] ;;
       Ok (setattr self "transformer" (Submodule transformer), xyz)) /\
    graph_features ext self seq1hot idx msa pair
    = (node <- call ext (Sequential [Linear (node_dim_in hp + 21) (node_dim_hidden hp)
                                            d (w_embed_x w); ELU]) node0 ;;
       seqsep <- get_seqsep idx ;;
       pair2 <- cat_last fzero pair1 seqsep ;;
       embed_e <- submodule self "embed_e" ;;
       emb <- call ext embed_e pair2 ;;
       Ok (node, emb)).
Proof.
  intros Hmsa Hseq Hpair Dmsa Dseq Dpair HN fb.
  destruct self_lookups as (Hdev & Hnn & Hne & Hes & Hex & _).
  unfold forward, graph_features. rewrite Hdev. cbn [bind].
  rewrite fallback_total. cbn [bind]. fold fb.
  rewrite Hmsa. cbn [firstn unpack3 bind].
  rewrite Hnn. cbn [bind].
  destruct (call_LayerNorm ext (node_dim_in hp) d (w_norm_node w) msa [B; N; L] HLN Dmsa Hmsa)
    as (msa1 & Hrun & Smsa1 & Dmsa1).
  rewrite Hrun. cbn [bind]. clear Hrun.
  rewrite Hne. cbn [bind].
  destruct (call_LayerNorm ext (edge_dim_in hp) d (w_norm_edge w) pair [B; L; L] HLN Dpair Hpair)
    as (pair1 & Hrun & Spair1 & Dpair1).
  rewrite Hrun. cbn [bind]. clear Hrun.
  rewrite Hes. cbn [bind call].
  rewrite Dmsa1, device_eqb_refl, Smsa1. cbn [negb app].
  destruct (HSW (node_dim_in hp) B N L HN) as (shw & -> & Hnumel).
  set (w0 := tabulate shw d _). cbn [bind].
  change [Z.of_nat B; Z.of_nat L; 1%Z; Z.of_nat N] with (map Z.of_nat [B; L; 1; N]).
  rewrite reshape_exact
    by (unfold w0, tabulate; cbn [shape]; rewrite Hnumel; cbn [numel fold_right]; lia).
  cbn [bind].
  destruct (permute_shape fzero (mk_tensor [B; L; 1; N] (device w0) (data w0))
              [0; 3; 1; 2] eq_refl) as (w_seq & Hrun & Sw & Dw).
  rewrite Hrun. cbn [bind]. clear Hrun.
  cbn [shape device map nth] in Sw, Dw.
  unfold w0, tabulate in Dw; cbn [device] in Dw. clearbody w0.
  destruct (binop_shape fzero fzero fmul w_seq msa1 ([B; N; L] ++ [node_dim_in hp]))
    as (msa2 & Hrun & Smsa2 & Dmsa2);
    [ congruence
    | rewrite Sw, Smsa1; apply (broadcast_last_one [B; N; L]) | ].
  rewrite Hrun. cbn [bind]. clear Hrun.
  destruct (sum_dim_shape msa2 1) as (msa3 & Hrun & Smsa3 & Dmsa3);
    [ rewrite Smsa2; cbn [app length]; lia | ].
  rewrite Hrun. cbn [bind]. clear Hrun.
  rewrite Smsa2 in Smsa3. cbn [app firstn skipn] in Smsa3.
  destruct (cat_last_shape fzero msa3 seq1hot [B; L] (node_dim_in hp) K)
    as (node0 & Hrun & Snode0 & Dnode0); [ congruence | assumption | assumption | ].
  rewrite Hrun. cbn [bind]. clear Hrun.
  rewrite Hex. cbn [bind].
  exists node0, pair1.
  split; [ exact Snode0 | ]. split; [ congruence | ].
  split; [ exact Spair1 | ]. split; [ exact Dpair1 | ]. split; reflexivity.
Qed.

(** The second half of the features, for 21 channels: the embedded node
    and pair features. *)
Lemma forward_until_make_graph (seq1hot : tensor float) (idx : tensor Z)
    (msa pair : tensor float) (B N L : nat) :
  shape msa = [B; N; L; node_dim_in hp] ->
  shape seq1hot = [B; L; 21] ->
  shape idx = [B; L] ->
  shape pair = [B; L; L; edge_dim_in hp] ->
  device msa = d -> device seq1hot = d -> device idx = d -> device pair = d ->
  0 < N ->
  let fb := if String.eqb (type d) "mps" then cpu else d in
  exists node emb,
    shape node = [B; L; node_dim_hidden hp] /\ device node = d /\
    shape emb = [B; L; L; edge_dim_hidden hp] /\ device emb = d /\
    graph_features ext self seq1hot idx msa pair = Ok (node, emb) /\
    forward ext self seq1hot idx msa pair
    = (G <- make_graph node idx emb ;;
       transformer <- submodule self "transformer" ;;
       transformer <- call_to fb transformer ;;
       Gout <- call_graph ext transformer G ;;
       get_xyz <- submodule (setattr self "transformer" (Submodule transformer))
                            "get_xyz" ;;
       Gx <- to (x Gout) d ;;
       xyz <- call ext get_xyz Gx ;;
       xyz <- reshape xyz [Z.of_nat B; Z.of_nat L; 3%Z; 3%Z] ;;
       Ok (setattr self "transformer" (Submodule transformer), xyz)).
Proof.
  intros Hmsa Hseq Hidx Hpair Dmsa Dseq Didx Dpair HN fb.
  destruct (forward_until_embed_x seq1hot idx msa pair B N L 21
              Hmsa Hseq Hpair Dmsa Dseq Dpair HN)
    as (node0 & pair1 & Snode0 & Dnode0 & Spair1 & Dpair1 & -> & ->).
  destruct (call_Linear_ELU ext (node_dim_in hp + 21) (node_dim_hidden hp) d
              (w_embed_x w) node0 [B; L] Dnode0 Snode0)
    as (node & Hrun & Snode & Dnode).
  rewrite Hrun. cbn [bind]. clear Hrun.
  destruct (get_seqsep_value idx B L Hidx) as (seqsep & Hrun & Sss & Dss & _ & _).
  rewrite Hrun. cbn [bind]. clear Hrun.
  destruct (cat_last_shape fzero pair1 seqsep [B; L; L] (edge_dim_in hp) 1)
    as (pair2 & Hrun & Spair2 & Dpair2); [ congruence | assumption | assumption | ].
  rewrite Hrun. cbn [bind]. clear Hrun.
  destruct self_lookups as (_ & _ & _ & _ & _ & Hee & _).
  rewrite Hee. cbn [bind].
  destruct (call_Linear_ELU ext (edge_dim_in hp + 1) (edge_dim_hidden hp) d
              (w_embed_e w) pair2 [B; L; L])
    as (emb & Hrun & Semb & Demb); [ congruence | assumption | ].
  rewrite Hrun. cbn [bind]. clear Hrun.
  exists node, emb.
  split; [ exact Snode | ]. split; [ exact Dnode | ].
  split; [ exact Semb | ]. split; [ exact Demb | ]. split; reflexivity.
Qed.

Lemma forward_wrong_channels (seq1hot : tensor float) (idx : tensor Z)
    (msa pair : tensor float) (B N L K : nat) :
  shape msa = [B; N; L; node_dim_in hp] ->
  shape seq1hot = [B; L; K] ->
  shape pair = [B; L; L; edge_dim_in hp] ->
  device msa = d -> device seq1hot = d -> device pair = d ->
  0 < N ->
  K <> 21 ->
  exists msg,
    forward ext self seq1hot idx msa pair = Raise (RuntimeError msg).
Proof.
  intros Hmsa Hseq Hpair Dmsa Dseq Dpair HN HK.
  destruct (forward_until_embed_x seq1hot idx msa pair B N L K
              Hmsa Hseq Hpair Dmsa Dseq Dpair HN)
    as (node0 & pair1 & Snode0 & Dnode0 & _ & _ & -> & _).
  cbn [call]. rewrite Dnode0, device_eqb_refl, Snode0. cbn [negb rev app].
  destruct (Nat.eqb_spec (node_dim_in hp + K) (node_dim_in hp + 21)); [ lia | ].
  cbn [bind]. eauto.
Qed.

Lemma forward_without_residues (seq1hot : tensor float) (idx : tensor Z)
    (msa pair : tensor float) (B N L : nat) :
  shape msa = [B; N; L; node_dim_in hp] ->
  shape seq1hot = [B; L; 21] ->
  shape idx = [B; L] ->
  shape pair = [B; L; L; edge_dim_in hp] ->
  device msa = d -> device seq1hot = d -> device idx = d -> device pair = d ->
  0 < N ->
  B * L = 0 ->
  exists msg,
    forward ext self seq1hot idx msa pair
    = Raise (if String.eqb (type d) "meta"
             then NotImplementedError msg else RuntimeError msg).
Proof.
  intros Hmsa Hseq Hidx Hpair Dmsa Dseq Didx Dpair HN Hzero.
  destruct (forward_until_make_graph seq1hot idx msa pair B N L
              Hmsa Hseq Hidx Hpair Dmsa Dseq Didx Dpair HN)
    as (node & emb & _ & _ & Semb & _ & _ & ->).
  destruct (make_graph_without_nodes node idx emb B L [L; edge_dim_hidden hp]
              Hidx Semb Hzero) as (msg & ->).
  rewrite Didx. cbn [bind]. eauto.
Qed.

(** A call of [forward] on a well-shaped, non-empty batch on the device of
    the network, step by step. *)
Lemma forward_run (seq1hot : tensor float) (idx : tensor Z) (msa pair : tensor float)
    (B N L : nat) :
  positive_dimensions hp ->
  type d <> "meta" -> type dt <> "meta" ->
  shape msa = [B; N; L; node_dim_in hp] ->
  shape seq1hot = [B; L; 21] ->
  shape idx = [B; L] ->
  shape pair = [B; L; L; edge_dim_in hp] ->
  device msa = d -> device seq1hot = d -> device idx = d -> device pair = d ->
  0 < B -> 0 < N -> 0 < L ->
  exists fb node emb G E Gout,
    fallback_to_cpu_if_mps d = Ok fb /\
    graph_features ext self seq1hot idx msa pair = Ok (node, emb) /\
    device node = d /\ device emb = d /\
    make_graph node idx emb = Ok G /\
    valid_graph (B * L) (node_dim_hidden hp) E (edge_dim_hidden hp) fb G /\
    call_graph ext (layer_to fb (layer_to dt (layer_to d
                 (Sequential (map blocks (seq 0 (nblocks hp))))))) G = Ok Gout /\
    valid_graph (B * L) (node_dim_hidden hp) E (edge_dim_hidden hp) fb Gout /\
    forward ext self seq1hot idx msa pair
    = Ok (transformer_to fb self,
          mk_tensor [B; L; 3; 3] d
            (map (w_get_xyz w (moved (x Gout) d)) (indices [B * L; 9]))).
Proof.
  intros (_ & Hnh & _ & Heh & Hheads) Hmeta Hdt
         Hmsa Hseq Hidx Hpair Dmsa Dseq Didx Dpair HB HN HL.
  destruct self_lookups as (_ & _ & _ & _ & _ & _ & Htr & Hxyz).
  destruct (forward_until_make_graph seq1hot idx msa pair B N L
              Hmsa Hseq Hidx Hpair Dmsa Dseq Didx Dpair HN)
    as (node & emb & Snode & Dnode & Semb & Demb & Hfeat & ->).
  set (fb := if String.eqb (type d) "mps" then cpu else d).
  assert (Hfb : type fb <> "meta").
  { unfold fb. destruct (String.eqb (type d) "mps"); [ discriminate | exact Hmeta ]. }
  destruct (make_graph_full node idx emb B L [node_dim_hidden hp] [edge_dim_hidden hp])
    as (G & Hrun & Gx & Gei & Gea);
    [ assumption | assumption | assumption | nia
    | now rewrite Dnode | now rewrite Didx | now rewrite Demb | ].
  rewrite Demb in Gx, Gei, Gea. fold fb in Gx, Gei, Gea.
  rewrite Hrun. cbn [bind].
  rewrite Htr. cbn [bind].
  set (hits := connected_pairs idx B L) in *.
  assert (HG : valid_graph (B * L) (node_dim_hidden hp) (length hits)
                 (edge_dim_hidden hp) fb G).
  { unfold valid_graph. rewrite Gx, Gei, Gea. cbn [shape device data numel fold_right].
    rewrite Nat.mul_1_r.
    repeat split.
    apply forallb_forall. intros v Hv.
    assert (Hnode : exists ix k, In ix hits /\ k < L /\
                      v = node_id L (nth 0 ix 0) k /\ nth 0 ix 0 < B).
    { apply in_app_or in Hv as [Hv | Hv];
        apply in_map_iff in Hv as (ix & <- & Hix);
        destruct (proj1 (in_connected_pairs idx B L ix) Hix)
          as (b & i & j & -> & Hb & Hi & Hj & _);
        cbn [nth]; eauto 10. }
    destruct Hnode as (ix & k & _ & Hk & -> & Hb). unfold node_id.
    apply andb_true_intro. split; [ apply Z.leb_le | apply Z.ltb_lt ]; nia. }
  assert (Hto : layer_to fb (layer_to dt (layer_to d
                  (Sequential (map blocks (seq 0 (nblocks hp))))))
                = layer_to fb (Sequential (map blocks (seq 0 (nblocks hp))))).
  { cbn [layer_to]. rewrite !map_map. reflexivity. }
  destruct (call_transformer ext (B * L) (node_dim_hidden hp) (length hits)
              (edge_dim_hidden hp) (nheads hp) fb blocks (seq 0 (nblocks hp)) HLN HTC)
    with (G := G) as (Gout & HrunT & HGout);
    [ nia | assumption | assumption | assumption | exact Hfb
    | intros k; unfold blocks; eauto | exact HG | ].
  assert (Hmove : call_to fb (layer_to dt (layer_to d
                    (Sequential (map blocks (seq 0 (nblocks hp))))))
                  = Ok (layer_to fb (layer_to dt (layer_to d
                          (Sequential (map blocks (seq 0 (nblocks hp)))))))).
  { replace (layer_to dt (layer_to d (Sequential (map blocks (seq 0 (nblocks hp))))))
      with (layer_to dt (Sequential (map blocks (seq 0 (nblocks hp)))))
      by (cbn [layer_to]; now rewrite !map_map).
    apply call_to_blocks; [ exact Hdt | intros k; unfold blocks; eauto 10 ]. }
  rewrite Hmove. cbn [bind].
  rewrite Hto, HrunT. cbn [bind].
  rewrite <- Hto, Hxyz. cbn [bind].
  pose proof HGout as (Sx & Dx & _).
  rewrite to_off_meta by now rewrite Dx.
  cbn [bind call moved device shape]. rewrite device_eqb_refl, Sx. cbn [negb rev app].
  rewrite Nat.eqb_refl. cbn [bind].
  change [Z.of_nat B; Z.of_nat L; 3%Z; 3%Z] with (map Z.of_nat [B; L; 3; 3]).
  rewrite reshape_exact by (cbn [tabulate shape numel fold_right]; lia).
  cbn [bind tabulate device data].
  exists fb, node, emb, G, (length hits), Gout.
  split; [ apply fallback_total | ]. split; [ exact Hfeat | ].
  split; [ exact Dnode | ]. split; [ exact Demb | ].
  split; [ exact Hrun | ]. split; [ exact HG | ]. split; [ now rewrite Hto | ].
  split; [ exact HGout | ]. reflexivity.
Qed.

End ForwardFacts.

Lemma reference_LayerNorm : LayerNorm_contract reference_externals.
Proof.
  intros d r. cbn [LayerNorm_shape reference_externals].
  rewrite rev_app_distr. cbn [rev app]. now rewrite Nat.eqb_refl.
Qed.

Lemma reference_SequenceWeight : SequenceWeight_contract reference_externals.
Proof.
  intros d B N L HN. cbn [SequenceWeight_shape reference_externals].
  rewrite Nat.eqb_refl. destruct (Nat.ltb_spec 0 N) as [_ | Hle]; [ | lia ].
  eexists. split; [ reflexivity | ]. cbn [numel fold_right]. lia.
Qed.

Lemma reference_TransformerConv : TransformerConv_contract reference_externals.
Proof.
  intros i o h e n E e_idx Hi Ho Hh He Hn _ Hs Hrange.
  cbn [TransformerConv_shape reference_externals].
  rewrite Hs, !Nat.eqb_refl, Hrange.
  destruct (Nat.ltb_spec 0 (h * o)) as [_ | Hle]; [ reflexivity | nia ].
Qed.

Lemma defaults_positive : positive_dimensions defaults.
Proof. unfold positive_dimensions, defaults. cbn. lia. Qed.

(** The entries of the result, read residue by residue. *)
Lemma get_coordinates (f : list nat -> float) (dev : Device.device)
    (B L b l a c : nat) :
  b < B -> l < L -> a < 3 -> c < 3 ->
  get fzero (mk_tensor [B; L; 3; 3] dev (map f (indices [B * L; 9]))) [b; l; a; c]
  = f [b * L + l; 3 * a + c].
Proof.
  intros Hb Hl Ha Hc. unfold get. cbn [shape data].
  assert (Hin : in_range [b * L + l; 3 * a + c] [B * L; 9])
    by (constructor; [ nia | constructor; [ lia | constructor ] ]).
  replace (offset [B; L; 3; 3] [b; l; a; c])
    with (offset [B * L; 9] [b * L + l; 3 * a + c])
    by (cbn [offset numel fold_right]; nia).
  rewrite nth_indep with (d' := f [b * L + l; 3 * a + c])
    by (rewrite length_map, length_indices; now apply offset_lt).
  now rewrite map_nth, nth_indices.
Qed.

(** C1, as the code has it.  On a network built by [__init__] with positive
    widths and at least one head, placed on a device other than [meta]
    (where its transformer has not been placed either), for a non-empty
    input batch on that device with [msa] of shape
    (B, N, L, node_dim_in), [seq1hot] (B, L, 21), [idx] (B, L) and [pair]
    (B, L, L, edge_dim_in), [forward] returns a tensor of shape (B, L, 3, 3)
    on that device: the nine outputs of [get_xyz] for every node of the
    graph that the transformer returns for the graph [make_graph] builds
    from the embedded features of this batch. *)
Theorem forward_returns_coordinates (ext : externals) (hp : hyperparameters)
    (w : weights) (d dt : Device.device)
    (seq1hot : tensor float) (idx : tensor Z) (msa pair : tensor float) (B N L : nat) :
  LayerNorm_contract ext ->
  SequenceWeight_contract ext ->
  TransformerConv_contract ext ->
  positive_dimensions hp ->
  type d <> "meta" -> type dt <> "meta" ->
  shape msa = [B; N; L; node_dim_in hp] ->
  shape seq1hot = [B; L; 21] ->
  shape idx = [B; L] ->
  shape pair = [B; L; L; edge_dim_in hp] ->
  device msa = d -> device seq1hot = d -> device idx = d -> device pair = d ->
  0 < B -> 0 < N -> 0 < L ->
  exists self' xyz node emb G tr Gout,
    forward ext (transformer_to dt (module_to d (InitStr_Network_init hp w)))
            seq1hot idx msa pair = Ok (self', xyz) /\
    shape xyz = [B; L; 3; 3] /\ well_formed xyz /\ device xyz = d /\
    graph_features ext (transformer_to dt (module_to d (InitStr_Network_init hp w)))
                   seq1hot idx msa pair = Ok (node, emb) /\
    make_graph node idx emb = Ok G /\
    submodule self' "transformer" = Ok tr /\
    call_graph ext tr G = Ok Gout /\
    forall b l a c, b < B -> l < L -> a < 3 -> c < 3 ->
      get fzero xyz [b; l; a; c]
      = w_get_xyz w (moved (x Gout) d) [b * L + l; 3 * a + c].
Proof.
  intros HLN HSW HTC Hhp Hmeta Hdt Hmsa Hseq Hidx Hpair Dmsa Dseq Didx Dpair HB HN HL.
  destruct (forward_run ext HLN HSW HTC hp w d dt seq1hot idx msa pair B N L
              Hhp Hmeta Hdt Hmsa Hseq Hidx Hpair Dmsa Dseq Didx Dpair HB HN HL)
    as (fb & node & emb & G & E & Gout & _ & Hfeat & _ & _ & HG & _ & HGout & _ & Hrun).
  do 2 eexists. exists node, emb, G. eexists. exists Gout.
  split; [ exact Hrun | ]. split; [ reflexivity | ].
  split; [ unfold well_formed; cbn [data shape];
           rewrite length_map, length_indices; cbn [numel fold_right]; lia | ].
  split; [ reflexivity | ]. split; [ exact Hfeat | ]. split; [ exact HG | ].
  split; [ | split; [ exact HGout | ] ].
  - destruct (self_lookups hp w d dt) as (_ & _ & _ & _ & _ & _ & Htr & _).
    unfold transformer_to at 1. unfold submodule in Htr.
    destruct (getattr (transformer_to dt (module_to d (InitStr_Network_init hp w)))
                      "transformer") as [[l | ? | ?] | ?]; try discriminate.
    injection Htr as ->. unfold submodule. now rewrite getattr_setattr_eq.
  - intros b l a c Hb Hl Ha Hc. now apply get_coordinates.
Qed.

(** C1, for the default network on the CPU and a batch of one chain of
    three residues with two sequences. *)
Lemma forward_returns_coordinates_witness :
  exists self' xyz node emb G tr Gout,
    forward reference_externals
            (transformer_to cpu (module_to cpu (InitStr_Network_init defaults zero_weights)))
            (zeros [1; 3; 21] cpu) (mk_tensor [1; 3] cpu [7; 8; 10]%Z)
            (zeros [1; 2; 3; 64] cpu) (zeros [1; 3; 3; 128] cpu)
    = Ok (self', xyz) /\
    shape xyz = [1; 3; 3; 3] /\ well_formed xyz /\ device xyz = cpu /\
    graph_features reference_externals
            (transformer_to cpu (module_to cpu (InitStr_Network_init defaults zero_weights)))
            (zeros [1; 3; 21] cpu) (mk_tensor [1; 3] cpu [7; 8; 10]%Z)
            (zeros [1; 2; 3; 64] cpu) (zeros [1; 3; 3; 128] cpu)
    = Ok (node, emb) /\
    make_graph node (mk_tensor [1; 3] cpu [7; 8; 10]%Z) emb = Ok G /\
    submodule self' "transformer" = Ok tr /\
    call_graph reference_externals tr G = Ok Gout /\
    forall b l a c, b < 1 -> l < 3 -> a < 3 -> c < 3 ->
      get fzero xyz [b; l; a; c]
      = w_get_xyz zero_weights (moved (x Gout) cpu) [b * 3 + l; 3 * a + c].
Proof.
  apply (forward_returns_coordinates reference_externals defaults zero_weights
           cpu cpu (zeros [1; 3; 21] cpu) (mk_tensor [1; 3] cpu [7; 8; 10]%Z)
           (zeros [1; 2; 3; 64] cpu) (zeros [1; 3; 3; 128] cpu) 1 2 3
           reference_LayerNorm reference_SequenceWeight
           reference_TransformerConv defaults_positive);
    try reflexivity; try lia; discriminate.
Defined.

(** C1, as the specification states it, fails: the shape of [msa] alone
    does not make the call return.  With [msa] of shape
    (1, 2, 3, node_dim_in) and a one-hot encoding of 20 channels the call
    raises in [embed_x]. *)
Lemma forward_batch_counterexample :
  shape (zeros [1; 2; 3; 64] cpu) = [1; 2; 3; node_dim_in defaults] /\
  exists msg,
    forward reference_externals
            (transformer_to cpu (module_to cpu (InitStr_Network_init defaults zero_weights)))
            (zeros [1; 3; 20] cpu) (mk_tensor [1; 3] cpu [7; 8; 10]%Z)
            (zeros [1; 2; 3; 64] cpu) (zeros [1; 3; 3; 128] cpu)
    = Raise (RuntimeError msg).
Proof.
  split; [ reflexivity | ].
  apply (forward_wrong_channels reference_externals reference_LayerNorm
           reference_SequenceWeight defaults zero_weights cpu cpu
           (zeros [1; 3; 20] cpu) (mk_tensor [1; 3] cpu [7; 8; 10]%Z)
           (zeros [1; 2; 3; 64] cpu) (zeros [1; 3; 3; 128] cpu) 1 2 3 20);
    try reflexivity; lia.
Qed.

(** C6.  A call of [forward] that returns has built its graph with
    [make_graph] from tensors of this call and has run the transformer on
    it; the module it leaves behind is the module it found with the
    transformer moved to the fallback device, and no attribute of it holds
    a graph that was not in that attribute before the call. *)
Theorem forward_discards_graph (ext : externals) (self self' : module)
    (seq1hot : tensor float) (idx : tensor Z) (msa pair xyz : tensor float) :
  forward ext self seq1hot idx msa pair = Ok (self', xyz) ->
  (exists node emb G Gout fb tr,
      make_graph node idx emb = Ok G /\
      submodule self "transformer" = Ok tr /\
      call_graph ext (layer_to fb tr) G = Ok Gout /\
      self' = setattr self "transformer" (Submodule (layer_to fb tr))) /\
  (forall name G', getattr self' name = Ok (Graph G') ->
                   getattr self name = Ok (Graph G')).
Proof.
  intros H.
  destruct (forward_inv ext self self' seq1hot idx msa pair xyz H)
    as (dev & fb & node & emb & G & Gout & tr & B & N & L
        & _ & _ & _ & _ & HG & Htr & HGout & -> & _).
  split; [ exists node, emb, G, Gout, fb, tr; now repeat split | ].
  intros name G' Hget.
  destruct (String.eqb_spec name "transformer") as [-> | Hne].
  - rewrite getattr_setattr_eq in Hget. discriminate.
  - now rewrite getattr_setattr_ne in Hget.
Qed.

(** C6, for the default network on the CPU: the call returns and leaves no
    graph in any attribute. *)
Lemma forward_discards_graph_witness :
  exists self' xyz,
    forward reference_externals
            (transformer_to cpu (module_to cpu (InitStr_Network_init defaults zero_weights)))
            (zeros [1; 3; 21] cpu) (mk_tensor [1; 3] cpu [7; 8; 10]%Z)
            (zeros [1; 2; 3; 64] cpu) (zeros [1; 3; 3; 128] cpu)
    = Ok (self', xyz) /\
    forall name G', getattr self' name <> Ok (Graph G').
Proof.
  destruct (forward_run reference_externals reference_LayerNorm reference_SequenceWeight
              reference_TransformerConv defaults zero_weights cpu cpu
              (zeros [1; 3; 21] cpu) (mk_tensor [1; 3] cpu [7; 8; 10]%Z)
              (zeros [1; 2; 3; 64] cpu) (zeros [1; 3; 3; 128] cpu) 1 2 3
              defaults_positive ltac:(discriminate) ltac:(discriminate))
    as (fb & node & emb & G & E & Gout & _ & _ & _ & _ & _ & _ & _ & _ & Hrun);
    try reflexivity; try lia.
  do 2 eexists. split; [ exact Hrun | ].
  intros name G' Hget.
  apply (proj2 (forward_discards_graph _ _ _ _ _ _ _ _ Hrun)) in Hget.
  cbn [transformer_to module_to InitStr_Network_init map getattr setattr String.eqb
       Ascii.eqb Bool.eqb] in Hget.
  cbn [getattr] in Hget.
  repeat match type of Hget with
         | (if ?c then _ else _) = _ => destruct c; [ discriminate | ]
         end.
  discriminate.
Defined.

(** C8, as the code has it.  On a network built by [__init__] with positive
    widths and at least one head, placed on a device [d] other than [meta]
    (where its transformer has not been placed either), with a well-shaped
    non-empty batch on [d], [forward] returns its result
    on [d], and the graph it builds with [make_graph] from the embedded
    features of the batch (which are on [d]) is placed as follows.  If [d]
    is not an MPS device, the graph stays on [d] and the transformer is on
    [d] after the call, so a network that was wholly on [d] is left as it
    was.  If [d] is an MPS device, the graph is built on the CPU and the
    parameters of the transformer are moved to the CPU. *)
Theorem forward_moves_only_for_mps (ext : externals) (hp : hyperparameters)
    (w : weights) (d dt : Device.device)
    (seq1hot : tensor float) (idx : tensor Z) (msa pair : tensor float) (B N L : nat) :
  LayerNorm_contract ext ->
  SequenceWeight_contract ext ->
  TransformerConv_contract ext ->
  positive_dimensions hp ->
  type d <> "meta" -> type dt <> "meta" ->
  shape msa = [B; N; L; node_dim_in hp] ->
  shape seq1hot = [B; L; 21] ->
  shape idx = [B; L] ->
  shape pair = [B; L; L; edge_dim_in hp] ->
  device msa = d -> device seq1hot = d -> device idx = d -> device pair = d ->
  0 < B -> 0 < N -> 0 < L ->
  exists node emb G self' xyz,
    graph_features ext (transformer_to dt (module_to d (InitStr_Network_init hp w)))
                   seq1hot idx msa pair = Ok (node, emb) /\
    device node = d /\ device emb = d /\
    make_graph node idx emb = Ok G /\
    forward ext (transformer_to dt (module_to d (InitStr_Network_init hp w)))
            seq1hot idx msa pair = Ok (self', xyz) /\
    device xyz = d /\
    (type d <> "mps" ->
       device (x G) = d /\ device (edge_index G) = d /\ device (edge_attr G) = d /\
       self' = transformer_to d (module_to d (InitStr_Network_init hp w)) /\
       (dt = d ->
        self' = transformer_to dt (module_to d (InitStr_Network_init hp w)))) /\
    (type d = "mps" ->
       device (x G) = cpu /\ device (edge_index G) = cpu /\ device (edge_attr G) = cpu /\
       self' = transformer_to cpu (module_to d (InitStr_Network_init hp w))).
Proof.
  intros HLN HSW HTC Hhp Hmeta Hdt Hmsa Hseq Hidx Hpair Dmsa Dseq Didx Dpair HB HN HL.
  destruct (forward_run ext HLN HSW HTC hp w d dt seq1hot idx msa pair B N L
              Hhp Hmeta Hdt Hmsa Hseq Hidx Hpair Dmsa Dseq Didx Dpair HB HN HL)
    as (fb & node & emb & G & E & Gout & Hfb & Hfeat & Dnode & Demb & HG & Hvalid
        & _ & _ & Hrun).
  destruct Hvalid as (_ & Dx & _ & Dei & _ & _ & Dea).
  assert (Hself : forall fb', transformer_to fb'
                    (transformer_to dt (module_to d (InitStr_Network_init hp w)))
                  = transformer_to fb' (module_to d (InitStr_Network_init hp w))).
  { intros fb'. unfold transformer_to, module_to, InitStr_Network_init.
    cbn [map getattr setattr String.eqb Ascii.eqb Bool.eqb layer_to].
    now rewrite !map_map. }
  rewrite Hself in Hrun. rewrite fallback_total in Hfb. injection Hfb as Hfb.
  exists node, emb, G. do 2 eexists.
  split; [ exact Hfeat | ].
  split; [ exact Dnode | ]. split; [ exact Demb | ]. split; [ exact HG | ].
  split; [ exact Hrun | ]. split; [ reflexivity | ].
  split; intros Hty.
  - apply String.eqb_neq in Hty. rewrite Hty in Hfb. subst fb.
    repeat split; try assumption. now intros ->.
  - apply String.eqb_eq in Hty. rewrite Hty in Hfb. subst fb.
    now repeat split.
Qed.

(** C8, on an MPS device. *)
Lemma forward_moves_only_for_mps_witness :
  exists node emb G self' xyz,
    graph_features reference_externals
            (transformer_to mps (module_to mps (InitStr_Network_init defaults zero_weights)))
            (zeros [1; 3; 21] mps) (mk_tensor [1; 3] mps [7; 8; 10]%Z)
            (zeros [1; 2; 3; 64] mps) (zeros [1; 3; 3; 128] mps)
    = Ok (node, emb) /\
    device node = mps /\ device emb = mps /\
    make_graph node (mk_tensor [1; 3] mps [7; 8; 10]%Z) emb = Ok G /\
    forward reference_externals
            (transformer_to mps (module_to mps (InitStr_Network_init defaults zero_weights)))
            (zeros [1; 3; 21] mps) (mk_tensor [1; 3] mps [7; 8; 10]%Z)
            (zeros [1; 2; 3; 64] mps) (zeros [1; 3; 3; 128] mps)
    = Ok (self', xyz) /\
    device xyz = mps /\
    device (x G) = cpu /\ device (edge_index G) = cpu /\ device (edge_attr G) = cpu /\
    self' = transformer_to cpu (module_to mps (InitStr_Network_init defaults zero_weights)).
Proof.
  destruct (forward_moves_only_for_mps reference_externals defaults zero_weights
              mps mps (zeros [1; 3; 21] mps) (mk_tensor [1; 3] mps [7; 8; 10]%Z)
              (zeros [1; 2; 3; 64] mps) (zeros [1; 3; 3; 128] mps) 1 2 3
              reference_LayerNorm reference_SequenceWeight reference_TransformerConv
              defaults_positive ltac:(discriminate) ltac:(discriminate))
    as (node & emb & G & self' & xyz & Hfeat & Dnode & Demb & HG & Hrun & Dxyz & _ & Hmps);
    try reflexivity; try lia.
  destruct (Hmps eq_refl) as (Dx & Dei & Dea & Hself).
  exists node, emb, G, self', xyz. now repeat split.
Defined.

(** C8, as the specification states it, fails: on an MPS device
    [make_graph] returns the node features on the CPU, and [forward] leaves
    the parameters of the transformer on the CPU. *)
Lemma forward_moves_nothing_counterexample :
  (exists G,
      make_graph (zeros [1; 2; 4] mps) (mk_tensor [1; 2] mps [3; 4]%Z)
                 (zeros [1; 2; 2; 5] mps) = Ok G /\
      device (zeros [1; 2; 4] mps) = mps /\ device (x G) = cpu) /\
  (exists self' xyz,
      forward reference_externals
              (transformer_to mps (module_to mps (InitStr_Network_init defaults zero_weights)))
              (zeros [1; 3; 21] mps) (mk_tensor [1; 3] mps [7; 8; 10]%Z)
              (zeros [1; 2; 3; 64] mps) (zeros [1; 3; 3; 128] mps)
      = Ok (self', xyz) /\
      module_parameters
        (transformer_to mps (module_to mps (InitStr_Network_init defaults zero_weights)))
      = repeat mps 15 /\
      module_parameters self' = repeat mps 5 ++ repeat cpu 9 ++ [mps]) /\
  ~ moves_nothing reference_externals.
Proof.
  assert (Hmg : exists G,
      make_graph (zeros [1; 2; 4] mps) (mk_tensor [1; 2] mps [3; 4]%Z)
                 (zeros [1; 2; 2; 5] mps) = Ok G /\
      device (zeros [1; 2; 4] mps) = mps /\ device (x G) = cpu).
  { destruct (make_graph_full (zeros [1; 2; 4] mps) (mk_tensor [1; 2] mps [3; 4]%Z)
                (zeros [1; 2; 2; 5] mps) 1 2 [4] [5]
                eq_refl eq_refl eq_refl ltac:(lia)
              ltac:(discriminate) ltac:(discriminate) ltac:(discriminate))
      as (G & Hrun & Hx & _).
    exists G. split; [ exact Hrun | ]. split; [ reflexivity | ]. now rewrite Hx. }
  split; [ exact Hmg | ]. split.
  - destruct (forward_run reference_externals reference_LayerNorm reference_SequenceWeight
                reference_TransformerConv defaults zero_weights mps mps
                (zeros [1; 3; 21] mps) (mk_tensor [1; 3] mps [7; 8; 10]%Z)
                (zeros [1; 2; 3; 64] mps) (zeros [1; 3; 3; 128] mps) 1 2 3
                defaults_positive ltac:(discriminate) ltac:(discriminate))
      as (fb & node & emb & G & E & Gout & Hfb & _ & _ & _ & _ & _ & _ & _ & Hrun);
      try reflexivity; try lia.
    rewrite fallback_total in Hfb. injection Hfb as <-.
    do 2 eexists. split; [ exact Hrun | ].
    split; reflexivity.
  - intros [Hno _]. destruct Hmg as (G & Hrun & Hd & Hx).
    apply Hno in Hrun as [Hx' _]. rewrite Hx, Hd in Hx'. discriminate.
Qed.

End NetworkFacts.

(** ** Where the failures come from *)

Module FailureFacts.

Import Device Decorators Torch InitStrGenerator Failures HelperFacts TorchFacts GraphFacts.














End FailureFacts.

(** ** The build descriptor *)

Module SetupFacts.

Import Setup.

Lemma split_nonempty (c : ascii) (s : string) : split c s <> [].
Proof.
  destruct s as [| a s]; simpl; [ discriminate | ].
  destruct (Ascii.eqb a c); [ discriminate | ].
  destruct (split c s); discriminate.
Qed.

(** A string without the separator is one that [split] leaves whole. *)
Lemma split_whole_cons (c a : ascii) (s : string) :
  split c (String a s) = [String a s] <-> Ascii.eqb a c = false /\ split c s = [s].
Proof.
  simpl. destruct (Ascii.eqb a c).
  - split; [ | intros [? _] ]; discriminate.
  - pose proof (split_nonempty c s) as Hne.
    destruct (split c s) as [| h t]; [ contradiction | ].
    split.
    + intros H. injection H as -> ->. now split.
    + intros [_ H]. injection H as -> ->. reflexivity.
Qed.

Lemma split_app_sep (c : ascii) (a b : string) :
  split c a = [a] -> split c (a ++ String c b)%string = a :: split c b.
Proof.
  induction a as [| x a IH]; intros H.
  - simpl. now rewrite Ascii.eqb_refl.
  - apply split_whole_cons in H as [Hx Ha].
    change (String x a ++ String c b)%string with (String x (a ++ String c b)%string).
    cbn [split]. rewrite Hx, (IH Ha). reflexivity.
Qed.

Lemma split_app_whole (c : ascii) (a b : string) :
  split c a = [a] -> split c b = [b] -> split c (a ++ b)%string = [(a ++ b)%string].
Proof.
  induction a as [| x a IH]; intros Ha Hb; [ exact Hb | ].
  apply split_whole_cons in Ha as [Hx Ha].
  change (String x a ++ b)%string with (String x (a ++ b)%string).
  apply split_whole_cons. split; [ exact Hx | now apply IH ].
Qed.

Lemma split_join (c : ascii) (parts : list string) :
  parts <> [] -> Forall (fun p => split c p = [p]) parts ->
  split c (join c parts) = parts.
Proof.
  induction parts as [| p rest IH]; intros Hne Hall; [ contradiction | ].
  inversion Hall as [| p' rest' Hp Hrest]; subst.
  destruct rest as [| q rest]; [ exact Hp | ].
  change (join c (p :: q :: rest)) with (p ++ String c (join c (q :: rest)))%string.
  rewrite split_app_sep by exact Hp.
  rewrite IH by (discriminate || assumption). reflexivity.
Qed.

Lemma replace_whole (c new : ascii) (s : string) :
  split c s = [s] -> replace c new s = s.
Proof.
  induction s as [| a s IH]; intros H; [ reflexivity | ].
  apply split_whole_cons in H as [Ha Hs].
  simpl. now rewrite Ha, (IH Hs).
Qed.

Lemma replace_app (c new : ascii) (a b : string) :
  replace c new (a ++ b)%string = (replace c new a ++ replace c new b)%string.
Proof. induction a as [| x a IH]; simpl; [ reflexivity | now rewrite IH ]. Qed.

(** Replacing the separator in a joined path joins with the new
    character. *)
Lemma replace_join (c new : ascii) (parts : list string) :
  Forall (fun p => split c p = [p]) parts ->
  replace c new (join c parts) = join new parts.
Proof.
  induction parts as [| p rest IH]; intros Hall; [ reflexivity | ].
  inversion Hall as [| p' rest' Hp Hrest]; subst.
  destruct rest as [| q rest]; [ now apply replace_whole | ].
  change (join c (p :: q :: rest)) with (p ++ String c (join c (q :: rest)))%string.
  change (join new (p :: q :: rest)) with (p ++ String new (join new (q :: rest)))%string.
  rewrite replace_app, (replace_whole _ _ _ Hp). cbn [replace].
  now rewrite Ascii.eqb_refl, (IH Hrest).
Qed.

Lemma normpath_rev_valid (done parts : list string) :
  Forall valid_name parts -> normpath_rev done parts = rev done ++ parts.
Proof.
  revert done. induction parts as [| c rest IH]; intros done Hall; simpl.
  - now rewrite app_nil_r.
  - inversion Hall as [| c' rest' (H0 & H1 & H2 & _) Hrest]; subst.
    rewrite (proj2 (String.eqb_neq c "") H0), (proj2 (String.eqb_neq c ".") H1),
            (proj2 (String.eqb_neq c "..") H2).
    cbn [orb]. rewrite IH by assumption. cbn [rev]. now rewrite <- app_assoc.
Qed.

Lemma common_prefix_length_app (pre a b : list string) :
  common_prefix_length (pre ++ a) (pre ++ b)
  = length pre + common_prefix_length a b.
Proof.
  induction pre as [| x pre IH]; simpl; [ reflexivity | ].
  now rewrite String.eqb_refl, IH.
Qed.

Lemma common_prefix_length_prefix (a b : list string) :
  common_prefix_length a (a ++ b) = length a.
Proof.
  rewrite <- (app_nil_r a) at 1. rewrite common_prefix_length_app.
  destruct b; simpl; lia.
Qed.

Lemma valid_lie_learn : valid_name "lie_learn".
Proof. repeat split; discriminate. Qed.

(** The path of a file below [lie_learn], relative to [lie_learn]. *)
Lemma relpath_below (cwd rest : list string) :
  Forall valid_name cwd -> Forall valid_name rest -> rest <> [] ->
  relpath cwd (join sep ("lie_learn" :: rest)) "lie_learn" = join sep rest.
Proof.
  intros Hcwd Hrest Hne. unfold relpath, abspath.
  assert (Hwhole : Forall (fun p => split sep p = [p]) ("lie_learn" :: rest)).
  { constructor; [ reflexivity | ].
    eapply Forall_impl; [ | exact Hrest ]. now intros c (_ & _ & _ & H). }
  rewrite split_join by (discriminate || exact Hwhole).
  change (split sep "lie_learn") with ["lie_learn"].
  rewrite !normpath_rev_valid
    by (apply Forall_app; split;
        [ assumption | repeat constructor; (apply valid_lie_learn || assumption) ]).
  cbn [rev app].
  change ("lie_learn" :: rest) with (["lie_learn"] ++ rest).
  rewrite (app_assoc cwd). set (start := cwd ++ ["lie_learn"]).
  rewrite !common_prefix_length_prefix, Nat.sub_diag. cbn [repeat app].
  rewrite skipn_app, skipn_all, Nat.sub_diag. cbn [skipn app].
  destruct rest; [ contradiction | reflexivity ].
Qed.

Lemma length_append (a b : string) :
  String.length (a ++ b) = String.length a + String.length b.
Proof. induction a as [| x a IH]; simpl; [ reflexivity | now rewrite IH ]. Qed.

Lemma append_assoc (a b c : string) : ((a ++ b) ++ c = a ++ (b ++ c))%string.
Proof. induction a as [| x a IH]; simpl; [ reflexivity | now rewrite IH ]. Qed.

Lemma get_append_head (a : string) (x : ascii) (b : string) :
  String.get (String.length a) (a ++ String x b) = Some x.
Proof. induction a as [| y a IH]; simpl; [ reflexivity | exact IH ]. Qed.

Lemma substring_append_l (a b : string) :
  String.substring 0 (String.length a) (a ++ b) = a.
Proof.
  induction a as [| x a IH]; simpl.
  - now destruct b.
  - now rewrite IH.
Qed.

Lemma substring_whole (b : string) : String.substring 0 (String.length b) b = b.
Proof. induction b as [| x b IH]; simpl; [ reflexivity | now rewrite IH ]. Qed.

Lemma substring_append_r (a b : string) :
  String.substring (String.length a) (String.length b) (a ++ b) = b.
Proof.
  induction a as [| x a IH]; simpl; [ apply substring_whole | exact IH ].
Qed.

Lemma rfind_from_app (c : ascii) (a b : string) (i : nat) (last : option nat) :
  rfind_from c (a ++ b) i last
  = rfind_from c b (i + String.length a) (rfind_from c a i last).
Proof.
  revert i last. induction a as [| x a IH]; intros i last; simpl.
  - now rewrite Nat.add_0_r.
  - rewrite IH. f_equal. lia.
Qed.

Lemma rfind_from_whole (c : ascii) (s : string) (i : nat) (last : option nat) :
  split c s = [s] -> rfind_from c s i last = last.
Proof.
  revert i last. induction s as [| x s IH]; intros i last H; [ reflexivity | ].
  apply split_whole_cons in H as [Hx Hs]. simpl. now rewrite Hx, IH.
Qed.

(** The directory part of a joined path: empty, or ending in a
    separator. *)
Lemma join_last (dirs : list string) :
  exists pre,
    (forall x, join sep (dirs ++ [x]) = (pre ++ x)%string) /\
    (pre = EmptyString \/ exists pre', pre = (pre' ++ String sep EmptyString)%string).
Proof.
  induction dirs as [| d dirs (pre & Hjoin & Hend)].
  - exists EmptyString. split; [ reflexivity | now left ].
  - exists (d ++ String sep pre)%string. split.
    + intros x. cbn [app]. rewrite append_assoc. cbn [append].
      rewrite <- Hjoin. now destruct dirs.
    + right. destruct Hend as [-> | (pre' & ->)].
      * now exists d.
      * exists (d ++ String sep pre')%string. now rewrite append_assoc.
Qed.

(** [splitext] takes the extension [.pyx] off a file whose name starts
    with a character other than a dot. *)
Lemma splitext_pyx (pre stem : string) :
  (pre = EmptyString \/ exists pre', pre = (pre' ++ String sep EmptyString)%string) ->
  (exists a rest, stem = String a rest /\ a <> extsep) ->
  split sep stem = [stem] ->
  splitext (pre ++ (stem ++ ".pyx"))%string = ((pre ++ stem)%string, ".pyx").
Proof.
  intros Hpre (a & rest & Hstem & Ha) Hwhole. unfold splitext, rfind.
  assert (Hdot : rfind_from extsep (pre ++ (stem ++ ".pyx")) 0 None
                 = Some (String.length (pre ++ stem))).
  { rewrite <- append_assoc, rfind_from_app. reflexivity. }
  assert (Hsep : match rfind_from sep (pre ++ (stem ++ ".pyx")) 0 None with
                 | Some sepIndex => S sepIndex
                 | None => 0
                 end = String.length pre).
  { rewrite rfind_from_app.
    rewrite rfind_from_whole by (apply split_app_whole; [ exact Hwhole | reflexivity ]).
    destruct Hpre as [-> | (pre' & ->)]; [ reflexivity | ].
    rewrite rfind_from_app. cbn [rfind_from]. rewrite Ascii.eqb_refl.
    rewrite length_append. simpl. lia. }
  rewrite Hdot, Hsep, length_append.
  destruct (Nat.leb_spec (String.length pre) (String.length pre + String.length stem));
    [ | lia ].
  replace (String.length pre + String.length stem - String.length pre)
    with (String.length stem) by lia.
  rewrite Hstem at 1. cbn [String.length seq existsb].
  rewrite Hstem at 1. change (String a rest ++ ".pyx")%string
    with (String a (rest ++ ".pyx"))%string.
  rewrite get_append_head.
  rewrite (proj2 (Ascii.eqb_neq a extsep) Ha). cbn [negb orb andb].
  rewrite <- length_append, <- append_assoc.
  rewrite substring_append_l. f_equal.
  rewrite (length_append (pre ++ stem)).
  replace (String.length (pre ++ stem) + String.length ".pyx" - String.length (pre ++ stem))
    with (String.length ".pyx") by lia.
  apply substring_append_r.
Qed.

Lemma extension_name (cwd : list string) (numpy_include : string)
    (dirs : list string) (stem : string) :
  Forall valid_name cwd -> Forall valid_name dirs ->
  split sep stem = [stem] ->
  (exists a rest, stem = String a rest /\ a <> extsep) ->
  name (extension cwd numpy_include (pyx_path dirs stem))
  = ("lie_learn." ++ replace sep "."%char (join sep (dirs ++ [stem])))%string.
Proof.
  intros Hcwd Hdirs Hwhole Hstem. unfold extension, pyx_path. cbn [name].
  assert (Hfile : valid_name (stem ++ ".pyx")).
  { destruct Hstem as (a & rest & -> & Ha). unfold valid_name.
    repeat split; try discriminate.
    - intros H. injection H as -> _. now apply Ha.
    - intros H. injection H as -> _. now apply Ha.
    - apply split_app_whole; [ exact Hwhole | reflexivity ]. }
  rewrite relpath_below;
    [ | exact Hcwd | apply Forall_app; split; [ exact Hdirs | now constructor ]
      | now destruct dirs ].
  destruct (join_last dirs) as (pre & Hjoin & Hpre).
  rewrite (Hjoin (stem ++ ".pyx")%string), splitext_pyx by assumption.
  cbn [fst]. now rewrite <- Hjoin.
Qed.

Example splitext_examples :
  splitext "groups/SO3_fast.pyx" = ("groups/SO3_fast", ".pyx") /\
  splitext "a.b/c" = ("a.b/c", "") /\
  splitext "dir/.hidden" = ("dir/.hidden", "") /\
  splitext "x.tar.gz" = ("x.tar", ".gz").
Proof. repeat split. Qed.

Example relpath_examples :
  relpath ["home"; "user"] "lie_learn/groups/SO3_fast.pyx" "lie_learn"
  = "groups/SO3_fast.pyx" /\
  relpath ["home"; "user"] "./lie_learn//groups/../x.pyx" "lie_learn" = "x.pyx" /\
  relpath ["home"; "user"] "other/x.pyx" "lie_learn" = "../other/x.pyx".
Proof. repeat split. Qed.

(** C7.  The build descriptor makes one extension per file in the list
    [glob] returns, in order, with that file as its only source; the
    extension of [lie_learn/dirs.../stem.pyx] is named [lie_learn.] followed
    by the path [dirs.../stem] (relative to [lie_learn], extension off) with
    every separator replaced by a dot; and all extensions have the same
    include directories, libraries, compile flags and link flags. *)
Theorem extensions_one_per_pyx_file (cwd : list string) (numpy_include : string)
    (pyx_files : list string) :
  Forall valid_name cwd ->
  map sources (extensions cwd numpy_include pyx_files)
  = map (fun pyx_file => [pyx_file]) pyx_files /\
  (forall k dirs stem,
      nth_error pyx_files k = Some (pyx_path dirs stem) ->
      Forall valid_name dirs ->
      split sep stem = [stem] ->
      (exists a rest, stem = String a rest /\ a <> extsep) ->
      exists e,
        nth_error (extensions cwd numpy_include pyx_files) k = Some e /\
        sources e = [pyx_path dirs stem] /\
        name e = ("lie_learn." ++ replace sep "."%char (join sep (dirs ++ [stem])))%string /\
        name e = ("lie_learn." ++ join "."%char (dirs ++ [stem]))%string) /\
  (forall e1 e2,
      In e1 (extensions cwd numpy_include pyx_files) ->
      In e2 (extensions cwd numpy_include pyx_files) ->
      include_dirs e1 = include_dirs e2 /\ libraries e1 = libraries e2 /\
      extra_compile_args e1 = extra_compile_args e2 /\
      extra_link_args e1 = extra_link_args e2).
Proof.
  intros Hcwd. unfold extensions. split; [ | split ].
  - now rewrite map_map.
  - intros k dirs stem Hk Hdirs Hwhole Hstem.
    exists (extension cwd numpy_include (pyx_path dirs stem)).
    split; [ now rewrite nth_error_map, Hk | ].
    split; [ reflexivity | ].
    rewrite extension_name by assumption. split; [ reflexivity | ].
    f_equal. apply replace_join.
    apply Forall_app. split.
    + eapply Forall_impl; [ | exact Hdirs ]. now intros c (_ & _ & _ & H).
    + now constructor.
  - intros e1 e2 H1 H2.
    apply in_map_iff in H1 as (f1 & <- & _).
    apply in_map_iff in H2 as (f2 & <- & _).
    now repeat split.
Qed.

(** C7, for two Cython sources of [lie_learn]. *)
Lemma extensions_one_per_pyx_file_witness :
  let pyx_files :=
    ["lie_learn/representations/SO3/pinchon_hoggan/pinchon_hoggan.pyx";
     "lie_learn/groups/SO3_fast.pyx"] in
  let exts := extensions ["home"; "user"; "RoseTTAFold"]
                         "/usr/lib/python3/site-packages/numpy/core/include"
                         pyx_files in
  map sources exts = map (fun pyx_file => [pyx_file]) pyx_files /\
  map name exts = ["lie_learn.representations.SO3.pinchon_hoggan.pinchon_hoggan";
                   "lie_learn.groups.SO3_fast"].
Proof.
  intros pyx_files exts.
  destruct (extensions_one_per_pyx_file ["home"; "user"; "RoseTTAFold"]
              "/usr/lib/python3/site-packages/numpy/core/include" pyx_files)
    as (Hsources & _).
  - repeat constructor; discriminate.
  - split; [ exact Hsources | reflexivity ].
Defined.

End SetupFacts.

(** ** More about make_graph *)

Module GraphExtras.

Import Device Torch InitStrGenerator Pairs TorchFacts SeqsepFacts GraphFacts.

Lemma in_linked_pairs (idx : tensor Z) (B L : nat) (ix : list nat) :
  In ix (linked_pairs idx B L) <->
  exists b i j, ix = [b; i; j] /\ b < B /\ i < L /\ j < L /\
                get 0%Z idx [b; i] <> get 0%Z idx [b; j].
Proof.
  unfold linked_pairs. rewrite filter_In, in_indices. split.
  - intros [Hin Hc].
    inversion Hin as [| b n0 ix1 sh1 Hb H1' ]; subst.
    inversion H1' as [| i n1 ix2 sh2 Hi H2' ]; subst.
    inversion H2' as [| j n2 ix3 sh3 Hj H3' ]; subst.
    inversion H3'; subst.
    exists b, i, j. repeat split; try assumption.
    unfold linked in Hc. cbn [nth] in Hc.
    intros Heq. rewrite Heq, Z.eqb_refl in Hc. discriminate.
  - intros (b & i & j & -> & Hb & Hi & Hj & Hne).
    split; [ repeat constructor; assumption | ].
    unfold linked. cbn [nth]. now rewrite (proj2 (Z.eqb_neq _ _) Hne).
Qed.

(** X1.  For a well-shaped, non-empty batch of tensors off the [meta]
    device whose index differences fit in 64 bits, the edges of the graph are exactly the
    pairs (b*L+i, b*L+j) of residues of one chain whose residue indices
    differ: every such pair is linked, whatever its separation. *)
Theorem make_graph_links_all_pairs (node : tensor float) (idx : tensor Z)
    (emb : tensor float) (B L : nat) (nrest erest : list nat) :
  shape idx = [B; L] ->
  shape emb = B :: L :: L :: erest ->
  shape node = B :: L :: nrest ->
  0 < B * L ->
  type (device node) <> "meta" ->
  type (device idx) <> "meta" ->
  type (device emb) <> "meta" ->
  separations_fit idx B L ->
  exists G,
    make_graph node idx emb = Ok G /\
    forall s t,
      In (s, t) (edges G) <->
      exists b i j, b < B /\ i < L /\ j < L /\
                    s = node_id L b i /\ t = node_id L b j /\
                    get 0%Z idx [b; i] <> get 0%Z idx [b; j].
Proof.
  intros Hidx Hemb Hnode Hpos Mnode Hmeta Memb Hfit.
  destruct (make_graph_full node idx emb B L nrest erest Hidx Hemb Hnode Hpos
              Mnode Hmeta Memb)
    as (G & Hrun & _ & Hei & _).
  rewrite (connected_linked idx B L Hfit) in Hei.
  exists G. split; [ exact Hrun | ].
  intros s t. rewrite (edges_of_pairs G L _ _ Hei), in_map_iff. split.
  - intros (ix & Heq & Hix).
    apply in_linked_pairs in Hix as (b & i & j & -> & Hb & Hi & Hj & Hne).
    cbn [nth] in Heq. injection Heq as <- <-.
    exists b, i, j. now repeat split.
  - intros (b & i & j & Hb & Hi & Hj & -> & -> & Hne).
    exists [b; i; j]. split; [ reflexivity | ].
    apply in_linked_pairs. exists b, i, j. now repeat split.
Qed.

(** X1, for one chain whose residues are numbered 7, 9, 9. *)
Lemma make_graph_links_all_pairs_witness :
  exists G,
    make_graph (zeros [1; 3; 4] cpu) (mk_tensor [1; 3] cpu [7; 9; 9]%Z)
               (zeros [1; 3; 3; 5] cpu) = Ok G /\
    forall s t,
      In (s, t) (edges G) <->
      exists b i j, b < 1 /\ i < 3 /\ j < 3 /\
                    s = node_id 3 b i /\ t = node_id 3 b j /\
                    get 0%Z (mk_tensor [1; 3] cpu [7; 9; 9]%Z) [b; i]
                    <> get 0%Z (mk_tensor [1; 3] cpu [7; 9; 9]%Z) [b; j].
Proof.
  apply (make_graph_links_all_pairs (zeros [1; 3; 4] cpu)
           (mk_tensor [1; 3] cpu [7; 9; 9]%Z) (zeros [1; 3; 3; 5] cpu) 1 3 [4] [5]
           eq_refl eq_refl eq_refl ltac:(lia)
           ltac:(discriminate) ltac:(discriminate) ltac:(discriminate) fit_7_9_9).
Defined.

(** Counting the multi-indices of a shape that satisfy a test, axis by
    axis. *)
Lemma length_filter_flat_map {X Y : Type} (P : Y -> bool) (f : X -> list Y) (l : list X) :
  length (List.filter P (flat_map f l))
  = list_sum (map (fun x => length (List.filter P (f x))) l).
Proof.
  induction l as [| a l IH]; [ reflexivity | ].
  cbn [flat_map map].
  change (list_sum (?a :: ?l)) with (a + list_sum l).
  now rewrite filter_app, length_app, IH.
Qed.

Lemma length_filter_map {X Y : Type} (P : Y -> bool) (f : X -> Y) (l : list X) :
  length (List.filter P (map f l)) = length (List.filter (fun a => P (f a)) l).
Proof.
  induction l as [| a l IH]; [ reflexivity | ].
  cbn [map List.filter]. destruct (P (f a)); cbn [length]; now rewrite IH.
Qed.

Lemma length_filter_indices (P : list nat -> bool) (n : nat) (sh : list nat) :
  length (List.filter P (indices (n :: sh)))
  = list_sum (map (fun k => length (List.filter (fun ix => P (k :: ix)) (indices sh)))
                  (seq 0 n)).
Proof.
  cbn [indices]. rewrite length_filter_flat_map.
  f_equal. apply map_ext. intros k. apply length_filter_map.
Qed.

Lemma list_sum_const {X : Type} (f : X -> nat) (c : nat) (l : list X) :
  (forall a, In a l -> f a = c) -> list_sum (map f l) = length l * c.
Proof.
  induction l as [| a l IH]; intros H; [ reflexivity | ].
  cbn [map length].
  change (list_sum (f a :: map f l)) with (f a + list_sum (map f l)).
  rewrite (H a) by now left.
  rewrite IH by (intros; apply H; now right). lia.
Qed.

Lemma count_others (i n s : nat) :
  list_sum (map (fun j => if negb (i =? j) then 1 else 0) (seq s n))
  = if (s <=? i) && (i <? s + n) then n - 1 else n.
Proof.
  revert s. induction n as [| n IH]; intros s.
  - destruct ((s <=? i) && (i <? s + 0)); reflexivity.
  - cbn [seq map].
    change (list_sum (?a :: ?l)) with (a + list_sum l). rewrite IH.
    destruct (Nat.eqb_spec i s) as [-> | Hne]; cbn [negb].
    + destruct (Nat.leb_spec (S s) s); [ lia | ].
      destruct (Nat.leb_spec s s); [ | lia ].
      destruct (Nat.ltb_spec s (s + S n)); [ | lia ]. cbn [andb]. lia.
    + destruct (Nat.leb_spec (S s) i), (Nat.leb_spec s i),
               (Nat.ltb_spec i (S s + n)), (Nat.ltb_spec i (s + S n));
        cbn [andb]; lia.
Qed.

Lemma length_linked_pairs (idx : tensor Z) (B L : nat) :
  distinct_indices idx B L ->
  length (linked_pairs idx B L) = B * L * (L - 1).
Proof.
  intros Hdist. unfold linked_pairs.
  rewrite length_filter_indices.
  rewrite (list_sum_const _ (L * (L - 1))); [ rewrite length_seq; lia | ].
  intros b Hb. apply in_seq in Hb.
  rewrite length_filter_indices.
  rewrite (list_sum_const _ (L - 1)); [ now rewrite length_seq | ].
  intros i Hi. apply in_seq in Hi.
  rewrite length_filter_indices.
  rewrite (map_ext_in _ (fun j => if negb (i =? j) then 1 else 0)).
  - rewrite count_others.
    destruct (Nat.leb_spec 0 i); [ | lia ].
    destruct (Nat.ltb_spec i (0 + L)); [ reflexivity | lia ].
  - intros j Hj. apply in_seq in Hj. cbn [indices List.filter].
    unfold linked. cbn [nth].
    destruct (Nat.eqb_spec i j) as [-> | Hne]; cbn [negb].
    + now rewrite Z.eqb_refl.
    + destruct (Z.eqb_spec (get 0%Z idx [b; i]) (get 0%Z idx [b; j])) as [Heq | _];
        [ | reflexivity ].
      exfalso. apply Hne. apply (Hdist b i j); lia || assumption.
Qed.

(** X2.  When the residue indices of every chain are pairwise different and
    their differences fit in 64 bits, the graph of a well-shaped, non-empty
    batch of tensors off the [meta] device has B * L * (L - 1) edges: each
    chain is a complete directed graph. *)
Theorem make_graph_edge_count (node : tensor float) (idx : tensor Z)
    (emb : tensor float) (B L : nat) (nrest erest : list nat) :
  shape idx = [B; L] ->
  shape emb = B :: L :: L :: erest ->
  shape node = B :: L :: nrest ->
  0 < B * L ->
  type (device node) <> "meta" ->
  type (device idx) <> "meta" ->
  type (device emb) <> "meta" ->
  separations_fit idx B L ->
  distinct_indices idx B L ->
  exists G,
    make_graph node idx emb = Ok G /\
    length (edges G) = B * L * (L - 1) /\
    shape (edge_index G) = [2; B * L * (L - 1)] /\
    shape (edge_attr G) = B * L * (L - 1) :: erest.
Proof.
  intros Hidx Hemb Hnode Hpos Mnode Hmeta Memb Hfit Hdist.
  destruct (make_graph_full node idx emb B L nrest erest Hidx Hemb Hnode Hpos
              Mnode Hmeta Memb)
    as (G & Hrun & _ & Hei & Hea).
  rewrite (connected_linked idx B L Hfit) in Hei, Hea.
  exists G. split; [ exact Hrun | ].
  rewrite (edges_of_pairs G L _ _ Hei), length_map, Hei, Hea. cbn [shape].
  now rewrite (length_linked_pairs idx B L Hdist).
Qed.

(** X2, for two chains of three residues numbered 1, 2, 3 and 5, 7, 9. *)
Lemma make_graph_edge_count_witness :
  exists G,
    make_graph (zeros [2; 3; 4] cpu) (mk_tensor [2; 3] cpu [1; 2; 3; 5; 7; 9]%Z)
               (zeros [2; 3; 3; 5] cpu) = Ok G /\
    length (edges G) = 2 * 3 * (3 - 1) /\
    shape (edge_index G) = [2; 2 * 3 * (3 - 1)] /\
    shape (edge_attr G) = [2 * 3 * (3 - 1); 5].
Proof.
  apply (make_graph_edge_count (zeros [2; 3; 4] cpu)
           (mk_tensor [2; 3] cpu [1; 2; 3; 5; 7; 9]%Z) (zeros [2; 3; 3; 5] cpu)
           2 3 [4] [5] eq_refl eq_refl eq_refl ltac:(lia)
              ltac:(discriminate) ltac:(discriminate) ltac:(discriminate)).
  - intros b i j Hb Hi Hj.
    destruct b as [| [| b]]; [ | | lia ];
      (destruct i as [| [| [| i]]]; [ | | | lia ]);
      (destruct j as [| [| [| j]]]; [ | | | lia ]);
      vm_compute; reflexivity.
  - intros b i j Hb Hi Hj.
    destruct b as [| [| b]]; [ | | lia ];
      (destruct i as [| [| [| i]]]; [ | | | lia ]);
      (destruct j as [| [| [| j]]]; [ | | | lia ]);
      vm_compute; congruence.
Defined.

Lemma nth_flat_map_uniform {X Y : Type} (g : X -> list Y) (m : nat) (l : list X) :
  (forall a, length (g a) = m) ->
  forall k o a d, nth_error l k = Some a -> o < m ->
    nth (k * m + o) (flat_map g l) d = nth o (g a) d.
Proof.
  intros Hlen. induction l as [| a0 l IH]; intros k o a d Hk Ho.
  - destruct k; discriminate.
  - cbn [flat_map]. destruct k as [| k]; cbn [nth_error] in Hk.
    + injection Hk as ->. cbn [Nat.mul Nat.add].
      apply app_nth1. now rewrite Hlen.
    + rewrite app_nth2 by (rewrite Hlen; lia). rewrite Hlen.
      replace (S k * m + o - m) with (k * m + o) by lia.
      now apply IH.
Qed.

(** X3.  For a well-shaped, non-empty batch of tensors off the [meta]
    device whose index differences fit in 64 bits, edge number [k] of the
    graph is the [k]-th linked pair (b, i, j) in row-major order, and its
    attribute is the pair feature [emb[b, i, j]]. *)
Theorem make_graph_edge_attr (node : tensor float) (idx : tensor Z)
    (emb : tensor float) (B L : nat) (nrest erest : list nat) :
  shape idx = [B; L] ->
  shape emb = B :: L :: L :: erest ->
  shape node = B :: L :: nrest ->
  0 < B * L ->
  type (device node) <> "meta" ->
  type (device idx) <> "meta" ->
  type (device emb) <> "meta" ->
  separations_fit idx B L ->
  exists G,
    make_graph node idx emb = Ok G /\
    forall k b i j,
      nth_error (linked_pairs idx B L) k = Some [b; i; j] ->
      nth_error (edges G) k = Some (node_id L b i, node_id L b j) /\
      forall r, in_range r erest ->
        get fzero (edge_attr G) (k :: r) = get fzero emb (b :: i :: j :: r).
Proof.
  intros Hidx Hemb Hnode Hpos Mnode Hmeta Memb Hfit.
  destruct (make_graph_full node idx emb B L nrest erest Hidx Hemb Hnode Hpos
              Mnode Hmeta Memb)
    as (G & Hrun & _ & Hei & Hea).
  rewrite (connected_linked idx B L Hfit) in Hei, Hea.
  exists G. split; [ exact Hrun | ].
  intros k b i j Hk. split.
  - rewrite (edges_of_pairs G L _ _ Hei), nth_error_map, Hk. reflexivity.
  - intros r Hr. rewrite Hea. unfold get. cbn [shape data offset].
    rewrite (nth_flat_map_uniform _ (numel erest) _) with (a := [b; i; j]).
    + rewrite nth_indep with (d' := get fzero emb ([b; i; j] ++ r))
        by (rewrite length_map, length_indices; now apply offset_lt).
      rewrite (map_nth (fun r0 => get fzero emb ([b; i; j] ++ r0))), nth_indices
        by exact Hr.
      reflexivity.
    + intros a. now rewrite length_map, length_indices.
    + exact Hk.
    + now apply offset_lt.
Qed.

(** X3, for one chain whose residues are numbered 7, 9, 9. *)
Lemma make_graph_edge_attr_witness :
  exists G,
    make_graph (zeros [1; 3; 4] cpu) (mk_tensor [1; 3] cpu [7; 9; 9]%Z)
               (zeros [1; 3; 3; 5] cpu) = Ok G /\
    forall k b i j,
      nth_error (linked_pairs (mk_tensor [1; 3] cpu [7; 9; 9]%Z) 1 3) k = Some [b; i; j] ->
      nth_error (edges G) k = Some (node_id 3 b i, node_id 3 b j) /\
      forall r, in_range r [5] ->
        get fzero (edge_attr G) (k :: r) = get fzero (zeros [1; 3; 3; 5] cpu) (b :: i :: j :: r).
Proof.
  apply (make_graph_edge_attr (zeros [1; 3; 4] cpu) (mk_tensor [1; 3] cpu [7; 9; 9]%Z)
           (zeros [1; 3; 3; 5] cpu) 1 3 [4] [5]
           eq_refl eq_refl eq_refl ltac:(lia)
           ltac:(discriminate) ltac:(discriminate) ltac:(discriminate) fit_7_9_9).
Defined.

(** X4.  For a well-shaped, non-empty batch of tensors off the [meta]
    device, node [b*L+i] of the graph carries the features of residue [i]
    of chain [b]: row [b*L+i] of [x] is [node[b, i]]. *)
Theorem make_graph_node_rows (node : tensor float) (idx : tensor Z)
    (emb : tensor float) (B L : nat) (nrest erest : list nat) :
  shape idx = [B; L] ->
  shape emb = B :: L :: L :: erest ->
  shape node = B :: L :: nrest ->
  0 < B * L ->
  type (device node) <> "meta" ->
  type (device idx) <> "meta" ->
  type (device emb) <> "meta" ->
  exists G,
    make_graph node idx emb = Ok G /\
    shape (x G) = [B * L; numel nrest] /\
    forall b i r, b < B -> i < L -> in_range r nrest ->
      get fzero (x G) [b * L + i; offset nrest r] = get fzero node (b :: i :: r).
Proof.
  intros Hidx Hemb Hnode Hpos Mnode Hmeta Memb.
  destruct (make_graph_full node idx emb B L nrest erest Hidx Hemb Hnode Hpos
              Mnode Hmeta Memb)
    as (G & Hrun & Hx & _).
  exists G. split; [ exact Hrun | ]. rewrite Hx. split; [ reflexivity | ].
  intros b i r Hb Hi Hr. unfold get. rewrite Hnode.
  cbn [shape data offset numel fold_right]. f_equal.
  fold (numel nrest). nia.
Qed.

(** X4, for one chain of three residues with four features each. *)
Lemma make_graph_node_rows_witness :
  exists G,
    make_graph (zeros [1; 3; 4] cpu) (mk_tensor [1; 3] cpu [7; 9; 9]%Z)
               (zeros [1; 3; 3; 5] cpu) = Ok G /\
    shape (x G) = [1 * 3; numel [4]] /\
    forall b i r, b < 1 -> i < 3 -> in_range r [4] ->
      get fzero (x G) [b * 3 + i; offset [4] r]
      = get fzero (zeros [1; 3; 4] cpu) (b :: i :: r).
Proof.
  apply (make_graph_node_rows (zeros [1; 3; 4] cpu) (mk_tensor [1; 3] cpu [7; 9; 9]%Z)
           (zeros [1; 3; 3; 5] cpu) 1 3 [4] [5]
           eq_refl eq_refl eq_refl ltac:(lia)
              ltac:(discriminate) ltac:(discriminate) ltac:(discriminate)).
Defined.

(** X5.  An empty batch (no chain, or chains without residues) makes
    [make_graph] raise a [RuntimeError]: [node.reshape(0, -1)] has no
    answer.  On the [meta] device the exception is the
    [NotImplementedError], a [RuntimeError] too, that [torch.where] raises
    before. *)
Theorem make_graph_empty_batch_raises (node : tensor float) (idx : tensor Z)
    (emb : tensor float) (B L : nat) (erest : list nat) :
  shape idx = [B; L] ->
  shape emb = B :: L :: erest ->
  B * L = 0 ->
  exists msg,
    make_graph node idx emb
    = Raise (if String.eqb (type (device idx)) "meta"
             then NotImplementedError msg else RuntimeError msg).
Proof. exact (make_graph_without_nodes node idx emb B L erest). Qed.

(** X5, for a batch of two chains without residues. *)
Lemma make_graph_empty_batch_raises_witness :
  exists msg,
    make_graph (zeros [2; 0; 4] cpu) (mk_tensor [2; 0] cpu []) (zeros [2; 0; 0; 5] cpu)
    = Raise (RuntimeError msg).
Proof.
  apply (make_graph_empty_batch_raises (zeros [2; 0; 4] cpu) (mk_tensor [2; 0] cpu [])
           (zeros [2; 0; 0; 5] cpu) 2 0 [0; 5]); reflexivity.
Defined.

(** X6.  When all residues of every chain carry one residue index (as in
    chains of a single residue), the graph of a well-shaped, non-empty batch
    of tensors off the [meta] device has its B * L nodes and no edge. *)
Theorem make_graph_no_edges (node : tensor float) (idx : tensor Z)
    (emb : tensor float) (B L : nat) (nrest erest : list nat) :
  shape idx = [B; L] ->
  shape emb = B :: L :: L :: erest ->
  shape node = B :: L :: nrest ->
  0 < B * L ->
  type (device node) <> "meta" ->
  type (device idx) <> "meta" ->
  type (device emb) <> "meta" ->
  (forall b i j, b < B -> i < L -> j < L -> get 0%Z idx [b; i] = get 0%Z idx [b; j]) ->
  exists G,
    make_graph node idx emb = Ok G /\
    num_nodes G = B * L /\
    edges G = [] /\
    shape (edge_index G) = [2; 0] /\
    shape (edge_attr G) = 0 :: erest.
Proof.
  intros Hidx Hemb Hnode Hpos Mnode Hmeta Memb Hsame.
  destruct (make_graph_full node idx emb B L nrest erest Hidx Hemb Hnode Hpos
              Mnode Hmeta Memb)
    as (G & Hrun & Hx & Hei & Hea).
  assert (Hnone : connected_pairs idx B L = []).
  { destruct (connected_pairs idx B L) as [| ix rest] eqn:Hl; [ reflexivity | ].
    assert (Hin : In ix (connected_pairs idx B L)) by (rewrite Hl; now left).
    apply in_connected_pairs in Hin as (b & i & j & _ & Hb & Hi & Hj & Hc).
    exfalso. apply (connected_differ idx b i j Hc). now apply Hsame. }
  exists G. split; [ exact Hrun | ].
  rewrite (edges_of_pairs G L _ _ Hei), Hei, Hea, Hnone.
  unfold num_nodes. rewrite Hx. now repeat split.
Qed.

(** X6, for three chains of one residue. *)
Lemma make_graph_no_edges_witness :
  exists G,
    make_graph (zeros [3; 1; 4] cpu) (mk_tensor [3; 1] cpu [5; 6; 7]%Z)
               (zeros [3; 1; 1; 5] cpu) = Ok G /\
    num_nodes G = 3 * 1 /\
    edges G = [] /\
    shape (edge_index G) = [2; 0] /\
    shape (edge_attr G) = [0; 5].
Proof.
  apply (make_graph_no_edges (zeros [3; 1; 4] cpu) (mk_tensor [3; 1] cpu [5; 6; 7]%Z)
           (zeros [3; 1; 1; 5] cpu) 3 1 [4] [5]
           eq_refl eq_refl eq_refl ltac:(lia)
              ltac:(discriminate) ltac:(discriminate) ltac:(discriminate)).
  intros b i j _ Hi Hj. now replace i with 0 by lia; replace j with 0 by lia.
Defined.

Lemma binop_device {A B C : Type} (da : A) (db : B) (f : A -> B -> C)
    (a : tensor A) (b : tensor B) (c : tensor C) :
  binop da db f a b = Ok c -> device c = device a.
Proof.
  unfold binop. destruct (negb (device_eqb (device a) (device b))); [ discriminate | ].
  destruct (broadcast_shapes (shape a) (shape b)); [ | discriminate ].
  intros H. now injection H as <-.
Qed.

Lemma stack2_device {A : Type} (a b c : tensor A) :
  stack2 a b = Ok c -> device c = device a.
Proof.
  unfold stack2. destruct (negb (device_eqb (device a) (device b))); [ discriminate | ].
  destruct (list_eq_dec Nat.eq_dec (shape a) (shape b)); [ | discriminate ].
  intros H. now injection H as <-.
Qed.

(** X7.  Whatever the arguments, the three tensors of a graph that
    [make_graph] returns live on one device: the CPU when [emb] is on an MPS
    device, the device of [emb] otherwise. *)
Theorem make_graph_on_fallback_device (node : tensor float) (idx : tensor Z)
    (emb : tensor float) (G : Data) :
  make_graph node idx emb = Ok G ->
  let fb := if String.eqb (type (device emb)) "mps" then cpu else device emb in
  device (x G) = fb /\ device (edge_index G) = fb /\ device (edge_attr G) = fb.
Proof.
  intros H fb. unfold make_graph in H. rewrite fallback_total in H.
  cbn [bind] in H. fold fb in H.
  apply bind_Ok_inv in H as ([B L] & _ & H).
  apply bind_Ok_inv in H as (idx_row & _ & H).
  apply bind_Ok_inv in H as (idx_col & _ & H).
  apply bind_Ok_inv in H as (sep & _ & H).
  apply bind_Ok_inv in H as (hits & _ & H).
  apply bind_Ok_inv in H as (hits' & Hmoved & H).
  apply bind_Ok_inv in H as ([[b i] j] & Hunpack & H).
  apply bind_Ok_inv in H as (src & Hsrc & H).
  apply bind_Ok_inv in H as (tgt & _ & H).
  apply bind_Ok_inv in H as (x0 & _ & H).
  apply bind_Ok_inv in H as (x1 & Hx & H).
  apply bind_Ok_inv in H as (e_idx & Hstack & H).
  apply bind_Ok_inv in H as (e_attr & _ & H).
  apply bind_Ok_inv in H as (e_attr' & Hea & H).
  injection H as <-. cbn [x edge_index edge_attr].
  apply to_inv in Hx, Hea. subst x1 e_attr'. cbn [moved device].
  split; [ reflexivity | ]. split; [ | reflexivity ].
  rewrite (stack2_device _ _ _ Hstack), (binop_device _ _ _ _ _ _ Hsrc).
  cbn [tmap device].
  unfold unpack3 in Hunpack.
  destruct hits' as [| t0 [| t1 [| t2 [| ? ?]]]]; try discriminate.
  injection Hunpack as <- <- <-.
  destruct hits as [| h0 hits]; cbn [map sequence] in Hmoved; [ discriminate | ].
  apply bind_Ok_inv in Hmoved as (t & Ht & Hmoved).
  apply bind_Ok_inv in Hmoved as (r & _ & Hmoved).
  injection Hmoved as <- _. apply to_inv in Ht. now subst t.
Qed.

(** X7, on an MPS device. *)
Lemma make_graph_on_fallback_device_witness :
  exists G,
    make_graph (zeros [1; 2; 4] mps) (mk_tensor [1; 2] mps [3; 4]%Z)
               (zeros [1; 2; 2; 5] mps) = Ok G /\
    device (x G) = cpu /\ device (edge_index G) = cpu /\ device (edge_attr G) = cpu.
Proof.
  destruct (make_graph_full (zeros [1; 2; 4] mps) (mk_tensor [1; 2] mps [3; 4]%Z)
              (zeros [1; 2; 2; 5] mps) 1 2 [4] [5]
              eq_refl eq_refl eq_refl ltac:(lia)
              ltac:(discriminate) ltac:(discriminate) ltac:(discriminate)) as (G & Hrun & _).
  exists G. split; [ exact Hrun | ].
  exact (make_graph_on_fallback_device _ _ _ _ Hrun).
Defined.

End GraphExtras.

(** ** More about get_seqsep *)

Module SeqsepExtras.

Import Device Torch InitStrGenerator Pairs TorchFacts SeqsepFacts.

(** The entries of [get_seqsep] for index differences that fit in 64
    bits. *)
Lemma get_seqsep_fit (idx : tensor Z) (B L : nat) :
  shape idx = [B; L] ->
  separations_fit idx B L ->
  exists seqsep,
    get_seqsep idx = Ok seqsep /\
    forall b i j, b < B -> i < L -> j < L ->
      let d := (get 0%Z idx [b; j] - get 0%Z idx [b; i])%Z in
      get fzero seqsep [b; i; j; 0]
      = Finite (IZR (Z.sgn d) * clamp 0.0 5.5 (ln (IZR (Z.abs d) + 1.0))).
Proof.
  intros Hs Hfit.
  destruct (get_seqsep_finite idx B L Hs) as (seqsep & Hrun & _ & Hval).
  exists seqsep. split; [ exact Hrun | ].
  intros b i j Hb Hi Hj d.
  pose proof (Hfit b i j Hb Hi Hj) as Hd. fold d in Hd.
  pose proof (Hval b i j Hb Hi Hj) as Hv. cbv zeta in Hv.
  rewrite (int64_sub_fits _ _ Hd) in Hv. fold d in Hv.
  apply Hv. change (2 ^ 63)%Z with 9223372036854775808%Z in *. lia.
Qed.

Lemma clamp_ln_pos (n : Z) :
  (0 < n)%Z -> (0 < clamp 0.0 5.5 (ln (IZR n + 1.0)))%R.
Proof.
  intros Hn. assert (H1 : (1 <= IZR n)%R) by (apply IZR_le; lia).
  assert (Hln : (0 < ln (IZR n + 1.0))%R).
  { rewrite <- ln_1. apply ln_increasing; lra. }
  unfold clamp, Rmin, Rmax.
  destruct (Rle_dec (ln (IZR n + 1.0)) 0.0); destruct (Rle_dec _ 5.5); lra.
Qed.

(** X8.  Off the [meta] device and for index differences that fit in 64
    bits, the sign of the sequence separation is the sign of the index
    difference: the entry at (b, i, j) is a finite number, positive exactly
    when residue [j] has the larger residue index, negative exactly when it
    has the smaller one, and zero exactly when the two indices are equal. *)
Theorem get_seqsep_sign (idx : tensor Z) (B L : nat) :
  shape idx = [B; L] ->
  type (device idx) <> "meta" ->
  separations_fit idx B L ->
  exists seqsep,
    get_seqsep idx = Ok seqsep /\
    forall b i j, b < B -> i < L -> j < L ->
      exists v : R,
        get fzero seqsep [b; i; j; 0] = Finite v /\
        (Rlt 0%R v <-> (get 0%Z idx [b; i] < get 0%Z idx [b; j])%Z) /\
        (Rlt v 0%R <-> (get 0%Z idx [b; j] < get 0%Z idx [b; i])%Z) /\
        (v = 0%R <-> get 0%Z idx [b; i] = get 0%Z idx [b; j]).
Proof.
  intros Hs _ Hfit.
  destruct (get_seqsep_fit idx B L Hs Hfit) as (seqsep & Hrun & Hval).
  exists seqsep. split; [ exact Hrun | ].
  intros b i j Hb Hi Hj. eexists. split; [ exact (Hval b i j Hb Hi Hj) | ].
  set (p := get 0%Z idx [b; i]). set (q := get 0%Z idx [b; j]).
  destruct (Z.lt_trichotomy (q - p) 0) as [Hneg | [Hzero | Hpos]].
  - rewrite (Z.sgn_neg _ Hneg).
    pose proof (clamp_ln_pos (Z.abs (q - p)) ltac:(lia)) as Hc.
    set (c := clamp _ _ _) in *.
    repeat split; intros H; try lia; lra.
  - rewrite Hzero. cbn [Z.sgn Z.abs].
    repeat split; intros H; try lia; lra.
  - rewrite (Z.sgn_pos _ Hpos).
    pose proof (clamp_ln_pos (Z.abs (q - p)) ltac:(lia)) as Hc.
    set (c := clamp _ _ _) in *.
    repeat split; intros H; try lia; lra.
Qed.

(** X8, at the indices 7, 9, 9 of one chain. *)
Lemma get_seqsep_sign_witness :
  exists seqsep,
    get_seqsep (mk_tensor [1; 3] cpu [7; 9; 9]%Z) = Ok seqsep /\
    forall b i j, b < 1 -> i < 3 -> j < 3 ->
      exists v : R,
        get fzero seqsep [b; i; j; 0] = Finite v /\
        (Rlt 0%R v <-> Z.lt (get 0%Z (mk_tensor [1; 3] cpu [7; 9; 9]%Z) [b; i])
                            (get 0%Z (mk_tensor [1; 3] cpu [7; 9; 9]%Z) [b; j])) /\
        (Rlt v 0%R <-> Z.lt (get 0%Z (mk_tensor [1; 3] cpu [7; 9; 9]%Z) [b; j])
                            (get 0%Z (mk_tensor [1; 3] cpu [7; 9; 9]%Z) [b; i])) /\
        (v = 0%R <-> get 0%Z (mk_tensor [1; 3] cpu [7; 9; 9]%Z) [b; i]
                     = get 0%Z (mk_tensor [1; 3] cpu [7; 9; 9]%Z) [b; j]).
Proof.
  exact (get_seqsep_sign (mk_tensor [1; 3] cpu [7; 9; 9]%Z) 1 3 eq_refl
           ltac:(discriminate) fit_7_9_9).
Defined.

Lemma clamp_ln_monotone (m n : Z) :
  (0 <= m <= n)%Z ->
  (clamp 0.0 5.5 (ln (IZR m + 1.0)) <= clamp 0.0 5.5 (ln (IZR n + 1.0)))%R.
Proof.
  intros [Hm Hmn].
  assert (H0 : (0 <= IZR m)%R) by (apply IZR_le; lia).
  assert (H1 : (IZR m <= IZR n)%R) by (apply IZR_le; lia).
  assert (Hln : (ln (IZR m + 1.0) <= ln (IZR n + 1.0))%R).
  { destruct (Req_dec (IZR m) (IZR n)) as [-> | Hne]; [ lra | ].
    left. apply ln_increasing; lra. }
  set (u := ln (IZR m + 1.0)) in *. set (v := ln (IZR n + 1.0)) in *.
  unfold clamp, Rmin, Rmax.
  destruct (Rle_dec u 0.0); destruct (Rle_dec v 0.0);
    repeat match goal with |- context [Rle_dec ?a 5.5] => destruct (Rle_dec a 5.5) end;
    lra.
Qed.

(** X9.  Off the [meta] device and for index differences that fit in 64
    bits, the size of the sequence separation grows with the distance of the
    residue indices: if residues [i], [j] are at most as far apart as
    residues [i'], [j'], the entry at (b, i, j) is at most as large in
    absolute value as the entry at (b', i', j'). *)
Theorem get_seqsep_monotone (idx : tensor Z) (B L : nat) :
  shape idx = [B; L] ->
  type (device idx) <> "meta" ->
  separations_fit idx B L ->
  exists seqsep,
    get_seqsep idx = Ok seqsep /\
    forall b i j b' i' j',
      b < B -> i < L -> j < L -> b' < B -> i' < L -> j' < L ->
      (Z.abs (get 0%Z idx [b; j] - get 0%Z idx [b; i])
       <= Z.abs (get 0%Z idx [b'; j'] - get 0%Z idx [b'; i']))%Z ->
      exists v v' : R,
        get fzero seqsep [b; i; j; 0] = Finite v /\
        get fzero seqsep [b'; i'; j'; 0] = Finite v' /\
        Rle (Rabs v) (Rabs v').
Proof.
  intros Hs _ Hfit.
  destruct (get_seqsep_fit idx B L Hs Hfit) as (seqsep & Hrun & Hval).
  exists seqsep. split; [ exact Hrun | ].
  intros b i j b' i' j' Hb Hi Hj Hb' Hi' Hj' Hle.
  do 2 eexists.
  split; [ exact (Hval b i j Hb Hi Hj) | ].
  split; [ exact (Hval b' i' j' Hb' Hi' Hj') | ].
  set (p := (get 0%Z idx [b; j] - get 0%Z idx [b; i])%Z) in *.
  set (q := (get 0%Z idx [b'; j'] - get 0%Z idx [b'; i'])%Z) in *.
  pose proof (clamp_ln_monotone (Z.abs p) (Z.abs q) ltac:(lia)) as Hmono.
  pose proof (clamp_bounds (ln (IZR (Z.abs p) + 1.0))) as Hcp.
  pose proof (clamp_bounds (ln (IZR (Z.abs q) + 1.0))) as Hcq.
  set (cp := clamp _ _ (ln (IZR (Z.abs p) + 1.0))) in *.
  set (cq := clamp _ _ (ln (IZR (Z.abs q) + 1.0))) in *.
  assert (Habs : forall z c, (0 <= c)%R ->
            Rabs (IZR (Z.sgn z) * c) = if Z.eqb z 0 then 0%R else c).
  { intros z c Hc.
    destruct (Z.sgn_spec z) as [[Hz ->] | [[Hz ->] | [Hz ->]]].
    - rewrite (proj2 (Z.eqb_neq z 0)) by lia. rewrite Rmult_1_l. now apply Rabs_pos_eq.
    - subst z. cbn [Z.eqb]. rewrite Rmult_0_l. apply Rabs_R0.
    - rewrite (proj2 (Z.eqb_neq z 0)) by lia.
      rewrite opp_IZR. replace (- IZR 1 * c)%R with (- c)%R by lra.
      rewrite Rabs_Ropp. now apply Rabs_pos_eq. }
  rewrite !Habs by lra.
  destruct (Z.eqb_spec p 0) as [Hp | Hp]; destruct (Z.eqb_spec q 0) as [Hq | Hq];
    try lra.
  exfalso. lia.
Qed.

(** X9, at the indices 7, 9, 9 of one chain. *)
Lemma get_seqsep_monotone_witness :
  exists seqsep,
    get_seqsep (mk_tensor [1; 3] cpu [7; 9; 9]%Z) = Ok seqsep /\
    exists v v' : R,
      get fzero seqsep [0; 1; 2; 0] = Finite v /\
      get fzero seqsep [0; 0; 2; 0] = Finite v' /\
      Rle (Rabs v) (Rabs v').
Proof.
  destruct (get_seqsep_monotone (mk_tensor [1; 3] cpu [7; 9; 9]%Z) 1 3 eq_refl
              ltac:(discriminate) fit_7_9_9)
    as (seqsep & Hrun & Hmono).
  exists seqsep. split; [ exact Hrun | ].
  apply Hmono; try lia. vm_compute. discriminate.
Defined.

End SeqsepExtras.

(** ** More about the network *)

Module NetworkExtras.

Import Device Decorators Torch InitStrGenerator TorchFacts SeqsepFacts GraphFacts
       NetworkFacts GraphExtras.

Lemma block_keeps_edges (ext : externals) (TConv LNorm Lin Activ : layer) (G G' : Data) :
  call_graph ext (UniMPBlock TConv LNorm Lin Activ) G = Ok G' ->
  edge_index G' = edge_index G /\ edge_attr G' = edge_attr G.
Proof.
  cbn [call_graph]. unfold cuda_amp_autocast.
  assert (Hbody : UniMPBlock_forward ext TConv LNorm Lin Activ G = Ok G' ->
                  edge_index G' = edge_index G /\ edge_attr G' = edge_attr G).
  { unfold UniMPBlock_forward. intros H.
    apply bind_Ok_inv in H as (x1 & _ & H).
    apply bind_Ok_inv in H as (x2 & _ & H).
    apply bind_Ok_inv in H as (x3 & _ & H).
    apply bind_Ok_inv in H as (s & _ & H).
    apply bind_Ok_inv in H as (out & _ & H).
    injection H as <-. now split. }
  destruct (cuda_is_available (rt ext)); exact Hbody.
Qed.

(** X10.  A stack of [UniMPBlock]s changes node features only: the graph it
    returns has the edge list and the edge attributes of the graph it was
    given. *)
Theorem transformer_keeps_edges (ext : externals) (blocks : list layer) (G G' : Data) :
  Forall (fun l => exists TConv LNorm Lin Activ, l = UniMPBlock TConv LNorm Lin Activ)
         blocks ->
  call_graph ext (Sequential blocks) G = Ok G' ->
  edge_index G' = edge_index G /\ edge_attr G' = edge_attr G.
Proof.
  intros Hblocks. revert G.
  induction Hblocks as [| l ls (a & b & c & d & ->) _ IH]; intros G H.
  - cbn [call_graph] in H. injection H as <-. now split.
  - cbn [call_graph] in H. apply bind_Ok_inv in H as (G1 & H1 & H).
    apply (block_keeps_edges ext a b c d) in H1 as [<- <-].
    apply IH. exact H.
Qed.

(** X10, for one block on a graph of two nodes and one edge. *)
Lemma transformer_keeps_edges_witness :
  let G := mk_Data (zeros [2; 3] cpu) (mk_tensor [2; 1] cpu [0; 1]%Z) (zeros [1; 2] cpu) in
  let block := UniMPBlock_init 3 2 4 (fun _ _ _ _ => fzero) (fun _ _ => fzero)
                               (fun _ _ => fzero) in
  exists G',
    call_graph reference_externals (Sequential [block]) G = Ok G' /\
    edge_index G' = edge_index G /\ edge_attr G' = edge_attr G.
Proof.
  intros G block.
  destruct (call_block reference_externals 2 3 1 2 4 cpu
              (fun _ _ _ _ => fzero) (fun _ _ => fzero) (fun _ _ => fzero) G
              reference_LayerNorm reference_TransformerConv
              ltac:(lia) ltac:(lia) ltac:(lia) ltac:(lia) ltac:(discriminate))
    as (G' & Hrun & _); [ now repeat split | ].
  assert (Hseq : call_graph reference_externals (Sequential [block]) G = Ok G').
  { change (bind (call_graph reference_externals
                     (layer_to cpu (UniMPBlock_init 3 2 4 (fun _ _ _ _ => fzero)
                                      (fun _ _ => fzero) (fun _ _ => fzero))) G)
                  (fun G1 => Ok G1) = Ok G').
    now rewrite Hrun. }
  exists G'. split; [ exact Hseq | ].
  apply (transformer_keeps_edges reference_externals [block] G G'); [ | exact Hseq ].
  repeat constructor. unfold block, UniMPBlock_init. eauto.
Defined.

Lemma transformer_to_twice (hp : hyperparameters) (w : weights) (d dt fb : Device.device) :
  transformer_to fb (transformer_to dt (module_to d (InitStr_Network_init hp w)))
  = transformer_to fb (module_to d (InitStr_Network_init hp w)).
Proof.
  unfold transformer_to, module_to, InitStr_Network_init.
  cbn [map getattr setattr String.eqb Ascii.eqb Bool.eqb layer_to].
  now rewrite !map_map.
Qed.

(** X11.  [forward] can be called again.  On a network with positive widths
    and at least one head on a device other than [meta] (where its
    transformer has not been placed either), after a first call
    on a well-shaped batch the module is the network with its transformer on
    the fallback device; a second call on another well-shaped batch (of any
    size) returns as well, and it leaves the module as the first call left
    it. *)
Theorem forward_twice (ext : externals) (hp : hyperparameters) (w : weights)
    (d dt : Device.device)
    (seq1hot : tensor float) (idx : tensor Z) (msa pair : tensor float) (B N L : nat)
    (seq1hot' : tensor float) (idx' : tensor Z) (msa' pair' : tensor float)
    (B' N' L' : nat) :
  LayerNorm_contract ext ->
  SequenceWeight_contract ext ->
  TransformerConv_contract ext ->
  positive_dimensions hp ->
  type d <> "meta" -> type dt <> "meta" ->
  shape msa = [B; N; L; node_dim_in hp] ->
  shape seq1hot = [B; L; 21] ->
  shape idx = [B; L] ->
  shape pair = [B; L; L; edge_dim_in hp] ->
  device msa = d -> device seq1hot = d -> device idx = d -> device pair = d ->
  0 < B -> 0 < N -> 0 < L ->
  shape msa' = [B'; N'; L'; node_dim_in hp] ->
  shape seq1hot' = [B'; L'; 21] ->
  shape idx' = [B'; L'] ->
  shape pair' = [B'; L'; L'; edge_dim_in hp] ->
  device msa' = d -> device seq1hot' = d -> device idx' = d -> device pair' = d ->
  0 < B' -> 0 < N' -> 0 < L' ->
  exists self' xyz xyz',
    forward ext (transformer_to dt (module_to d (InitStr_Network_init hp w)))
            seq1hot idx msa pair = Ok (self', xyz) /\
    forward ext self' seq1hot' idx' msa' pair' = Ok (self', xyz') /\
    shape xyz = [B; L; 3; 3] /\ shape xyz' = [B'; L'; 3; 3].
Proof.
  intros HLN HSW HTC Hhp Hmeta Hdt Hmsa Hseq Hidx Hpair Dmsa Dseq Didx Dpair HB HN HL
         Hmsa' Hseq' Hidx' Hpair' Dmsa' Dseq' Didx' Dpair' HB' HN' HL'.
  destruct (forward_run ext HLN HSW HTC hp w d dt seq1hot idx msa pair B N L
              Hhp Hmeta Hdt Hmsa Hseq Hidx Hpair Dmsa Dseq Didx Dpair HB HN HL)
    as (fb & _ & _ & _ & _ & Gout & Hfb & _ & _ & _ & _ & _ & _ & _ & Hrun).
  rewrite transformer_to_twice in Hrun.
  assert (Mfb : type fb <> "meta").
  { pose proof Hfb as Hfb0. rewrite fallback_total in Hfb0. injection Hfb0 as <-.
    destruct (String.eqb (type d) "mps"); [ discriminate | exact Hmeta ]. }
  destruct (forward_run ext HLN HSW HTC hp w d fb seq1hot' idx' msa' pair' B' N' L'
              Hhp Hmeta Mfb Hmsa' Hseq' Hidx' Hpair' Dmsa' Dseq' Didx' Dpair' HB' HN' HL')
    as (fb' & _ & _ & _ & _ & Gout' & Hfb' & _ & _ & _ & _ & _ & _ & _ & Hrun').
  rewrite Hfb in Hfb'. injection Hfb' as <-.
  rewrite transformer_to_twice in Hrun'.
  do 3 eexists. split; [ exact Hrun | ]. split; [ exact Hrun' | ].
  split; reflexivity.
Qed.

(** X11, for the default network on an MPS device and batches of one chain
    of three residues and two chains of five residues. *)
Lemma forward_twice_witness :
  exists self' xyz xyz',
    forward reference_externals
            (transformer_to mps (module_to mps (InitStr_Network_init defaults zero_weights)))
            (zeros [1; 3; 21] mps) (mk_tensor [1; 3] mps [7; 8; 10]%Z)
            (zeros [1; 2; 3; 64] mps) (zeros [1; 3; 3; 128] mps)
    = Ok (self', xyz) /\
    forward reference_externals self'
            (zeros [2; 5; 21] mps) (mk_tensor [2; 5] mps [1; 2; 3; 4; 5; 1; 2; 3; 4; 5]%Z)
            (zeros [2; 4; 5; 64] mps) (zeros [2; 5; 5; 128] mps)
    = Ok (self', xyz') /\
    shape xyz = [1; 3; 3; 3] /\ shape xyz' = [2; 5; 3; 3].
Proof.
  apply (forward_twice reference_externals defaults zero_weights mps mps
           (zeros [1; 3; 21] mps) (mk_tensor [1; 3] mps [7; 8; 10]%Z)
           (zeros [1; 2; 3; 64] mps) (zeros [1; 3; 3; 128] mps) 1 2 3
           (zeros [2; 5; 21] mps) (mk_tensor [2; 5] mps [1; 2; 3; 4; 5; 1; 2; 3; 4; 5]%Z)
           (zeros [2; 4; 5; 64] mps) (zeros [2; 5; 5; 128] mps) 2 4 5
           reference_LayerNorm reference_SequenceWeight reference_TransformerConv
           defaults_positive ltac:(discriminate) ltac:(discriminate));
    try reflexivity; lia.
Defined.

(** X12.  [seq1hot] must have 21 channels: with any other number the call
    raises in [embed_x], whose [Linear] expects node_dim_in + 21 inputs. *)
Theorem forward_needs_21_channels (ext : externals) (hp : hyperparameters)
    (w : weights) (d dt : Device.device)
    (seq1hot : tensor float) (idx : tensor Z) (msa pair : tensor float) (B N L K : nat) :
  LayerNorm_contract ext ->
  SequenceWeight_contract ext ->
  shape msa = [B; N; L; node_dim_in hp] ->
  shape seq1hot = [B; L; K] ->
  shape pair = [B; L; L; edge_dim_in hp] ->
  device msa = d -> device seq1hot = d -> device pair = d ->
  0 < N ->
  K <> 21 ->
  exists msg,
    forward ext (transformer_to dt (module_to d (InitStr_Network_init hp w)))
            seq1hot idx msa pair = Raise (RuntimeError msg).
Proof. intros HLN HSW. now apply forward_wrong_channels. Qed.

(** X12, for a one-hot encoding with 20 channels. *)
Lemma forward_needs_21_channels_witness :
  exists msg,
    forward reference_externals
            (transformer_to cpu (module_to cpu (InitStr_Network_init defaults zero_weights)))
            (zeros [1; 3; 20] cpu) (mk_tensor [1; 3] cpu [7; 8; 10]%Z)
            (zeros [1; 2; 3; 64] cpu) (zeros [1; 3; 3; 128] cpu)
    = Raise (RuntimeError msg).
Proof.
  apply (forward_needs_21_channels reference_externals defaults zero_weights cpu cpu
           (zeros [1; 3; 20] cpu) (mk_tensor [1; 3] cpu [7; 8; 10]%Z)
           (zeros [1; 2; 3; 64] cpu) (zeros [1; 3; 3; 128] cpu)
           1 2 3 20 reference_LayerNorm reference_SequenceWeight);
    try reflexivity; lia.
Defined.

(** X13.  On an empty batch (no chain, or chains without residues) [forward]
    raises a [RuntimeError]: every step up to [make_graph] goes through, and
    [make_graph] cannot reshape the node features to zero rows.  On the
    [meta] device the exception is the [NotImplementedError], a
    [RuntimeError] too, that [torch.where] raises before. *)
Theorem forward_empty_batch_raises (ext : externals) (hp : hyperparameters)
    (w : weights) (d dt : Device.device)
    (seq1hot : tensor float) (idx : tensor Z) (msa pair : tensor float) (B N L : nat) :
  LayerNorm_contract ext ->
  SequenceWeight_contract ext ->
  shape msa = [B; N; L; node_dim_in hp] ->
  shape seq1hot = [B; L; 21] ->
  shape idx = [B; L] ->
  shape pair = [B; L; L; edge_dim_in hp] ->
  device msa = d -> device seq1hot = d -> device idx = d -> device pair = d ->
  0 < N ->
  B * L = 0 ->
  exists msg,
    forward ext (transformer_to dt (module_to d (InitStr_Network_init hp w)))
            seq1hot idx msa pair
    = Raise (if String.eqb (type d) "meta"
             then NotImplementedError msg else RuntimeError msg).
Proof. intros HLN HSW. now apply forward_without_residues. Qed.

(** X13, for a batch of one chain without residues. *)
Lemma forward_empty_batch_raises_witness :
  exists msg,
    forward reference_externals
            (transformer_to cpu (module_to cpu (InitStr_Network_init defaults zero_weights)))
            (zeros [1; 0; 21] cpu) (mk_tensor [1; 0] cpu [])
            (zeros [1; 2; 0; 64] cpu) (zeros [1; 0; 0; 128] cpu)
    = Raise (RuntimeError msg).
Proof.
  apply (forward_empty_batch_raises reference_externals defaults zero_weights cpu cpu
           (zeros [1; 0; 21] cpu) (mk_tensor [1; 0] cpu [])
           (zeros [1; 2; 0; 64] cpu) (zeros [1; 0; 0; 128] cpu)
           1 2 0 reference_LayerNorm reference_SequenceWeight);
    try reflexivity; lia.
Defined.

End NetworkExtras.

(** ** More about the build descriptor *)

Module SetupExtras.

Import Setup SetupFacts.

Lemma join_snoc_append (c : ascii) (parts : list string) (x y : string) :
  (join c (parts ++ [x]) ++ y)%string = join c (parts ++ [(x ++ y)%string]).
Proof.
  induction parts as [| p rest IH]; [ reflexivity | ].
  cbn [app]. destruct rest as [| q rest].
  - cbn [app join]. now rewrite append_assoc.
  - change (join c (p :: (q :: rest) ++ [x]))
      with (p ++ String c (join c ((q :: rest) ++ [x])))%string.
    change (join c (p :: (q :: rest) ++ [(x ++ y)%string]))
      with (p ++ String c (join c ((q :: rest) ++ [(x ++ y)%string])))%string.
    rewrite append_assoc. cbn [append]. now rewrite IH.
Qed.

(** The path of a source file can be read back from the name of its
    extension, when no directory name and no file stem holds a dot. *)
Lemma extension_name_to_path (cwd : list string) (numpy_include : string)
    (dirs : list string) (stem : string) :
  Forall valid_name cwd -> Forall valid_name dirs ->
  Forall (fun p => split extsep p = [p]) (dirs ++ [stem]) ->
  split sep stem = [stem] -> stem <> EmptyString ->
  (replace extsep sep (name (extension cwd numpy_include (pyx_path dirs stem))) ++ ".pyx")%string
  = pyx_path dirs stem.
Proof.
  intros Hcwd Hdirs Hdots Hwhole Hne.
  assert (Hstem : exists a rest, stem = String a rest /\ a <> extsep).
  { destruct stem as [| a rest]; [ contradiction | ].
    exists a, rest. split; [ reflexivity | ].
    apply Forall_app in Hdots as [_ Hs]. inversion Hs as [| ? ? H _]; subst.
    apply split_whole_cons in H as [Ha _]. now apply Ascii.eqb_neq. }
  rewrite extension_name by assumption.
  rewrite replace_join.
  2:{ apply Forall_app. split; [ | now constructor ].
      eapply Forall_impl; [ | exact Hdirs ]. now intros c (_ & _ & _ & H). }
  rewrite replace_app, (replace_join extsep sep) by exact Hdots.
  unfold pyx_path.
  change (join sep ("lie_learn" :: dirs ++ [(stem ++ ".pyx")%string]))
    with (join sep (("lie_learn" :: dirs) ++ [(stem ++ ".pyx")%string])).
  rewrite <- join_snoc_append. f_equal.
  cbn [app]. destruct dirs; reflexivity.
Qed.

(** X14.  Two source files whose directory names and file stems hold no dot
    get different extension names, unless they are the same file. *)
Theorem extension_names_distinct (cwd : list string) (numpy_include : string)
    (dirs dirs' : list string) (stem stem' : string) :
  Forall valid_name cwd ->
  Forall valid_name dirs -> Forall valid_name dirs' ->
  Forall (fun p => split extsep p = [p]) (dirs ++ [stem]) ->
  Forall (fun p => split extsep p = [p]) (dirs' ++ [stem']) ->
  split sep stem = [stem] -> split sep stem' = [stem'] ->
  stem <> EmptyString -> stem' <> EmptyString ->
  name (extension cwd numpy_include (pyx_path dirs stem))
  = name (extension cwd numpy_include (pyx_path dirs' stem')) ->
  pyx_path dirs stem = pyx_path dirs' stem'.
Proof.
  intros Hcwd Hd Hd' Hdots Hdots' Hw Hw' Hne Hne' Hname.
  rewrite <- (extension_name_to_path cwd numpy_include dirs stem) by assumption.
  rewrite <- (extension_name_to_path cwd numpy_include dirs' stem') by assumption.
  now rewrite Hname.
Qed.

(** X14, for two files named alike in two directories. *)
Lemma extension_names_distinct_witness :
  name (extension ["home"; "user"] "include" (pyx_path ["groups"] "SO3"))
  <> name (extension ["home"; "user"] "include" (pyx_path ["spaces"] "SO3")).
Proof.
  intros Hname.
  assert (H : pyx_path ["groups"] "SO3" = pyx_path ["spaces"] "SO3").
  { apply (extension_names_distinct ["home"; "user"] "include"
             ["groups"] ["spaces"] "SO3" "SO3");
      try exact Hname; try reflexivity; try discriminate;
      repeat constructor; discriminate. }
  discriminate H.
Defined.

(** A directory name with a dot is enough for two files to share one
    extension name. *)
Example extension_names_collide :
  name (extension ["home"; "user"] "include" "lie_learn/a.b/c.pyx")
  = name (extension ["home"; "user"] "include" "lie_learn/a/b/c.pyx").
Proof. reflexivity. Qed.

End SetupExtras.
